(** * Account store, credit ledger, identity sync and billing bridge

    A shallow embedding of
      - [src/modals/user.modal.ts]            (the [User] schema and its indexes),
      - [src/actions/user.actions.ts]         (the server actions, in the version
                                               that has the wallet helpers),
      - [src/app/api/webhooks/clerk/route.ts] (the identity webhook),
      - [src/actions/stripe.actions.ts]       (the checkout flow),
    and the properties of the account data model proved on it.

    Modelling conventions.
      - A JavaScript [string] is a [string] of code units below 256; the
        character classes, [trim] and [toLowerCase] are written out for that
        range.
      - A JavaScript [number] is an IEEE 754 binary64 value, a primitive
        [float]: [<=], [>=], [+] and [-] on credits are the operations of
        [PrimFloat], with their rounding, their infinities and NaN.  The
        store adds and compares numbers the same way.  (It keeps an integer
        below 2^31 in magnitude in an integer type and widens the sum of two
        such integers; the two readings agree on every value below 2^53 in
        magnitude.)
      - A [Date] is a [Z] (milliseconds), and every operation receives the
        clock reading [now] it would obtain from [new Date()].
      - An [async] action is a computation in the monad [M]: it threads the
        collection and either returns a value or throws.

    The store.  The actions reach the collection through Mongoose calls
    only; what those calls do is fixed by the schema, and is modelled as
    MongoDB and Mongoose document it:
      - the collection is a list of documents in insertion order, and a
        write to one document is atomic: it happens wholly or, when it
        throws, not at all;
      - a unique index refuses a write that would give it the same entry
        twice, with error code 11000 and the index as [keyPattern]; when
        several indexes would refuse, the first in declaration order is
        reported (no property below depends on that order);
      - a sparse index has no entry for a document that lacks the field,
        and one for every document that has it;
      - an upsert that inserts starts from the filter's equality field and
        the schema defaults, and [{ timestamps: true }] stamps [createdAt]
        on insert and [updatedAt] on every write;
      - update validators do not run ([runValidators] is not set);
      - Mongoose casts the numbers of a filter and of an update to the
        schema type before it sends anything: NaN does not cast, and the
        call rejects with a [CastError] that names the path.

    The provider of the checkout flow and the signature library of the
    webhook are outside the repository: what they answer is a parameter of
    the model, and any of their calls may throw. *)

From Stdlib Require Import List String Ascii ZArith NArith Bool Lia Arith Zpower.
From Stdlib Require Import Floats.
Import ListNotations.

Local Open Scope string_scope.
Local Open Scope list_scope.
Local Open Scope Z_scope.

(* ------------------------------------------------------------------ *)
(** ** Strings *)

Module Str.

Definition code (c : ascii) : N := N_of_ascii c.

Definition in_range (lo hi : N) (c : ascii) : bool :=
  (N.leb lo (code c) && N.leb (code c) hi)%bool.

(** [\s] of ECMAScript restricted to code units below 256:
    TAB, LF, VT, FF, CR, SPACE and NBSP. *)
Definition is_white_space (c : ascii) : bool :=
  (in_range 9 13 c || N.eqb (code c) 32 || N.eqb (code c) 160)%bool.

Definition is_upper (c : ascii) : bool := in_range 65 90 c.
Definition is_lower (c : ascii) : bool := in_range 97 122 c.
Definition is_digit (c : ascii) : bool := in_range 48 57 c.

(** The class [[a-zA-Z0-9_]]. *)
Definition is_word_char (c : ascii) : bool :=
  (is_lower c || is_upper c || is_digit c || N.eqb (code c) 95)%bool.

(** The class [[1-9A-HJ-NP-Za-km-z]]. *)
Definition is_base58_char (c : ascii) : bool :=
  (in_range 49 57 c || in_range 65 72 c || in_range 74 78 c
   || in_range 80 90 c || in_range 97 107 c || in_range 109 122 c)%bool.

(** [toLowerCase] on one code unit: A-Z, and the Latin-1 capitals
    U+00C0..U+00DE without the multiplication sign U+00D7. *)
Definition lower_char (c : ascii) : ascii :=
  if (is_upper c || in_range 192 214 c || in_range 216 222 c)%bool
  then ascii_of_N (code c + 32)
  else c.

Fixpoint toLowerCase (s : string) : string :=
  match s with
  | EmptyString => EmptyString
  | String c r => String (lower_char c) (toLowerCase r)
  end.

Fixpoint trimStart (s : string) : string :=
  match s with
  | EmptyString => EmptyString
  | String c r => if is_white_space c then trimStart r else s
  end.

Fixpoint trimEnd (s : string) : string :=
  match s with
  | EmptyString => EmptyString
  | String c r =>
      match trimEnd r with
      | EmptyString => if is_white_space c then EmptyString else String c EmptyString
      | r' => String c r'
      end
  end.

Definition trim (s : string) : string := trimEnd (trimStart s).

Fixpoint all_chars (p : ascii -> bool) (s : string) : bool :=
  match s with
  | EmptyString => true
  | String c r => (p c && all_chars p r)%bool
  end.

(** [/^[cls]{lo,hi}$/.test(s)]: without the [m] flag, [^] and [$] are the
    two ends of the input. *)
Definition test_class (cls : ascii -> bool) (lo hi : nat) (s : string) : bool :=
  (Nat.leb lo (String.length s) && Nat.leb (String.length s) hi
   && all_chars cls s)%bool.

(** Truthiness of a string: the empty string is falsy. *)
Definition truthy (s : string) : bool :=
  match s with EmptyString => false | _ => true end.

End Str.

(* ------------------------------------------------------------------ *)
(** ** Numbers *)

Module Num.

(** The integer a number is, when it is one. *)
Definition SF_to_Z (x : spec_float) : option Z :=
  match x with
  | S754_zero _ => Some 0
  | S754_finite s m e =>
      if 0 <=? e then Some (cond_Zopp s (Zpos m * 2 ^ e))
      else if Zpos m mod 2 ^ (- e) =? 0
           then Some (cond_Zopp s (Zpos m / 2 ^ (- e)))
           else None
  | _ => None
  end.

Definition to_Z (x : float) : option Z := SF_to_Z (Prim2SF x).

(** The range of [Number.isSafeInteger]. *)
Definition safe (n : Z) : Prop := - 2 ^ 53 < n < 2 ^ 53.

(** A number that is neither NaN nor infinite. *)
Definition finite (x : float) : bool := negb (is_nan x || is_infinity x).

(** A number after [JSON.parse(JSON.stringify(...))]: NaN and the
    infinities are written as [null], and negative zero as [0]. *)
Definition json (x : float) : option float :=
  if finite x then Some (if (x =? 0)%float then 0%float else x) else None.

End Num.

(** Not negative, and not NaN. *)
Definition SF_nonneg (x : spec_float) : Prop :=
  match x with
  | S754_zero _ | S754_infinity false | S754_finite false _ _ => True
  | _ => False
  end.

(* ------------------------------------------------------------------ *)
(** ** The schema: [src/modals/user.modal.ts] *)

Inductive Tier : Type := free | basic.

Record CreditHistoryEntry : Type := mkEntry {
  coin : string;
  strategy : string;
  creditsUsed : float;
  timestamp : Z
}.

(** The fields of [UserSchema] that the actions read or write.  A field
    without a schema default ([email] on an upsert that does not set it,
    [username], [usernameLower]) may be absent from a document; so may
    [solanaWallet], in a document written before the field was added
    ([getSolanaWallet] reads [user.solanaWallet ?? ""]).  The remaining
    fields of the schema (bio, settings, notification preferences, roles,
    status, counters, subscription status and renewal) are written by no
    action and are left out. *)
Record User : Type := mkUser {
  _id : nat;
  clerkId : string;
  email : option string;
  username : option string;
  usernameLower : option string;
  firstName : string;
  lastName : string;
  subscriptionTier : Tier;
  customerId : string;
  credits : float;
  creditHistory : list CreditHistoryEntry;
  topCoins : list string;
  solanaWallet : option string;
  deletedAt : option Z;
  createdAt : Z;
  updatedAt : Z
}.

(** Field updates, one per path that some action sets. *)
Definition set_email (v : option string) (u : User) : User :=
  mkUser (_id u) (clerkId u) v (username u) (usernameLower u) (firstName u)
    (lastName u) (subscriptionTier u) (customerId u) (credits u)
    (creditHistory u) (topCoins u) (solanaWallet u) (deletedAt u)
    (createdAt u) (updatedAt u).

Definition set_username (v : option string) (u : User) : User :=
  mkUser (_id u) (clerkId u) (email u) v (usernameLower u) (firstName u)
    (lastName u) (subscriptionTier u) (customerId u) (credits u)
    (creditHistory u) (topCoins u) (solanaWallet u) (deletedAt u)
    (createdAt u) (updatedAt u).

Definition set_usernameLower (v : option string) (u : User) : User :=
  mkUser (_id u) (clerkId u) (email u) (username u) v (firstName u)
    (lastName u) (subscriptionTier u) (customerId u) (credits u)
    (creditHistory u) (topCoins u) (solanaWallet u) (deletedAt u)
    (createdAt u) (updatedAt u).

Definition set_firstName (v : string) (u : User) : User :=
  mkUser (_id u) (clerkId u) (email u) (username u) (usernameLower u) v
    (lastName u) (subscriptionTier u) (customerId u) (credits u)
    (creditHistory u) (topCoins u) (solanaWallet u) (deletedAt u)
    (createdAt u) (updatedAt u).

Definition set_lastName (v : string) (u : User) : User :=
  mkUser (_id u) (clerkId u) (email u) (username u) (usernameLower u)
    (firstName u) v (subscriptionTier u) (customerId u) (credits u)
    (creditHistory u) (topCoins u) (solanaWallet u) (deletedAt u)
    (createdAt u) (updatedAt u).

Definition set_subscriptionTier (v : Tier) (u : User) : User :=
  mkUser (_id u) (clerkId u) (email u) (username u) (usernameLower u)
    (firstName u) (lastName u) v (customerId u) (credits u)
    (creditHistory u) (topCoins u) (solanaWallet u) (deletedAt u)
    (createdAt u) (updatedAt u).

Definition set_customerId (v : string) (u : User) : User :=
  mkUser (_id u) (clerkId u) (email u) (username u) (usernameLower u)
    (firstName u) (lastName u) (subscriptionTier u) v (credits u)
    (creditHistory u) (topCoins u) (solanaWallet u) (deletedAt u)
    (createdAt u) (updatedAt u).

Definition set_credits (v : float) (u : User) : User :=
  mkUser (_id u) (clerkId u) (email u) (username u) (usernameLower u)
    (firstName u) (lastName u) (subscriptionTier u) (customerId u) v
    (creditHistory u) (topCoins u) (solanaWallet u) (deletedAt u)
    (createdAt u) (updatedAt u).

Definition set_creditHistory (v : list CreditHistoryEntry) (u : User) : User :=
  mkUser (_id u) (clerkId u) (email u) (username u) (usernameLower u)
    (firstName u) (lastName u) (subscriptionTier u) (customerId u) (credits u)
    v (topCoins u) (solanaWallet u) (deletedAt u)
    (createdAt u) (updatedAt u).

Definition set_topCoins (v : list string) (u : User) : User :=
  mkUser (_id u) (clerkId u) (email u) (username u) (usernameLower u)
    (firstName u) (lastName u) (subscriptionTier u) (customerId u) (credits u)
    (creditHistory u) v (solanaWallet u) (deletedAt u)
    (createdAt u) (updatedAt u).

Definition set_solanaWallet (v : option string) (u : User) : User :=
  mkUser (_id u) (clerkId u) (email u) (username u) (usernameLower u)
    (firstName u) (lastName u) (subscriptionTier u) (customerId u) (credits u)
    (creditHistory u) (topCoins u) v (deletedAt u)
    (createdAt u) (updatedAt u).

Definition set_deletedAt (v : option Z) (u : User) : User :=
  mkUser (_id u) (clerkId u) (email u) (username u) (usernameLower u)
    (firstName u) (lastName u) (subscriptionTier u) (customerId u) (credits u)
    (creditHistory u) (topCoins u) (solanaWallet u) v
    (createdAt u) (updatedAt u).

Definition set_updatedAt (v : Z) (u : User) : User :=
  mkUser (_id u) (clerkId u) (email u) (username u) (usernameLower u)
    (firstName u) (lastName u) (subscriptionTier u) (customerId u) (credits u)
    (creditHistory u) (topCoins u) (solanaWallet u) (deletedAt u)
    (createdAt u) v.

(** The document an upsert starts from: the equality field of the filter,
    the schema defaults ([credits] 10, [solanaWallet] the empty string, ...)
    and the two timestamps of [{ timestamps: true }]. *)
Definition schemaDefaults (id : nat) (now : Z) (cid : string) : User :=
  {| _id := id; clerkId := cid; email := None;
     username := None; usernameLower := None;
     firstName := ""; lastName := "";
     subscriptionTier := free; customerId := "";
     credits := 10%float; creditHistory := []; topCoins := [];
     solanaWallet := Some ""; deletedAt := None;
     createdAt := now; updatedAt := now |}.

(** *** Unique indexes

    Field-level declarations of the schema, in path order, then the wallet
    index: [clerkId] and [email] unique; [username], [usernameLower] and
    [solanaWallet] unique and sparse. *)
Inductive Index : Type :=
  IdxClerkId | IdxEmail | IdxUsername | IdxUsernameLower | IdxSolanaWallet.

Definition all_indexes : list Index :=
  [IdxClerkId; IdxEmail; IdxUsername; IdxUsernameLower; IdxSolanaWallet].

Inductive Key : Type := KNull | KStr (s : string).

Definition key_eqb (a b : Key) : bool :=
  match a, b with
  | KNull, KNull => true
  | KStr x, KStr y => String.eqb x y
  | _, _ => false
  end.

(** The entry of a document in an index, if it has one.  A plain index
    files a document that lacks the field under null.  A sparse index, in
    the words of the MongoDB manual, "only contains entries for documents
    that have the indexed field, even if the index field contains a null
    value": it has an entry for every document that HAS the field, whatever
    the value -- the empty string, the schema default of [solanaWallet], is
    a value like any other -- and none for a document that lacks it. *)
Definition index_key (i : Index) (u : User) : option Key :=
  match i with
  | IdxClerkId => Some (KStr (clerkId u))
  | IdxEmail => Some (match email u with Some e => KStr e | None => KNull end)
  | IdxUsername => option_map KStr (username u)
  | IdxUsernameLower => option_map KStr (usernameLower u)
  | IdxSolanaWallet => option_map KStr (solanaWallet u)
  end.

Definition okey_eqb (a b : option Key) : bool :=
  match a, b with
  | Some x, Some y => key_eqb x y
  | None, None => true
  | _, _ => false
  end.

Definition Store : Type := list User.

(** Some document of the collection has the entry [k] in index [i]. *)
Definition holds_key (i : Index) (k : Key) (s : Store) : bool :=
  existsb (fun d => match index_key i d with
                    | Some k' => key_eqb k' k
                    | None => false
                    end) s.

(** Inserting [d]: the first index in which its entry is already there. *)
Definition dup_on_insert (s : Store) (d : User) : option Index :=
  find (fun i => match index_key i d with
                 | Some k => holds_key i k s
                 | None => false
                 end) all_indexes.

(** Replacing [old] by [new]: only an entry that changes is added to its
    index, so only a changed entry can be refused. *)
Definition dup_on_update (s : Store) (old new : User) : option Index :=
  find (fun i => match index_key i new with
                 | Some k => (negb (okey_eqb (index_key i old) (Some k))
                              && holds_key i k s)%bool
                 | None => false
                 end) all_indexes.

(* ------------------------------------------------------------------ *)
(** ** Errors and the action monad *)

(** What an action throws: [new Error(message)], the driver's
    duplicate-key error ([code] 11000) with its [keyPattern], or Mongoose's
    [CastError] with the path whose value did not cast. *)
Inductive Error : Type :=
| Err (message : string)
| MongoDup (keyPattern : Index)
| CastError (path : string).

Inductive Result (A : Type) : Type :=
| Ok (a : A)
| Throw (e : Error).

Arguments Ok {A} a.
Arguments Throw {A} e.

Definition M (St A : Type) : Type := St -> Result A * St.

Definition ret {St A} (a : A) : M St A := fun s => (Ok a, s).
Definition throw {St A} (e : Error) : M St A := fun s => (Throw e, s).
Definition bind {St A B} (m : M St A) (k : A -> M St B) : M St B :=
  fun s => match m s with
           | (Ok a, s') => k a s'
           | (Throw e, s') => (Throw e, s')
           end.
Definition try_catch {St A} (m : M St A) (h : Error -> M St A) : M St A :=
  fun s => match m s with
           | (Ok a, s') => (Ok a, s')
           | (Throw e, s') => h e s'
           end.

Notation "x <- m ;; k" := (bind m (fun x => k))
  (at level 61, m at next level, right associativity).

(* ------------------------------------------------------------------ *)
(** ** The model's query layer *)

(** The two filters the actions use: [{ clerkId }] and
    [{ clerkId, credits: { $gte: amount } }]. *)
Record Query : Type := mkQuery {
  q_clerkId : string;
  q_creditsGte : option float
}.

Definition by_clerkId (cid : string) : Query := mkQuery cid None.

Definition matches (q : Query) (u : User) : bool :=
  (String.eqb (clerkId u) (q_clerkId q)
   && match q_creditsGte q with
      | Some a => (a <=? credits u)%float
      | None => true
      end)%bool.

Definition findOne (q : Query) : M Store (option User) :=
  fun s => (Ok (find (matches q) s), s).

(** Replace the first document that satisfies [f] by [d']. *)
Fixpoint replace_first (f : User -> bool) (d' : User) (s : Store) : Store :=
  match s with
  | [] => []
  | d :: r => if f d then d' :: r else d :: replace_first f d' r
  end.

(** The write half of an update: stamp [updatedAt] (the schema has
    [{ timestamps: true }]), let the indexes accept or refuse the changed
    entries, and replace the document.  A refused write throws the
    duplicate-key error and writes nothing. *)
Definition write_update (now : Z) (q : Query) (upd : User -> User)
    (old : User) : M Store User :=
  fun s =>
    let new := set_updatedAt now (upd old) in
    match dup_on_update s old new with
    | Some i => (Throw (MongoDup i), s)
    | None => (Ok new, replace_first (matches q) new s)
    end.

(** The insert half of an upsert: the seed document gets the next [_id]. *)
Definition write_insert (now : Z) (q : Query) (ins : User -> User)
    : M Store User :=
  fun s =>
    let d := ins (schemaDefaults (List.length s) now (q_clerkId q)) in
    match dup_on_insert s d with
    | Some i => (Throw (MongoDup i), s)
    | None => (Ok d, (s ++ [d]))
    end.

(** [User.findOneAndUpdate(filter, update, { new: true })]: the updated
    document, or [null] when no document satisfies the filter. *)
Definition findOneAndUpdate (now : Z) (q : Query) (upd : User -> User)
    : M Store (option User) :=
  fun s =>
    match find (matches q) s with
    | Some old =>
        match write_update now q upd old s with
        | (Ok new, s') => (Ok (Some new), s')
        | (Throw e, s') => (Throw e, s')
        end
    | None => (Ok None, s)
    end.

(** [User.findOneAndUpdate(filter, update, { upsert: true, new: true })]:
    [upd] is what the update does to a matched document, [ins] what it
    makes of the seed document when none matches. *)
Definition findOneAndUpsert (now : Z) (q : Query) (upd ins : User -> User)
    : M Store User :=
  fun s =>
    match find (matches q) s with
    | Some old => write_update now q upd old s
    | None => write_insert now q ins s
    end.

(** [User.exists({ usernameLower: lower })]. *)
Definition exists_usernameLower (lower : string) : M Store bool :=
  fun s => (Ok (holds_key IdxUsernameLower (KStr lower) s), s).

(* ------------------------------------------------------------------ *)
(** ** The actions: [src/actions/user.actions.ts]

    [await connect()] opens the connection and touches no document; it is
    not modelled.  [toDTO] is a JSON round trip of the document: a DTO is
    represented by the document it is made from, and whoever reads a number
    of a DTO reads it through [Num.json]. *)

Record CreateUserInput : Type := mkInput {
  in_clerkId : string;
  in_email : string;
  in_firstName : option string;
  in_lastName : option string;
  in_subscriptionTier : option Tier;
  in_customerId : option string;
  in_credits : option float;
  in_username : option string
}.

(** [x ?? d]. *)
Definition nullish {A} (x : option A) (d : A) : A :=
  match x with Some v => v | None => d end.

(** The [$set] document of [createUser]. *)
Definition createUser_set (user : CreateUserInput) (u : User) : User :=
  let normalizedEmail := Str.trim (Str.toLowerCase (in_email user)) in
  let u1 :=
    set_lastName (nullish (in_lastName user) "")
      (set_firstName (nullish (in_firstName user) "")
         (set_email (Some normalizedEmail) u)) in
  match in_username user with
  | Some n =>
      if (Str.truthy n && Str.truthy (Str.trim n))%bool
      then set_usernameLower (Some (Str.toLowerCase (Str.trim n)))
             (set_username (Some (Str.trim n)) u1)
      else u1
  | None => u1
  end.

(** The [$setOnInsert] document of [createUser]; an undefined [credits]
    leaves the schema default in place. *)
Definition createUser_setOnInsert (user : CreateUserInput) (u : User) : User :=
  set_topCoins []
    (match in_credits user with
     | Some c => set_credits c
     | None => fun d => d
     end
       (set_customerId (nullish (in_customerId user) "")
          (set_subscriptionTier (nullish (in_subscriptionTier user) free) u))).

(** A number that Mongoose refuses to cast. *)
Definition uncastable (x : option float) : bool :=
  match x with
  | Some v => is_nan v
  | None => false
  end.

Definition createUser (now : Z) (user : CreateUserInput) : M Store User :=
  if uncastable (in_credits user) then throw (CastError "credits")
  else
    findOneAndUpsert now (by_clerkId (in_clerkId user))
      (createUser_set user)
      (fun d => createUser_setOnInsert user (createUser_set user d)).

Definition getUser (userId : string) : M Store (option User) :=
  findOne (by_clerkId userId).

Definition or_throw {A} (msg : string) (x : option A) : M Store A :=
  match x with
  | Some a => ret a
  | None => throw (Err msg)
  end.

(** [$inc: { credits: -amount }] and
    [$push: { creditHistory: { $each: [entry], $position: 0, $slice: 50 } }]. *)
Definition debit_update (entry : CreditHistoryEntry) (u : User) : User :=
  set_creditHistory (firstn 50 (entry :: creditHistory u))
    (set_credits (credits u + - creditsUsed entry)%float u).

(** The guard [amount <= 0] is false for NaN, which is then refused by the
    cast of the filter. *)
Definition consumeBacktestCredits (now : Z) (userId : string) (amount : float)
    (opts_coin opts_strategy : string) : M Store User :=
  if (amount <=? 0)%float then throw (Err "Amount must be > 0")
  else
    let entry := mkEntry opts_coin opts_strategy amount now in
    if uncastable (Some amount) then throw (CastError "credits")
    else
      updated <- findOneAndUpdate now (mkQuery userId (Some amount))
                   (debit_update entry) ;;
      or_throw "User not found or not enough credits" updated.

Definition addCredits (now : Z) (userId : string) (amount : float)
    : M Store User :=
  if (amount <=? 0)%float then throw (Err "Amount must be > 0")
  else if uncastable (Some amount) then throw (CastError "credits")
  else
    updated <- findOneAndUpdate now (by_clerkId userId)
                 (fun u => set_credits (credits u + amount)%float u) ;;
    or_throw "User not found" updated.

(** [requiredCredits = 1] when the caller passes none. *)
Definition hasEnoughCredits (userId : string) (requiredCredits : option float)
    : M Store bool :=
  user <- findOne (by_clerkId userId) ;;
  u <- or_throw "User not found" user ;;
  ret (nullish requiredCredits 1 <=? credits u)%float.

Definition getUserTopCoins (userId : string) : M Store (list string) :=
  user <- findOne (by_clerkId userId) ;;
  ret (match user with Some u => topCoins u | None => [] end).

Definition updateUserTopCoins (now : Z) (userId : string)
    (coins : list string) : M Store (list string) :=
  if Nat.ltb 3 (List.length coins)
  then throw (Err "Only 3 coins can be selected")
  else
    user <- findOneAndUpdate now (by_clerkId userId) (set_topCoins coins) ;;
    u <- or_throw "User not found" user ;;
    ret (topCoins u).

(** *** Username helpers *)

(** [USERNAME_RE = /^[a-zA-Z0-9_]{3,20}$/]. *)
Definition USERNAME_RE (s : string) : bool :=
  Str.test_class Str.is_word_char 3 20 s.

Definition RESERVED : list string :=
  ["admin"; "root"; "support"; "help"; "contact"; "about"; "api"; "app";
   "login"; "signup"; "settings"; "profile"; "user"; "users"; "me";
   "dashboard"; "feed"; "explore"; "news"].

Definition RESERVED_has (s : string) : bool :=
  existsb (String.eqb s) RESERVED.

Definition msg_format : string :=
  "Username must be 3–20 chars (letters, numbers, underscore).".
Definition msg_reserved : string := "That username is reserved.".
Definition msg_taken : string := "That username is taken.".

Record Availability : Type := mkAvail {
  ok : bool;
  reason : option string
}.

Definition isUsernameAvailable (desiredRaw : string) : M Store Availability :=
  let desired := Str.trim desiredRaw in
  if negb (USERNAME_RE desired) then ret (mkAvail false (Some msg_format))
  else
    let lower := Str.toLowerCase desired in
    if RESERVED_has lower then ret (mkAvail false (Some msg_reserved))
    else
      taken <- exists_usernameLower lower ;;
      if taken : bool then ret (mkAvail false (Some msg_taken))
      else ret (mkAvail true None).

(** [e?.code === 11000 && (e.keyPattern?.usernameLower || e.keyPattern?.username)]. *)
Definition is_username_dup (e : Error) : bool :=
  match e with
  | MongoDup IdxUsernameLower | MongoDup IdxUsername => true
  | _ => false
  end.

Definition setUsername (now : Z) (cid : string) (desiredRaw : string)
    : M Store User :=
  let desired := Str.trim desiredRaw in
  if negb (USERNAME_RE desired) then throw (Err msg_format)
  else
    let lower := Str.toLowerCase desired in
    if RESERVED_has lower then throw (Err msg_reserved)
    else
      try_catch
        (updated <- findOneAndUpdate now (by_clerkId cid)
                      (fun u => set_usernameLower (Some lower)
                                  (set_username (Some desired) u)) ;;
         or_throw "User not found" updated)
        (fun e => if is_username_dup e then throw (Err msg_taken)
                  else throw e).

(** *** Solana wallet helpers *)

(** [SOLANA_BASE58_RE = /^[1-9A-HJ-NP-Za-km-z]{43,44}$/]. *)
Definition SOLANA_BASE58_RE (s : string) : bool :=
  Str.test_class Str.is_base58_char 43 44 s.

Definition isValidSolAddress (addr : string) : bool := SOLANA_BASE58_RE addr.

Definition msg_wallet_format : string := "Invalid Solana address format.".
Definition msg_wallet_taken : string :=
  "That wallet is already connected by another user.".

Definition getSolanaWallet (cid : string) : M Store string :=
  user <- findOne (by_clerkId cid) ;;
  u <- or_throw "User not found" user ;;
  ret (nullish (solanaWallet u) "").

Definition is_wallet_dup (e : Error) : bool :=
  match e with
  | MongoDup IdxSolanaWallet => true
  | _ => false
  end.

Definition setSolanaWallet (now : Z) (cid : string) (addressRaw : string)
    : M Store User :=
  let address := Str.trim addressRaw in
  if negb (isValidSolAddress address) then throw (Err msg_wallet_format)
  else
    try_catch
      (updated <- findOneAndUpdate now (by_clerkId cid)
                    (set_solanaWallet (Some address)) ;;
       or_throw "User not found" updated)
      (fun e => if is_wallet_dup e then throw (Err msg_wallet_taken)
                else throw e).

Definition clearSolanaWallet (now : Z) (cid : string) : M Store User :=
  updated <- findOneAndUpdate now (by_clerkId cid)
               (set_solanaWallet (Some "")) ;;
  or_throw "User not found" updated.

(* ------------------------------------------------------------------ *)
(** ** Observing one account *)

(** The document of an account, as [getUser] returns it. *)
Definition account (cid : string) (s : Store) : option User :=
  find (matches (by_clerkId cid)) s.

Definition balance (cid : string) (s : Store) : option float :=
  option_map credits (account cid s).

Definition history (cid : string) (s : Store)
    : option (list CreditHistoryEntry) :=
  option_map creditHistory (account cid s).

(** The [clerkId] index at work: no two documents share a [clerkId]. *)
Definition unique_clerkIds (s : Store) : Prop := NoDup (map clerkId s).

(** One call of [consumeBacktestCredits], and a sequence of them against
    one account. *)
Record Debit : Type := mkDebit {
  d_now : Z;
  d_amount : float;
  d_coin : string;
  d_strategy : string
}.

Definition debit (cid : string) (d : Debit) : M Store User :=
  consumeBacktestCredits (d_now d) cid (d_amount d) (d_coin d) (d_strategy d).

Definition entry_of (d : Debit) : CreditHistoryEntry :=
  mkEntry (d_coin d) (d_strategy d) (d_amount d) (d_now d).

Definition succeeded {A} (r : Result A) : bool :=
  match r with Ok _ => true | Throw _ => false end.

(** The store after each debit of the sequence, in order. *)
Fixpoint debit_states (cid : string) (ds : list Debit) (s : Store)
    : list Store :=
  match ds with
  | [] => []
  | d :: r => let s' := snd (debit cid d s) in s' :: debit_states cid r s'
  end.

Definition run_debits (cid : string) (ds : list Debit) (s : Store) : Store :=
  fold_left (fun st d => snd (debit cid d st)) ds s.

(** The debits of the sequence that reported success, in order. *)
Fixpoint successful (cid : string) (ds : list Debit) (s : Store)
    : list Debit :=
  match ds with
  | [] => []
  | d :: r =>
      let '(res, s') := debit cid d s in
      if succeeded res then d :: successful cid r s' else successful cid r s'
  end.

(** A balance with the amounts of [ds] taken off one after the other, as
    the store does it. *)
Definition subtract_all (b : float) (ds : list Debit) : float :=
  fold_left (fun acc d => (acc - d_amount d)%float) ds b.

(** The sum of the amounts, for amounts that are integers. *)
Definition sum_amounts (ds : list Debit) : Z :=
  fold_right (fun d acc => nullish (Num.to_Z (d_amount d)) 0 + acc) 0 ds.

(** An amount that is a safe integer. *)
Definition integer_amount (d : Debit) : Prop :=
  exists a, Num.to_Z (d_amount d) = Some a /\ Num.safe a.

(* ------------------------------------------------------------------ *)
(** ** The identity webhook: [src/app/api/webhooks/clerk/route.ts] *)

Record ClerkEmailAddress : Type := mkEmailAddress {
  ea_id : string;
  email_address : string
}.

Record ClerkEventData : Type := mkEventData {
  ev_id : option string;
  email_addresses : option (list ClerkEmailAddress);
  primary_email_address_id : option string;
  first_name : option string;
  last_name : option string;
  ev_username : option string
}.

Inductive EventType : Type :=
  user_created | user_updated | user_deleted | other_event.

Record WebhookEvent : Type := mkEvent {
  ev_type : EventType;
  ev_data : ClerkEventData
}.

(** [a || b] on possibly-missing strings: the first truthy one. *)
Definition or_else (a b : option string) : option string :=
  match a with
  | Some x => if Str.truthy x then Some x else b
  | None => b
  end.

Definition getPrimaryEmailFromEvent (data : ClerkEventData) : option string :=
  let list := nullish (email_addresses data) [] in
  let by_primary :=
    match primary_email_address_id data with
    | Some primaryId =>
        if Str.truthy primaryId
        then option_map email_address
               (find (fun e => String.eqb (ea_id e) primaryId) list)
        else None
    | None => None
    end in
  or_else by_primary
    (or_else (option_map email_address (hd_error list)) None).

Inductive Body : Type :=
| Text (s : string)
| JsonError (error : string)
| JsonUser (message : string) (user : User).

Record Response : Type := mkResponse {
  status : nat;
  body : Body
}.

(** The payload both upserts share. *)
Definition basePayload (cid em : string) (data : ClerkEventData)
    : CreateUserInput :=
  {| in_clerkId := cid;
     in_email := em;
     in_firstName := Some (nullish (or_else (first_name data) None) "");
     in_lastName := Some (nullish (or_else (last_name data) None) "");
     in_subscriptionTier := Some free;
     in_customerId := Some "";
     in_credits := None;
     in_username := None |}.

Definition with_username (un : option string) (p : CreateUserInput)
    : CreateUserInput :=
  {| in_clerkId := in_clerkId p;
     in_email := in_email p;
     in_firstName := in_firstName p;
     in_lastName := in_lastName p;
     in_subscriptionTier := in_subscriptionTier p;
     in_customerId := in_customerId p;
     in_credits := in_credits p;
     in_username := un |}.

(** The upsert of a [user.created] / [user.updated] event: with the
    username first and, when a username index refuses it, again without. *)
Definition upsertFromEvent (now : Z) (cid em : string)
    (data : ClerkEventData) : M Store User :=
  let maybeUsername :=
    or_else (option_map Str.trim (ev_username data)) None in
  try_catch
    (createUser now (with_username maybeUsername (basePayload cid em data)))
    (fun e => if is_username_dup e
              then createUser now (basePayload cid em data)
              else throw e).

(** The handler on a verified event.  The call that writes the document id
    back to the identity provider is wrapped in a [try] that only logs; it
    changes neither the collection nor the response. *)
Definition handleEvent (now : Z) (evt : WebhookEvent) : M Store Response :=
  let data := ev_data evt in
  let falsy_id := negb (Str.truthy (nullish (ev_id data) "")) in
  match ev_type evt with
  | user_created | user_updated =>
      if falsy_id then ret (mkResponse 400 (JsonError "Missing Clerk user id"))
      else
        match getPrimaryEmailFromEvent data with
        | None => ret (mkResponse 400 (JsonError "No primary email"))
        | Some em =>
            mongoUser <- upsertFromEvent now (nullish (ev_id data) "") em data ;;
            ret (mkResponse 200
                   (JsonUser (match ev_type evt with
                              | user_created => "User created"
                              | _ => "User updated"
                              end) mongoUser))
        end
  | user_deleted =>
      if falsy_id then ret (mkResponse 200 (Text ""))
      else
        _ <- try_catch
               (findOneAndUpdate now (by_clerkId (nullish (ev_id data) ""))
                  (set_deletedAt (Some now)))
               (fun _ => ret None) ;;
        ret (mkResponse 200 (Text ""))
  | other_event => ret (mkResponse 200 (Text ""))
  end.

Record Request : Type := mkRequest {
  svix_id : option string;
  svix_timestamp : option string;
  svix_signature : option string;
  req_body : string
}.

Section Webhook.

(** The [svix] library.  [new Webhook(secret)] builds a verifier from
    the secret, or throws when the secret does not decode; [wh.verify(body,
    headers)] returns the event a request carries when its signature
    verifies, and throws otherwise. *)
Variable Verifier : Type.
Variable Webhook : string -> option Verifier.
Variable verify : Verifier -> Request -> option WebhookEvent.

Definition header_missing (h : option string) : bool :=
  negb (Str.truthy (nullish h "")).

(** The constructor is called inside the outer [try] and outside the inner
    one: what it throws is answered with 500.  Reading the headers and the
    body of the request is taken to succeed. *)
Definition POST (WEBHOOK_SECRET : option string) (now : Z) (req : Request)
    : M Store Response :=
  match or_else WEBHOOK_SECRET None with
  | None => throw (Err "Please add WEBHOOK_SECRET to .env.local")
  | Some secret =>
      try_catch
        (if (header_missing (svix_id req)
             || header_missing (svix_timestamp req)
             || header_missing (svix_signature req))%bool
         then ret (mkResponse 400 (Text "Error: Missing Svix headers"))
         else
           match Webhook secret with
           | None => throw (Err "Invalid secret")
           | Some wh =>
               match verify wh req with
               | None => ret (mkResponse 400 (Text "Invalid webhook signature"))
               | Some evt => handleEvent now evt
               end
           end)
        (fun _ => ret (mkResponse 500 (Text "Internal server error")))
  end.

End Webhook.

(* ------------------------------------------------------------------ *)
(** ** The checkout flow: [src/actions/stripe.actions.ts] *)

Record Customer : Type := mkCustomer {
  cus_id : string;
  cus_email : string
}.

Record Session : Type := mkSession {
  ses_customer : string;
  ses_price : string;
  ses_meta_userId : string;
  ses_meta_customerId : string;
  ses_url : option string
}.

(** The billing provider as the flow sees it: its customers, the price ids
    it knows, and the checkout sessions it has opened. *)
Record Stripe : Type := mkStripe {
  customers : list Customer;
  prices : list string;
  sessions : list Session
}.

(** The effects of the flow, in the order they happen. *)
Inductive Event : Type :=
| CustomersList (email : string)
| CustomersCreate (email id : string)
| AccountWrite (userId customerId : string)
| PricesRetrieve (priceId : string)
| SessionsCreate (customer priceId : string).

Record World : Type := mkWorld {
  db : Store;
  stripe : Stripe;
  trace : list Event
}.

Definition log (e : Event) : M World unit :=
  fun w => (Ok tt, mkWorld (db w) (stripe w) (trace w ++ [e])).

(** Run a store action on the collection of the world. *)
Definition on_db {A} (m : M Store A) : M World A :=
  fun w => match m (db w) with
           | (r, s') => (r, mkWorld s' (stripe w) (trace w))
           end.

(** [error.message]; the messages of the driver and of Mongoose are cut
    to their first words. *)
Definition message_of (e : Error) : string :=
  match e with
  | Err m => m
  | MongoDup _ => "E11000 duplicate key error"
  | CastError _ => "Cast to Number failed"
  end.

(** The requests the flow sends to the provider. *)
Inductive Call : Type :=
| ListCustomers (email : string)
| CreateCustomer (email : string)
| RetrievePrice (priceId : string)
| CreateSession (customer priceId userId : string).

Section Billing.

(** What the provider chooses: the id of the n-th customer it creates,
    the redirect URL of the n-th session it opens, and whether it rejects
    a request, with what message, given the events so far (an outage, a
    rate limit, a declined request). *)
Variable customer_id : nat -> string.
Variable checkout_url : nat -> option string.
Variable rejects : Call -> list Event -> option string.

(** Send a request: the promise rejects when the provider does. *)
Definition request (c : Call) : M World unit :=
  fun w => match rejects c (trace w) with
           | Some m => (Throw (Err m), w)
           | None => (Ok tt, w)
           end.

(** [stripe.customers.list({ email, limit: 1 })]. *)
Definition customers_list (em : string) : M World (list Customer) :=
  _ <- log (CustomersList em) ;;
  _ <- request (ListCustomers em) ;;
  fun w => (Ok (firstn 1 (filter (fun c => String.eqb (cus_email c) em)
                            (customers (stripe w)))), w).

(** [stripe.customers.create({ email })]. *)
Definition customers_create (em : string) : M World Customer :=
  _ <- request (CreateCustomer em) ;;
  fun w =>
    let c := mkCustomer (customer_id (List.length (customers (stripe w)))) em in
    (Ok c,
     mkWorld (db w)
       (mkStripe (customers (stripe w) ++ [c]) (prices (stripe w))
          (sessions (stripe w)))
       (trace w ++ [CustomersCreate em (cus_id c)])).

(** [stripe.prices.retrieve(priceId)]: rejects for an id the provider
    does not know, and whenever the provider rejects the request. *)
Definition prices_retrieve (priceId : string) : M World unit :=
  _ <- log (PricesRetrieve priceId) ;;
  _ <- request (RetrievePrice priceId) ;;
  fun w => if existsb (String.eqb priceId) (prices (stripe w))
           then (Ok tt, w)
           else (Throw (Err ("No such price: " ++ priceId)%string), w).

(** [stripe.checkout.sessions.create({ customer, line_items, metadata, ... })]. *)
Definition sessions_create (customer priceId userId : string)
    : M World Session :=
  _ <- request (CreateSession customer priceId userId) ;;
  fun w =>
    let ses := mkSession customer priceId userId customer
                 (checkout_url (List.length (sessions (stripe w)))) in
    (Ok ses,
     mkWorld (db w)
       (mkStripe (customers (stripe w)) (prices (stripe w))
          (sessions (stripe w) ++ [ses]))
       (trace w ++ [SessionsCreate customer priceId])).

(** [User.findOneAndUpdate({ clerkId: userId }, { customerId },
    { new: true, upsert: true })]. *)
Definition customer_write (now : Z) (userId cid : string) : M Store User :=
  findOneAndUpsert now (by_clerkId userId)
    (set_customerId cid) (set_customerId cid).

(** The write within the flow; the event is logged once the write has
    returned. *)
Definition store_customerId (now : Z) (userId cid : string)
    : M World User :=
  u <- on_db (customer_write now userId cid) ;;
  _ <- log (AccountWrite userId cid) ;;
  ret u.

(** The error the outer [catch] rethrows. *)
Definition wrap (error : Error) : Error :=
  Err ("Failed to create subscription: "
       ++ nullish (or_else (Some (message_of error)) None)
            "Unknown error")%string.

Definition subscribe (now : Z) (userId em priceId : string)
    : M World (option string) :=
  if (negb (Str.truthy userId) || negb (Str.truthy em)
      || negb (Str.truthy priceId))%bool
  then throw (Err "Missing required params")
  else
    try_catch
      (existingCustomer <- customers_list em ;;
       cid <- match existingCustomer with
              | c :: _ =>
                  if Str.truthy (cus_id c) then ret (cus_id c)
                  else c' <- customers_create em ;; ret (cus_id c')
              | [] => c' <- customers_create em ;; ret (cus_id c')
              end ;;
       _ <- store_customerId now userId cid ;;
       _ <- try_catch (prices_retrieve priceId)
              (fun _ => throw (Err ("Invalid price ID: " ++ priceId)%string)) ;;
       ses <- sessions_create cid priceId userId ;;
       ret (ses_url ses))
      (fun error => throw (wrap error)).

(** *** The flow, read off step by step

    The customer the account is tied to: the first one the provider
    lists for the email, or else the one it creates. *)
Definition listed_customer (em : string) (st : Stripe) : option string :=
  match filter (fun c => String.eqb (cus_email c) em) (customers st) with
  | c :: _ => if Str.truthy (cus_id c) then Some (cus_id c) else None
  | [] => None
  end.

Definition billing_customer (em : string) (st : Stripe) : string :=
  match listed_customer em st with
  | Some id => id
  | None => customer_id (List.length (customers st))
  end.

(** The provider and the events once the customer is known. *)
Definition lookup_events (em : string) (st : Stripe) : list Event :=
  match listed_customer em st with
  | Some _ => [CustomersList em]
  | None => [CustomersList em; CustomersCreate em (billing_customer em st)]
  end.

Definition stripe_after_lookup (em : string) (st : Stripe) : Stripe :=
  match listed_customer em st with
  | Some _ => st
  | None =>
      mkStripe (customers st ++ [mkCustomer (billing_customer em st) em])
        (prices st) (sessions st)
  end.

Definition price_known (priceId : string) (st : Stripe) : bool :=
  existsb (String.eqb priceId) (prices st).

(** The session the flow opens. *)
Definition opened_session (userId em priceId : string) (st : Stripe)
    : Session :=
  mkSession (billing_customer em st) priceId userId (billing_customer em st)
    (checkout_url (List.length (sessions st))).

(** The trace once the provider has been asked for the customers. *)
Definition asked (em : string) (w : World) : list Event :=
  trace w ++ [CustomersList em].

(** The message with which the provider rejects the customer lookup, if
    it does: the listing, or the creation when no customer is listed. *)
Definition lookup_rejected (em : string) (w : World) : option string :=
  match rejects (ListCustomers em) (asked em w) with
  | Some m => Some m
  | None =>
      match listed_customer em (stripe w) with
      | Some _ => None
      | None => rejects (CreateCustomer em) (asked em w)
      end
  end.

(** The trace once the customer is known, and once the account is
    written and the price is asked for. *)
Definition looked_up (em : string) (w : World) : list Event :=
  trace w ++ lookup_events em (stripe w).

Definition price_asked (userId em priceId : string) (w : World)
    : list Event :=
  looked_up em w
  ++ [AccountWrite userId (billing_customer em (stripe w));
      PricesRetrieve priceId].

(** The price check passes: the provider answers and knows the id. *)
Definition price_accepted (userId em priceId : string) (w : World) : bool :=
  match rejects (RetrievePrice priceId) (price_asked userId em priceId w) with
  | Some _ => false
  | None => price_known priceId (stripe w)
  end.

(** The message with which the provider rejects the session, if it does. *)
Definition session_rejected (userId em priceId : string) (w : World)
    : option string :=
  rejects (CreateSession (billing_customer em (stripe w)) priceId userId)
    (price_asked userId em priceId w).

End Billing.

(* ------------------------------------------------------------------ *)
(** ** Reachable states *)

(** The operations that write to the collection: the seven exported
    actions, the webhook handler and the write of the checkout flow. *)
Inductive Op : Type :=
| OpCreateUser (now : Z) (user : CreateUserInput)
| OpAddCredits (now : Z) (userId : string) (amount : float)
| OpConsumeBacktestCredits (now : Z) (userId : string) (amount : float)
    (opts_coin opts_strategy : string)
| OpSetUsername (now : Z) (cid desiredRaw : string)
| OpSetSolanaWallet (now : Z) (cid addressRaw : string)
| OpClearSolanaWallet (now : Z) (cid : string)
| OpUpdateUserTopCoins (now : Z) (userId : string) (coins : list string)
| OpHandleEvent (now : Z) (evt : WebhookEvent)
| OpStoreCustomerId (now : Z) (userId customerId : string).

Definition apply_op (o : Op) (s : Store) : Store :=
  match o with
  | OpCreateUser now user => snd (createUser now user s)
  | OpAddCredits now userId amount => snd (addCredits now userId amount s)
  | OpConsumeBacktestCredits now userId amount c st =>
      snd (consumeBacktestCredits now userId amount c st s)
  | OpSetUsername now cid raw => snd (setUsername now cid raw s)
  | OpSetSolanaWallet now cid raw => snd (setSolanaWallet now cid raw s)
  | OpClearSolanaWallet now cid => snd (clearSolanaWallet now cid s)
  | OpUpdateUserTopCoins now userId coins =>
      snd (updateUserTopCoins now userId coins s)
  | OpHandleEvent now evt => snd (handleEvent now evt s)
  | OpStoreCustomerId now userId c =>
      snd (findOneAndUpsert now (by_clerkId userId)
             (set_customerId c) (set_customerId c) s)
  end.

(** The states reached from the empty collection by operations that
    satisfy [allowed]. *)
Inductive reachable_by (allowed : Op -> Prop) : Store -> Prop :=
| reach_empty : reachable_by allowed []
| reach_step (o : Op) (s : Store) :
    reachable_by allowed s -> allowed o ->
    reachable_by allowed (apply_op o s).

Definition reachable : Store -> Prop := reachable_by (fun _ => True).

(** A [createUser] call whose explicit [credits], if any, is not
    negative, and a [consumeBacktestCredits] call whose amount is not
    infinite. *)
Definition credits_input_ok (o : Op) : Prop :=
  match o with
  | OpCreateUser _ user =>
      match in_credits user with
      | Some c => (0 <=? c)%float = true
      | None => True
      end
  | OpConsumeBacktestCredits _ _ amount _ _ => is_infinity amount = false
  | _ => True
  end.

(* ------------------------------------------------------------------ *)
(** ** Well-formed collections *)

Definition entry_list (i : Index) (d : User) : list Key :=
  match index_key i d with Some k => [k] | None => [] end.

(** The entries of an index, in document order. *)
Definition keys (i : Index) (s : Store) : list Key :=
  flat_map (entry_list i) s.

(** Every unique index holds each entry once. *)
Definition indexes_ok (s : Store) : Prop := forall i, NoDup (keys i s).

(** Every writer of [username] writes its lower-cased shadow with it. *)
Definition names_ok (u : User) : Prop :=
  usernameLower u = option_map Str.toLowerCase (username u).

Definition wf (s : Store) : Prop :=
  unique_clerkIds s /\ indexes_ok s /\ Forall names_ok s.

(* ------------------------------------------------------------------ *)
(** ** Vocabulary of the proofs *)

(** An action keeps the invariant [I], whether it returns or throws. *)
Definition preserves (I : Store -> Prop) {A : Type} (m : M Store A) : Prop :=
  forall s, I s -> I (snd (m s)).

(** What the two writes must respect for [I] to be kept: an accepted
    update, and an accepted insert. *)
Definition update_keeps (I : Store -> Prop) (now : Z) (q : Query)
    (upd : User -> User) : Prop :=
  forall s old, I s -> find (matches q) s = Some old ->
    dup_on_update s old (set_updatedAt now (upd old)) = None ->
    I (replace_first (matches q) (set_updatedAt now (upd old)) s).

Definition insert_keeps (I : Store -> Prop) (now : Z) (q : Query)
    (ins : User -> User) : Prop :=
  forall s, I s -> find (matches q) s = None ->
    dup_on_insert s (ins (schemaDefaults (List.length s) now (q_clerkId q)))
    = None ->
    I (s ++ [ins (schemaDefaults (List.length s) now (q_clerkId q))]).

Definition credits_ok (u : User) : Prop := (0 <=? credits u)%float = true.

Definition history_ok (u : User) : Prop :=
  (List.length (creditHistory u) <= 50)%nat.

(** The update of [setUsername]. *)
Definition rename (desired : string) (u : User) : User :=
  set_usernameLower (Some (Str.toLowerCase desired))
    (set_username (Some desired) u).

(** The index check of a write, index by index. *)
Definition refused (s : Store) (old new : User) (i : Index) : bool :=
  match index_key i new with
  | Some k => (negb (okey_eqb (index_key i old) (Some k)) && holds_key i k s)%bool
  | None => false
  end.

(* ------------------------------------------------------------------ *)
(** *** The earlier revision of [createUser]

    The first revision of [src/actions/user.actions.ts] puts every field
    under [$setOnInsert] and has no [$set]. *)
Definition createUser_rev1_setOnInsert (user : CreateUserInput) (u : User)
    : User :=
  set_topCoins []
    (match in_credits user with
     | Some c => set_credits c
     | None => fun d => d
     end
       (set_customerId (nullish (in_customerId user) "")
          (set_subscriptionTier (nullish (in_subscriptionTier user) free)
             (set_lastName (nullish (in_lastName user) "")
                (set_firstName (nullish (in_firstName user) "")
                   (set_email
                      (Some (Str.trim (Str.toLowerCase (in_email user))))
                      u)))))).

Definition createUser_rev1 (now : Z) (user : CreateUserInput) : M Store User :=
  if uncastable (in_credits user) then throw (CastError "credits")
  else
    findOneAndUpsert now (by_clerkId (in_clerkId user))
      (fun u => u) (createUser_rev1_setOnInsert user).

(* ------------------------------------------------------------------ *)
(** ** The client context: [src/unnamed/part_005]

    [UserProvider] keeps the account's document as [getUser] returned it
    ([mongoUser]) beside the identity provider's user object ([clerkUser])
    and derives from the two the value the pages read. *)

Record EmailAddressResource : Type := mkEmailAddressResource {
  ear_id : string;
  emailAddress : string
}.

(** The fields of the identity provider's user object that the context
    reads. *)
Record ClerkUser : Type := mkClerkUser {
  cu_id : string;
  emailAddresses : list EmailAddressResource;
  primaryEmailAddressId : option string;
  primaryEmailAddress : option EmailAddressResource;
  cu_firstName : option string;
  cu_lastName : option string;
  fullName : option string
}.

(** [a ?? b] with a possibly-missing right-hand side. *)
Definition nullish_or {A} (a b : option A) : option A :=
  match a with Some x => Some x | None => b end.

Definition clerkPrimaryEmail (clerkUser : option ClerkUser) : option string :=
  match clerkUser with
  | None => None
  | Some cu =>
      nullish_or
        (option_map emailAddress
           (match primaryEmailAddressId cu with
            | Some pid =>
                find (fun e => String.eqb (ear_id e) pid) (emailAddresses cu)
            | None => None
            end))
        (nullish_or (option_map emailAddress (primaryEmailAddress cu))
           (option_map emailAddress (hd_error (emailAddresses cu))))
  end.

(** [[firstName, lastName].filter(Boolean).join(" ").trim()]. *)
Definition fullFromNames (firstName lastName : string) : string :=
  Str.trim (String.concat " " (filter Str.truthy [firstName; lastName])).

Record UserContextType : Type := mkContext {
  isAuthenticated : bool;
  ctx_clerkId : string;
  ctx_email : option string;
  ctx_firstName : string;
  ctx_lastName : string;
  ctx_username : option string;
  name : string;
  isBasic : bool;
  tier : Tier;
  ctx_credits : float;
  ctx_topCoins : list string;
  ctx_createdAt : option Z;
  ctx_updatedAt : option Z;
  isContextLoaded : bool
}.

(** The body of the [useMemo] that builds the context value. *)
Definition contextValue (clerkUser : option ClerkUser)
    (mongoUser : option User) (loaded : bool) : UserContextType :=
  let email :=
    nullish_or (match mongoUser with Some m => email m | None => None end)
      (clerkPrimaryEmail clerkUser) in
  let firstName :=
    match mongoUser with
    | Some m => firstName m
    | None =>
        nullish (match clerkUser with
                 | Some cu => cu_firstName cu
                 | None => None
                 end) ""
    end in
  let lastName :=
    match mongoUser with
    | Some m => lastName m
    | None =>
        nullish (match clerkUser with
                 | Some cu => cu_lastName cu
                 | None => None
                 end) ""
    end in
  let username :=
    match mongoUser with Some m => username m | None => None end in
  let clerkFullName :=
    nullish (match clerkUser with Some cu => fullName cu | None => None end)
      "" in
  let tier :=
    match mongoUser with Some m => subscriptionTier m | None => free end in
  {| isAuthenticated := match clerkUser with Some _ => true | None => false end;
     ctx_clerkId := match clerkUser with Some cu => cu_id cu | None => "" end;
     ctx_email := email;
     ctx_firstName := firstName;
     ctx_lastName := lastName;
     ctx_username := username;
     name :=
       nullish
         (or_else (Some (fullFromNames firstName lastName))
            (or_else username
               (or_else (Some clerkFullName) (or_else email None))))
         "User";
     isBasic := match tier with basic => true | free => false end;
     tier := tier;
     ctx_credits :=
       nullish (match mongoUser with
                | Some m => Num.json (credits m)
                | None => None
                end) 0%float;
     ctx_topCoins := match mongoUser with Some m => topCoins m | None => [] end;
     ctx_createdAt := option_map createdAt mongoUser;
     ctx_updatedAt := option_map updatedAt mongoUser;
     isContextLoaded := loaded |}.

(** [hasEnoughCredits] of the context: [(required = 1) => credits >= required]. *)
Definition ctx_hasEnoughCredits (value : UserContextType)
    (required : option float) : bool :=
  (nullish required 1 <=? ctx_credits value)%float.

(** The state of the provider between renders. *)
Record Provider : Type := mkProvider {
  mongoUser : option User;
  mounted : bool;
  loaded : bool
}.

(** Run a store action beside the provider's state. *)
Definition on_server {A} (m : M Store A) : M (Store * Provider) A :=
  fun sp => match m (fst sp) with
            | (r, s') => (r, (s', snd sp))
            end.

Definition setMongoUser (data : option User) : M (Store * Provider) unit :=
  fun sp => (Ok tt, (fst sp, mkProvider data (mounted (snd sp)) (loaded (snd sp)))).

(** [if (mountedRef.current) ...]. *)
Definition when_mounted (m : M (Store * Provider) unit)
    : M (Store * Provider) unit :=
  fun sp => if mounted (snd sp) then m sp else (Ok tt, sp).

Definition refreshUser (clerkUser : option ClerkUser)
    : M (Store * Provider) unit :=
  match clerkUser with
  | None => ret tt
  | Some cu =>
      data <- on_server (getUser (cu_id cu)) ;;
      when_mounted (setMongoUser data)
  end.

(** [setUsername] of the context. *)
Definition ctx_setUsername (now : Z) (clerkUser : option ClerkUser)
    (desired : string) : M (Store * Provider) unit :=
  match clerkUser with
  | None => throw (Err "Not authenticated")
  | Some cu =>
      _ <- on_server (setUsername now (cu_id cu) desired) ;;
      refreshUser clerkUser
  end.

Definition setIsContextLoaded (b : bool) : M (Store * Provider) unit :=
  fun sp => (Ok tt, (fst sp, mkProvider (mongoUser (snd sp)) (mounted (snd sp)) b)).

(** The effect that runs on mount and when the signed-in identity
    changes. *)
Definition initialLoad (isClerkLoaded : bool) (clerkUser : option ClerkUser)
    : M (Store * Provider) unit :=
  _ <- setIsContextLoaded false ;;
  if negb isClerkLoaded
  then _ <- setMongoUser None ;; setIsContextLoaded false
  else
    match clerkUser with
    | None => _ <- setMongoUser None ;; setIsContextLoaded true
    | Some cu =>
        _ <- try_catch
               (data <- on_server (getUser (cu_id cu)) ;;
                when_mounted (setMongoUser data))
               (fun _ => ret tt) ;;
        when_mounted (setIsContextLoaded true)
    end.

(* ------------------------------------------------------------------ *)
(** ** Per-document invariants of reachable collections *)

Definition topCoins_ok (u : User) : Prop :=
  (List.length (topCoins u) <= 3)%nat.

(** The [validate] function of the [solanaWallet] path
    ([src/modals/user.modal.ts]): [v === "" || SOLANA_BASE58_RE.test(v)]. *)
Definition wallet_validator (v : string) : bool :=
  (String.eqb v "" || SOLANA_BASE58_RE v)%bool.

Definition wallet_ok (u : User) : Prop :=
  match solanaWallet u with
  | Some w => wallet_validator w = true
  | None => True
  end.

Definition entries_ok (u : User) : Prop :=
  Forall (fun e => (0 <? creditsUsed e)%float = true) (creditHistory u).

(** A stored email is what [toLowerCase().trim()] leaves unchanged. *)
Definition email_ok (u : User) : Prop :=
  match email u with
  | Some e => Str.toLowerCase e = e /\ Str.trim e = e
  | None => True
  end.

(** A stored username is trimmed and not empty. *)
Definition username_ok (u : User) : Prop :=
  match username u with
  | Some n => Str.trim n = n /\ n <> ""
  | None => True
  end.

(** The character [c] occurs in [s]. *)
Fixpoint occurs (c : ascii) (s : string) : bool :=
  match s with
  | EmptyString => false
  | String x r => (Ascii.eqb x c || occurs c r)%bool
  end.

(** ** What an operation may touch *)

(** The account an operation addresses. *)
Definition op_target (o : Op) : string :=
  match o with
  | OpCreateUser _ user => in_clerkId user
  | OpAddCredits _ userId _ => userId
  | OpConsumeBacktestCredits _ userId _ _ _ => userId
  | OpSetUsername _ cid _ => cid
  | OpSetSolanaWallet _ cid _ => cid
  | OpClearSolanaWallet _ cid => cid
  | OpUpdateUserTopCoins _ userId _ => userId
  | OpHandleEvent _ evt => nullish (ev_id (ev_data evt)) ""
  | OpStoreCustomerId _ userId _ => userId
  end.

(** The fields that some update writes, grouped as the updates write
    them. *)
Inductive Field : Type :=
  FEmail | FNames | FHandle | FCustomerId | FCredits | FTopCoins
| FSolanaWallet | FDeletedAt.

Definition field_eq (f : Field) (u u' : User) : Prop :=
  match f with
  | FEmail => email u' = email u
  | FNames => firstName u' = firstName u /\ lastName u' = lastName u
  | FHandle => username u' = username u /\ usernameLower u' = usernameLower u
  | FCustomerId => customerId u' = customerId u
  | FCredits => credits u' = credits u /\ creditHistory u' = creditHistory u
  | FTopCoins => topCoins u' = topCoins u
  | FSolanaWallet => solanaWallet u' = solanaWallet u
  | FDeletedAt => deletedAt u' = deletedAt u
  end.

(** The fields named in the update document of an operation; an existing
    account is not touched by [$setOnInsert]. *)
Definition may_write (o : Op) (f : Field) : bool :=
  match o, f with
  | OpCreateUser _ _, (FEmail | FNames | FHandle) => true
  | OpAddCredits _ _ _, FCredits => true
  | OpConsumeBacktestCredits _ _ _ _ _, FCredits => true
  | OpSetUsername _ _ _, FHandle => true
  | OpSetSolanaWallet _ _ _, FSolanaWallet => true
  | OpClearSolanaWallet _ _, FSolanaWallet => true
  | OpUpdateUserTopCoins _ _ _, FTopCoins => true
  | OpHandleEvent _ _, (FEmail | FNames | FHandle | FDeletedAt) => true
  | OpStoreCustomerId _ _ _, FCustomerId => true
  | _, _ => false
  end.

(** What [o] leaves as it is in a document it updates: the fields no
    update writes, and the fields its own update does not name. *)
Definition untouched (o : Op) (u u' : User) : Prop :=
  _id u' = _id u /\ clerkId u' = clerkId u /\ createdAt u' = createdAt u
  /\ subscriptionTier u' = subscriptionTier u
  /\ forall f, may_write o f = false -> field_eq f u u'.

(** [s'] differs from [s0] in the account [cid0] at most, has lost no
    account, and relates the old and the new document of an account by
    [R]. *)
Definition framed (R : User -> User -> Prop) (cid0 : string)
    (s0 s' : Store) : Prop :=
  unique_clerkIds s'
  /\ (forall cid, cid <> cid0 -> account cid s' = account cid s0)
  /\ (forall cid u, account cid s0 = Some u ->
        exists u', account cid s' = Some u' /\ R u u')
  /\ (List.length s0 <= List.length s')%nat.

(* ------------------------------------------------------------------ *)
(** ** Sample data *)

Module Sample.

Definition alice : CreateUserInput :=
  mkInput "user_alice" " Alice@Example.com " (Some "Alice") (Some "Liddell")
    None None None None.

Definition bob : CreateUserInput :=
  mkInput "user_bob" "bob@example.com" (Some "Bob") None None None None None.

(** A [createUser] input that carries a negative balance. *)
Definition overdrawn : CreateUserInput :=
  mkInput "user_carol" "carol@example.com" None None None None
    (Some (-5)%float) None.

(** ... and one that carries the balance 2^53 + 2. *)
Definition whale : CreateUserInput :=
  mkInput "user_will" "will@example.com" None None None None
    (Some 9007199254740994%float) None.

Definition wallet_1 : string :=
  "7xKXtg2CW87d97TXJSDpbD5jBkheTqA83TZRuJosgAsU".

(** Alice signs up, connects a wallet, then Bob signs up. *)
Definition store_a : Store := apply_op (OpCreateUser 1000 alice) [].
Definition store_aw : Store :=
  apply_op (OpSetSolanaWallet 1001 "user_alice" wallet_1) store_a.
Definition store_ab : Store := apply_op (OpCreateUser 1002 bob) store_aw.

(** ... and Alice takes a username. *)
Definition store_named : Store :=
  apply_op (OpSetUsername 1003 "user_alice" "validUser123") store_ab.

(** The two documents at that point. *)
Definition alice_doc : User :=
  Eval vm_compute in nth 0 store_named (schemaDefaults 0 0 "").
Definition bob_doc : User :=
  Eval vm_compute in nth 1 store_named (schemaDefaults 0 0 "").

(** Alice with 100 more credits, and 51 debits of one credit each. *)
Definition store_rich : Store :=
  apply_op (OpAddCredits 1004 "user_alice" 100%float) store_named.

Definition debits_51 : list Debit :=
  map (fun n => mkDebit (2000 + Z.of_nat n) 1%float "SOL" "rsi") (seq 1 51).

(** Three debits: one refused for its amount, one accepted, one refused
    for lack of credits. *)
Definition debits_3 : list Debit :=
  [mkDebit 2001 0%float "BTC" "ema"; mkDebit 2002 4%float "SOL" "rsi";
   mkDebit 2003 7%float "ETH" "macd"].

(** Two debits of one credit each. *)
Definition debits_2 : list Debit :=
  [mkDebit 2001 1%float "SOL" "rsi"; mkDebit 2002 1%float "SOL" "rsi"].

(** The account with 2^53 + 2 credits, alone in the collection; the
    account with a negative balance, alone in the collection. *)
Definition store_whale : Store := apply_op (OpCreateUser 1000 whale) [].
Definition store_overdrawn : Store := apply_op (OpCreateUser 1000 overdrawn) [].

Definition carol_doc : User :=
  Eval vm_compute in nth 0 store_overdrawn (schemaDefaults 0 0 "").

(** Alice buys half a credit; Alice is given infinitely many credits and
    spends as many. *)
Definition store_half : Store :=
  apply_op (OpAddCredits 1004 "user_alice" 0.5%float) store_named.
Definition store_endless : Store :=
  apply_op (OpAddCredits 1004 "user_alice" infinity) store_named.
Definition store_nan : Store :=
  apply_op (OpConsumeBacktestCredits 1005 "user_alice" infinity "SOL" "rsi")
    store_endless.

End Sample.

Module SampleEvents.


(** The same event for an email that Alice holds. *)
Definition bob_takes_email : WebhookEvent :=
  mkEvent user_updated
    (mkEventData (Some "user_bob")
       (Some [mkEmailAddress "idn_2" "alice@example.com"]) (Some "idn_2")
       (Some "Robert") None (Some " ValidUser123 ")).

(** The billing provider: one customer, one price. *)
Definition customer_id (n : nat) : string :=
  match n with
  | O => "cus_0"
  | S O => "cus_1"
  | _ => "cus_n"
  end.

Definition checkout_url (n : nat) : option string :=
  Some "https://checkout.example/session".

(** A provider that answers every request, one that rejects the opening
    of a session, and one that is down. *)
Definition answers (c : Call) (tr : list Event) : option string := None.

Definition declines (c : Call) (tr : list Event) : option string :=
  match c with
  | CreateSession _ _ _ => Some "Your account cannot currently make live charges."
  | _ => None
  end.

Definition down (c : Call) (tr : list Event) : option string :=
  Some "An error occurred with our connection to Stripe.".


Definition provider : Stripe :=
  mkStripe [mkCustomer "cus_alice" "alice@example.com"] ["price_basic"] [].

Definition world_named : World := mkWorld Sample.store_named provider [].

End SampleEvents.

Module SampleClient.

(** Alice as the identity provider shows her to the browser. *)
Definition alice_clerk : ClerkUser :=
  mkClerkUser "user_alice"
    [mkEmailAddressResource "idn_a" "Alice@Example.com"] (Some "idn_a") None
    (Some "Alice") (Some "Liddell") (Some "Alice Liddell").

(** Alice has run one backtest. *)
Definition store_spent : Store :=
  apply_op (OpConsumeBacktestCredits 2002 "user_alice" 4%float "SOL" "rsi")
    Sample.store_named.

(** A provider that is mounted and has not loaded yet. *)
Definition fresh : Provider := mkProvider None true false.

(** Alice's identity record is deleted. *)
Definition alice_deleted : WebhookEvent :=
  mkEvent user_deleted
    (mkEventData (Some "user_alice") None None None None None).

(** Dave signs up with the identity provider under a reserved handle. *)
Definition dave_created : WebhookEvent :=
  mkEvent user_created
    (mkEventData (Some "user_dave")
       (Some [mkEmailAddress "idn_7" "old@example.com";
              mkEmailAddress "idn_8" " Dave@Example.com"])
       (Some "idn_8") (Some "Dave") None (Some " admin ")).

Definition dave : CreateUserInput :=
  mkInput "user_dave" "dave@example.com" None None None None None
    (Some " admin ").

(** A request that carries its three signature headers. *)
Definition signed (payload : string) : Request :=
  mkRequest (Some "msg_1") (Some "1700000000") (Some "v1,signature") payload.

(** A signature library whose one valid secret is [whsec_test], and whose
    check accepts the payload [deleted] as Alice's deletion and nothing
    else. *)
Definition Webhook (secret : string) : option string :=
  if String.eqb secret "whsec_test" then Some secret else None.

Definition verify (wh : string) (req : Request) : option WebhookEvent :=
  if String.eqb (req_body req) "deleted" then Some alice_deleted else None.

End SampleClient.

(* ================================================================== *)
(** * Properties *)

Local Arguments firstn : simpl never.

(** ** Numbers *)

(** *** Signs *)

Lemma Prim2SF_zero : Prim2SF 0 = S754_zero false.
Proof. reflexivity. Qed.

Lemma Prim2SF_nan (a : float) : is_nan a = false -> Prim2SF a <> S754_nan.
Proof.
  intro H. unfold Prim2SF. rewrite H.
  destruct (is_zero a); [discriminate|].
  destruct (is_infinity a); [discriminate|].
  destruct (Z.frexp a) as [r e].
  destruct (shr_fexp _ _ _ _ _) as [m e'].
  destruct (shr_m m); discriminate.
Qed.

Lemma is_nan_spec (a : float) : is_nan a = true -> Prim2SF a = S754_nan.
Proof. intro H. unfold Prim2SF. now rewrite H. Qed.

Lemma SFcompare_refl (x : spec_float) :
  x <> S754_nan -> SFcompare x x = Some Eq.
Proof.
  destruct x as [s|s| |s m e]; simpl; intro H; try congruence.
  - now destruct s.
  - rewrite Z.compare_refl. fold (Pos.compare m m). rewrite Pos.compare_refl.
    now destruct s.
Qed.

Lemma is_nan_false_iff (a : float) : is_nan a = false <-> Prim2SF a <> S754_nan.
Proof.
  split; [apply Prim2SF_nan|].
  intro H. unfold is_nan. rewrite eqb_spec. unfold SFeqb.
  now rewrite SFcompare_refl.
Qed.

(** The three cases of the guard [amount <= 0]. *)
Lemma positive_or_not (a : float) :
  (a <=? 0)%float = false -> is_nan a = false -> (0 <? a)%float = true.
Proof.
  rewrite leb_spec, ltb_spec, Prim2SF_zero. intros H N.
  apply Prim2SF_nan in N. unfold SFleb, SFltb in *.
  destruct (Prim2SF a) as [s|[]| |[] m e]; simpl in *; congruence.
Qed.

Lemma positive_spec (a : float) :
  (0 <? a)%float = true ->
  (a <=? 0)%float = false /\ is_nan a = false
  /\ (Prim2SF a = S754_infinity false
      \/ exists m e, Prim2SF a = S754_finite false m e).
Proof.
  rewrite leb_spec, ltb_spec, Prim2SF_zero. intro H.
  rewrite is_nan_false_iff. unfold SFleb, SFltb in *.
  destruct (Prim2SF a) as [s|[]| |[] m e]; simpl in *; try discriminate.
  - repeat split; auto; discriminate.
  - repeat split; eauto; discriminate.
Qed.

Lemma nonneg_spec (a : float) :
  (0 <=? a)%float = true <-> SF_nonneg (Prim2SF a).
Proof.
  rewrite leb_spec, Prim2SF_zero. unfold SFleb.
  destruct (Prim2SF a) as [s|[]| |[] m e]; simpl; split; auto; discriminate.
Qed.

(** *** Rounding keeps the sign *)

Lemma iter_pos_invariant {A} (P : A -> Prop) (f : A -> A) :
  (forall x, P x -> P (f x)) -> forall p x, P x -> P (iter_pos f p x).
Proof.
  intros Hf p. induction p as [p IH|p IH|]; simpl; intros x Hx; auto.
Qed.

Lemma shr_1_nonneg mrs : 0 <= shr_m mrs -> 0 <= shr_m (shr_1 mrs).
Proof.
  destruct mrs as [m r s]. simpl.
  destruct m as [|[p|p|]|[p|p|]]; simpl; lia.
Qed.

Lemma shr_fexp_nonneg m e l :
  0 <= m -> 0 <= shr_m (fst (shr_fexp prec emax m e l)).
Proof.
  intro H. unfold shr_fexp, shr.
  assert (H0 : 0 <= shr_m (shr_record_of_loc m l))
    by (destruct l as [|[]]; exact H).
  destruct (_ - e) as [|p|p]; simpl; auto.
  now apply iter_pos_invariant; [apply shr_1_nonneg|].
Qed.

Lemma round_nearest_even_nonneg m l : 0 <= m -> 0 <= round_nearest_even m l.
Proof.
  intro H. destruct l as [|[]]; simpl; try lia.
  destruct (Z.even m); lia.
Qed.

Lemma binary_round_aux_nonneg m e l :
  0 <= m -> SF_nonneg (binary_round_aux prec emax false m e l).
Proof.
  intro H. unfold binary_round_aux.
  pose proof (shr_fexp_nonneg m e l H) as H1.
  destruct (shr_fexp prec emax m e l) as [mrs' e']. cbn [fst] in H1.
  pose proof (shr_fexp_nonneg
                (round_nearest_even (shr_m mrs') (loc_of_shr_record mrs'))
                e' loc_Exact (round_nearest_even_nonneg _ _ H1)) as H2.
  destruct (shr_fexp prec emax _ e' loc_Exact) as [mrs'' e'']. cbn [fst] in H2.
  destruct (shr_m mrs'') as [|p|p]; [exact I| |lia].
  now destruct (e'' <=? emax - prec).
Qed.

Lemma binary_normalize_nonneg m e :
  0 <= m -> SF_nonneg (binary_normalize prec emax m e false).
Proof.
  intro H. destruct m as [|p|p]; simpl; [exact I| |lia].
  unfold binary_round. destruct (shl_align _ _ _) as [mz ez].
  now apply binary_round_aux_nonneg.
Qed.

(** *** Aligned mantissas *)

Lemma Pos_iter_xO (m d : positive) :
  Zpos (Pos.iter xO m d) = Zpos m * 2 ^ Zpos d.
Proof.
  induction d as [|d IH] using Pos.peano_ind.
  - cbn [Pos.iter]. rewrite Pos2Z.inj_xO. change (2 ^ 1) with 2. lia.
  - rewrite Pos.iter_succ, Pos2Z.inj_succ, Z.pow_succ_r by lia.
    rewrite Pos2Z.inj_xO, IH. lia.
Qed.

Lemma shl_align_value m e e' :
  e' <= e -> Zpos (fst (shl_align m e e')) = Zpos m * 2 ^ (e - e').
Proof.
  intro H. unfold shl_align.
  destruct (e' - e) as [|p|p] eqn:E; cbn [fst].
  - replace (e - e') with 0 by lia. rewrite Z.pow_0_r. lia.
  - lia.
  - rewrite Pos_iter_xO. replace (e - e') with (Z.pos p) by lia. reflexivity.
Qed.

Lemma digits2_pos_bounds (m : positive) :
  2 ^ (Zpos (digits2_pos m) - 1) <= Zpos m < 2 ^ Zpos (digits2_pos m).
Proof.
  induction m as [m IH|m IH|]; simpl digits2_pos.
  - rewrite Pos2Z.inj_succ.
    replace (Z.succ (Zpos (digits2_pos m)) - 1) with (Z.succ (Zpos (digits2_pos m) - 1)) by lia.
    rewrite !Z.pow_succ_r by lia. lia.
  - rewrite Pos2Z.inj_succ.
    replace (Z.succ (Zpos (digits2_pos m)) - 1) with (Z.succ (Zpos (digits2_pos m) - 1)) by lia.
    rewrite !Z.pow_succ_r by lia. lia.
  - simpl. lia.
Qed.

(** What validity says of a finite number. *)
Lemma bounded_spec m e :
  bounded prec emax m e = true ->
  -1074 <= e <= 971
  /\ Zpos (digits2_pos m) <= 53
  /\ (-1074 < e -> Zpos (digits2_pos m) = 53).
Proof.
  unfold bounded, canonical_mantissa, fexp, SpecFloat.emin, prec, emax.
  intro H. apply andb_prop in H. destruct H as [H1 H2].
  apply Z.eqb_eq in H1. apply Z.leb_le in H2. lia.
Qed.

(** *** Differences and sums of ordered numbers *)

Lemma SFsub_nonneg x y :
  valid_binary x = true -> valid_binary y = true ->
  SFltb (S754_zero false) y = true -> y <> S754_infinity false ->
  SFleb y x = true ->
  SF_nonneg (SF64sub x y).
Proof.
  intros Vx Vy Py Fy L.
  destruct y as [sy|sy| |sy my ey]; try discriminate.
  { destruct sy; [discriminate | congruence]. }
  destruct sy; [discriminate|].
  destruct x as [sx|sx| |sx mx ex]; try discriminate.
  { destruct sx; [discriminate | exact I]. }
  destruct sx; [discriminate|].
  unfold SF64sub, SFsub. apply binary_normalize_nonneg. cbn [cond_Zopp].
  simpl in Vx, Vy.
  destruct (bounded_spec mx ex Vx) as (Ex & Dx & Nx).
  destruct (bounded_spec my ey Vy) as (Ey & Dy & Ny).
  unfold SFleb, SFcompare in L.
  rewrite !shl_align_value by lia.
  destruct (Z.compare_spec ey ex) as [E|E|E]; [| |discriminate].
  - subst ey. rewrite Z.min_id, Z.sub_diag. simpl (2 ^ 0).
    fold (Pos.compare my mx) in L.
    destruct (Pos.compare_spec my mx); try discriminate; subst; lia.
  - rewrite Z.min_r by lia. rewrite Z.sub_diag. simpl (2 ^ 0).
    pose proof (digits2_pos_bounds mx) as Bx.
    pose proof (digits2_pos_bounds my) as By.
    rewrite (Nx ltac:(lia)) in Bx.
    assert (Zpos my < 2 ^ 53).
    { eapply Z.lt_le_trans; [apply By|]. apply Z.pow_le_mono_r; lia. }
    assert (2 ^ 1 <= 2 ^ (ex - ey)) by (apply Z.pow_le_mono_r; lia).
    change (2 ^ (53 - 1)) with 4503599627370496 in Bx.
    change (2 ^ 53) with 9007199254740992 in *. change (2 ^ 1) with 2 in *.
    nia.
Qed.

Lemma SFadd_nonneg x y :
  SF_nonneg x -> SF_nonneg y -> SF_nonneg (SF64add x y).
Proof.
  intros Hx Hy.
  destruct x as [sx|[]| |[] mx ex]; try contradiction;
  destruct y as [sy|[]| |[] my ey]; try contradiction;
    unfold SF64add, SFadd; try exact I.
  - now destruct sx, sy.
  - apply binary_normalize_nonneg. cbn [cond_Zopp]. lia.
Qed.

(** A positive finite amount that the balance covers leaves a balance
    that is not negative. *)
Lemma sub_nonneg (a b : float) :
  (0 <? b)%float = true -> is_infinity b = false -> (b <=? a)%float = true ->
  (0 <=? a - b)%float = true.
Proof.
  intros Pb Fb L. apply nonneg_spec. rewrite sub_spec.
  apply SFsub_nonneg; try apply Prim2SF_valid.
  - now rewrite ltb_spec, Prim2SF_zero in Pb.
  - intro E. unfold is_infinity in Fb. rewrite eqb_spec, abs_spec, E in Fb.
    discriminate Fb.
  - now rewrite leb_spec in L.
Qed.

Lemma add_nonneg (a b : float) :
  (0 <=? a)%float = true -> (0 <=? b)%float = true ->
  (0 <=? a + b)%float = true.
Proof.
  rewrite !nonneg_spec, add_spec. apply SFadd_nonneg.
Qed.

(** *** Integers are computed exactly *)

Lemma iter_pos_nat {A} (f : A -> A) (p : positive) (x : A) :
  iter_pos f p x = Nat.iter (Pos.to_nat p) f x.
Proof.
  revert x. induction p as [p IH|p IH|]; intro x; simpl iter_pos.
  - rewrite !IH, Pos2Nat.inj_xI, Nat.iter_succ_r.
    replace (2 * Pos.to_nat p)%nat with (Pos.to_nat p + Pos.to_nat p)%nat by lia.
    now rewrite Nat.iter_add.
  - rewrite !IH, Pos2Nat.inj_xO.
    replace (2 * Pos.to_nat p)%nat with (Pos.to_nat p + Pos.to_nat p)%nat by lia.
    now rewrite Nat.iter_add.
  - reflexivity.
Qed.

Lemma shift_nat_value (n : nat) (q : positive) :
  Zpos (shift_nat n q) = Zpos q * 2 ^ Z.of_nat n.
Proof.
  induction n as [|n IH]; [simpl; lia|].
  change (shift_nat (S n) q) with (xO (shift_nat n q)).
  rewrite Pos2Z.inj_xO, IH, Nat2Z.inj_succ, Z.pow_succ_r by lia. lia.
Qed.

Lemma shift_nat_digits (n : nat) (q : positive) :
  Zpos (digits2_pos (shift_nat n q)) = Zpos (digits2_pos q) + Z.of_nat n.
Proof.
  induction n as [|n IH]; [simpl; lia|].
  change (shift_nat (S n) q) with (xO (shift_nat n q)).
  simpl digits2_pos. rewrite Pos2Z.inj_succ, IH. lia.
Qed.

Lemma shift_nat_add (a b : nat) (q : positive) :
  shift_nat (a + b) q = shift_nat a (shift_nat b q).
Proof. induction a as [|a IH]; [reflexivity|]. simpl. now rewrite <- IH. Qed.

(** A mantissa with a value [q * 2 ^ k] is [q] shifted. *)
Lemma shift_nat_of_value (m q : positive) (k : Z) :
  0 <= k -> Zpos m = Zpos q * 2 ^ k -> m = shift_nat (Z.to_nat k) q.
Proof.
  intros Hk H. apply Pos2Z.inj. rewrite shift_nat_value, Z2Nat.id by lia.
  exact H.
Qed.

Lemma shr_exact (n : nat) (q : positive) :
  Nat.iter n shr_1 (Build_shr_record (Zpos (shift_nat n q)) false false)
  = Build_shr_record (Zpos q) false false.
Proof.
  induction n as [|n IH]; [reflexivity|].
  rewrite Nat.iter_succ_r.
  change (shift_nat (S n) q) with (xO (shift_nat n q)).
  exact IH.
Qed.

(** A mantissa already in place is left alone. *)
Lemma binary_round_aux_canonical (s : bool) (m : positive) (e : Z) :
  fexp prec emax (Zpos (digits2_pos m) + e) = e -> e <= 971 ->
  binary_round_aux prec emax s (Zpos m) e loc_Exact = S754_finite s m e.
Proof.
  intros C B. unfold binary_round_aux, shr_fexp. cbn [Zdigits2 shr_record_of_loc].
  rewrite C, Z.sub_diag. cbn [shr shr_m loc_of_shr_record round_nearest_even
                                 Zdigits2 shr_record_of_loc].
  rewrite C, Z.sub_diag. cbn [shr shr_m].
  replace (e <=? emax - prec) with true; [reflexivity|].
  symmetry. apply Z.leb_le. unfold emax, prec. lia.
Qed.

(** A mantissa with spare zero bits is shifted into place, exactly. *)
Lemma binary_round_aux_shift (s : bool) (q : positive) (e : Z) (p : positive) :
  fexp prec emax (Zpos (digits2_pos q) + (e + Zpos p)) = e + Zpos p ->
  e + Zpos p <= 971 ->
  binary_round_aux prec emax s (Zpos (shift_nat (Pos.to_nat p) q)) e loc_Exact
  = S754_finite s q (e + Zpos p).
Proof.
  intros C B. unfold binary_round_aux, shr_fexp at 1.
  cbn [Zdigits2 shr_record_of_loc].
  rewrite shift_nat_digits, positive_nat_Z.
  replace (Zpos (digits2_pos q) + Zpos p + e)
    with (Zpos (digits2_pos q) + (e + Zpos p)) by lia.
  rewrite C. replace (e + Zpos p - e) with (Zpos p) by lia.
  cbn [shr]. rewrite iter_pos_nat, shr_exact.
  cbn [shr_m loc_of_shr_record round_nearest_even].
  unfold shr_fexp. cbn [Zdigits2 shr_record_of_loc].
  rewrite C, Z.sub_diag. cbn [shr shr_m].
  replace (e + Zpos p <=? emax - prec) with true; [reflexivity|].
  symmetry. apply Z.leb_le. unfold emax, prec. lia.
Qed.

Lemma binary_round_exact (s : bool) (N D : positive) (k : Z) :
  0 <= k -> Zpos D = Zpos N * 2 ^ k -> Zpos (digits2_pos N) <= 53 ->
  exists m,
    binary_round prec emax s D (- k)
    = S754_finite s m (Zpos (digits2_pos N) - 53)
    /\ Zpos m = Zpos N * 2 ^ (53 - Zpos (digits2_pos N)).
Proof.
  intros Hk HD HN. set (dN := Zpos (digits2_pos N)) in *.
  assert (E : D = shift_nat (Z.to_nat k) N) by now apply shift_nat_of_value.
  assert (Dd : Zpos (digits2_pos D) = dN + k).
  { rewrite E, shift_nat_digits, Z2Nat.id by lia. reflexivity. }
  assert (F : forall x, x = dN -> fexp prec emax x = dN - 53).
  { intros x ->. unfold fexp, SpecFloat.emin, prec, emax. lia. }
  unfold binary_round. rewrite (F (Zpos (digits2_pos D) + - k)) by lia.
  unfold shl_align.
  destruct (dN - 53 - - k) as [|p|p] eqn:Ep.
  - exists D. split.
    + replace (- k) with (dN - 53) by lia.
      apply binary_round_aux_canonical; [|lia]. rewrite F; lia.
    + rewrite HD. f_equal. f_equal. lia.
  - assert (Kp : (Pos.to_nat p <= Z.to_nat k)%nat) by lia.
    exists (shift_nat (Z.to_nat k - Pos.to_nat p) N). split.
    + replace D with (shift_nat (Pos.to_nat p)
                        (shift_nat (Z.to_nat k - Pos.to_nat p) N)).
      2:{ rewrite <- shift_nat_add, E. f_equal. lia. }
      replace (dN - 53) with (- k + Zpos p) by lia.
      apply binary_round_aux_shift; [|lia].
      rewrite F; [lia|]. rewrite shift_nat_digits. fold dN. lia.
    + rewrite shift_nat_value. f_equal. f_equal. lia.
  - exists (Pos.iter xO D p). split.
    + apply binary_round_aux_canonical; [|lia].
      rewrite F; [lia|].
      change (Pos.iter xO D p) with (shift_pos p D).
      rewrite shift_pos_nat, shift_nat_digits, Dd. lia.
    + rewrite Pos_iter_xO, HD, <- Z.mul_assoc, <- Z.pow_add_r by lia.
      f_equal. f_equal. lia.
Qed.

Lemma digits_of_safe (n : positive) : Zpos n < 2 ^ 53 -> Zpos (digits2_pos n) <= 53.
Proof.
  intro H. pose proof (digits2_pos_bounds n) as [B _].
  assert (L : 2 ^ (Zpos (digits2_pos n) - 1) < 2 ^ 53) by lia.
  apply Z.pow_lt_mono_r_iff in L; lia.
Qed.

Lemma SF_to_Z_canonical (s : bool) (m N : positive) (f : Z) :
  f <= 0 -> Zpos m = Zpos N * 2 ^ (- f) ->
  Num.SF_to_Z (S754_finite s m f) = Some (cond_Zopp s (Zpos N)).
Proof.
  intros Hf Hm. unfold Num.SF_to_Z.
  destruct (Z.leb_spec 0 f) as [H|H].
  - replace f with 0 in * by lia. simpl in Hm. rewrite Z.pow_0_r.
    do 2 f_equal. lia.
  - assert (P : 0 < 2 ^ (- f)) by (apply Z.pow_pos_nonneg; lia).
    rewrite Hm, Z.mod_mul, Z.div_mul by lia. reflexivity.
Qed.

Lemma binary_normalize_exact (N k : Z) :
  N <> 0 -> Num.safe N -> 0 <= k ->
  Num.SF_to_Z (binary_normalize prec emax (N * 2 ^ k) (- k) false) = Some N.
Proof.
  intros H0 [Hl Hu] Hk.
  assert (P : 0 < 2 ^ k) by (apply Z.pow_pos_nonneg; lia).
  destruct N as [|n|n]; [congruence| |].
  - replace (Zpos n * 2 ^ k) with (Zpos (shift_nat (Z.to_nat k) n))
      by (rewrite shift_nat_value, Z2Nat.id by lia; reflexivity).
    cbn [binary_normalize].
    destruct (binary_round_exact false n (shift_nat (Z.to_nat k) n) k Hk)
      as (m & E & V).
    + rewrite shift_nat_value, Z2Nat.id by lia. reflexivity.
    + apply digits_of_safe. lia.
    + rewrite E.
      pose proof (digits_of_safe n ltac:(lia)).
      rewrite (SF_to_Z_canonical false m n); [reflexivity|lia|].
      rewrite V. f_equal. f_equal. lia.
  - replace (Zneg n * 2 ^ k) with (Zneg (shift_nat (Z.to_nat k) n)).
    2:{ rewrite <- !Pos2Z.opp_pos, shift_nat_value, Z2Nat.id by lia. lia. }
    cbn [binary_normalize].
    destruct (binary_round_exact true n (shift_nat (Z.to_nat k) n) k Hk)
      as (m & E & V).
    + rewrite shift_nat_value, Z2Nat.id by lia. reflexivity.
    + apply digits_of_safe. lia.
    + rewrite E.
      pose proof (digits_of_safe n ltac:(lia)).
      rewrite (SF_to_Z_canonical true m n); [reflexivity|lia|].
      rewrite V. f_equal. f_equal. lia.
Qed.

(** The shape of a safe integer. *)
Lemma SF_to_Z_shape (x : spec_float) (X : Z) :
  valid_binary x = true -> Num.SF_to_Z x = Some X -> Num.safe X ->
  (X = 0 /\ exists s, x = S754_zero s)
  \/ (exists s m e N,
        x = S754_finite s m e /\ X = cond_Zopp s (Zpos N)
        /\ -52 <= e <= 0 /\ Zpos m = Zpos N * 2 ^ (- e)
        /\ Zpos (digits2_pos N) = 53 + e).
Proof.
  intros V T S. destruct x as [s|s| |s m e]; try discriminate.
  { left. simpl in T. inversion T. eauto. }
  right. simpl in V. destruct (bounded_spec m e V) as (Be & Dm & Nm).
  pose proof (digits2_pos_bounds m) as Bm.
  unfold Num.SF_to_Z in T. unfold Num.safe in S.
  assert (abs_lt : forall v, 0 < v -> X = cond_Zopp s v -> v < 2 ^ 53).
  { intros v Pv ->. destruct s; simpl in S; lia. }
  destruct (Z.leb_spec 0 e) as [H|H].
  - assert (T' : X = cond_Zopp s (Zpos m * 2 ^ e)) by congruence. clear T.
    assert (P : 0 < 2 ^ e) by (apply Z.pow_pos_nonneg; lia).
    pose proof (abs_lt (Zpos m * 2 ^ e) ltac:(lia) T') as L.
    assert (e = 0).
    { destruct (Z.eq_dec e 0) as [|Ne]; [assumption|exfalso].
      rewrite (Nm ltac:(lia)) in Bm.
      assert (2 ^ 1 <= 2 ^ e) by (apply Z.pow_le_mono_r; lia).
      change (2 ^ (53 - 1)) with 4503599627370496 in Bm.
      change (2 ^ 53) with 9007199254740992 in *. change (2 ^ 1) with 2 in *.
      nia. }
    subst e. exists s, m, 0, m. rewrite Z.pow_0_r, Z.mul_1_r in T'.
    split; [reflexivity|]. split; [assumption|]. split; [lia|].
    split; [rewrite Z.pow_0_r; lia|]. rewrite (Nm ltac:(lia)). lia.
  - assert (P : 0 < 2 ^ (- e)) by (apply Z.pow_pos_nonneg; lia).
    destruct (Z.eqb_spec (Zpos m mod 2 ^ (- e)) 0) as [M|M]; [|discriminate].
    assert (T' : X = cond_Zopp s (Zpos m / 2 ^ (- e))) by congruence. clear T.
    pose proof (Z.div_mod (Zpos m) (2 ^ (- e)) ltac:(lia)) as DM.
    rewrite M, Z.add_0_r in DM.
    set (q := Zpos m / 2 ^ (- e)) in *.
    assert (Pq : 0 < q) by nia.
    destruct q as [|N|N] eqn:Eq; try lia.
    assert (Le : - e < 53).
    { apply (Z.pow_lt_mono_r_iff 2); [lia|lia|].
      assert (Zpos m < 2 ^ 53).
      { eapply Z.lt_le_trans; [apply Bm|]. apply Z.pow_le_mono_r; lia. }
      nia. }
    exists s, m, e, N. split; [reflexivity|]. split; [assumption|].
    split; [lia|]. split; [lia|].
    assert (Em : m = shift_nat (Z.to_nat (- e)) N)
      by (apply shift_nat_of_value; lia).
    pose proof (shift_nat_digits (Z.to_nat (- e)) N) as Dg.
    rewrite <- Em, Z2Nat.id, (Nm ltac:(lia)) in Dg by lia. lia.
Qed.

Lemma cond_Zopp_negb (s : bool) (v : Z) : cond_Zopp (negb s) v = - cond_Zopp s v.
Proof. destruct s; simpl; lia. Qed.

Lemma SF_to_Z_opp (s : bool) (m : positive) (e : Z) (X : Z) :
  Num.SF_to_Z (S754_finite s m e) = Some X ->
  Num.SF_to_Z (S754_finite (negb s) m e) = Some (- X).
Proof.
  unfold Num.SF_to_Z. destruct (0 <=? e).
  - intro H. inversion H. now rewrite cond_Zopp_negb.
  - destruct (_ =? 0); [|discriminate].
    intro H. inversion H. now rewrite cond_Zopp_negb.
Qed.

(** The aligned mantissa of a safe integer. *)
Lemma aligned_value (s : bool) (m N : positive) (e ez : Z) :
  ez <= e -> e <= 0 -> Zpos m = Zpos N * 2 ^ (- e) ->
  cond_Zopp s (Zpos (fst (shl_align m e ez)))
  = cond_Zopp s (Zpos N) * 2 ^ (- ez).
Proof.
  intros H1 H2 Hm. rewrite shl_align_value by lia.
  rewrite Hm, <- Z.mul_assoc, <- Z.pow_add_r by lia.
  replace (- e + (e - ez)) with (- ez) by lia.
  destruct s; cbn [cond_Zopp]; [|reflexivity].
  now rewrite Z.mul_opp_l.
Qed.

Lemma SFsub_exact (x y : spec_float) (X Y : Z) :
  valid_binary x = true -> valid_binary y = true ->
  Num.SF_to_Z x = Some X -> Num.SF_to_Z y = Some Y ->
  Num.safe X -> Num.safe Y -> Num.safe (X - Y) ->
  Num.SF_to_Z (SF64sub x y) = Some (X - Y).
Proof.
  intros Vx Vy Tx Ty Sx Sy Sd.
  destruct (SF_to_Z_shape x X Vx Tx Sx)
    as [(-> & sx & ->)|(sx & mx & ex & Nx & -> & -> & Ex & Mx & _)];
  destruct (SF_to_Z_shape y Y Vy Ty Sy)
    as [(-> & sy & ->)|(sy & my & ey & Ny & -> & -> & Ey & My & _)].
  - unfold SF64sub, SFsub. now destruct sx, sy.
  - unfold SF64sub, SFsub. rewrite Z.sub_0_l. now apply SF_to_Z_opp.
  - unfold SF64sub, SFsub. now rewrite Z.sub_0_r.
  - unfold SF64sub, SFsub.
    rewrite (aligned_value sx mx Nx ex (Z.min ex ey)) by lia.
    rewrite (aligned_value sy my Ny ey (Z.min ex ey)) by lia.
    rewrite <- Z.mul_sub_distr_r.
    set (N := cond_Zopp sx (Zpos Nx) - cond_Zopp sy (Zpos Ny)) in *.
    destruct (Z.eq_dec N 0) as [->|H0]; [reflexivity|].
    replace (Z.min ex ey) with (- - Z.min ex ey) at 2 by lia.
    apply binary_normalize_exact; [assumption|assumption|lia].
Qed.

Lemma SFadd_exact (x y : spec_float) (X Y : Z) :
  valid_binary x = true -> valid_binary y = true ->
  Num.SF_to_Z x = Some X -> Num.SF_to_Z y = Some Y ->
  Num.safe X -> Num.safe Y -> Num.safe (X + Y) ->
  Num.SF_to_Z (SF64add x y) = Some (X + Y).
Proof.
  intros Vx Vy Tx Ty Sx Sy Sd.
  destruct (SF_to_Z_shape x X Vx Tx Sx)
    as [(-> & sx & ->)|(sx & mx & ex & Nx & -> & -> & Ex & Mx & _)];
  destruct (SF_to_Z_shape y Y Vy Ty Sy)
    as [(-> & sy & ->)|(sy & my & ey & Ny & -> & -> & Ey & My & _)].
  - unfold SF64add, SFadd. now destruct sx, sy.
  - unfold SF64add, SFadd. now rewrite Z.add_0_l.
  - unfold SF64add, SFadd. now rewrite Z.add_0_r.
  - unfold SF64add, SFadd.
    rewrite (aligned_value sx mx Nx ex (Z.min ex ey)) by lia.
    rewrite (aligned_value sy my Ny ey (Z.min ex ey)) by lia.
    rewrite <- Z.mul_add_distr_r.
    set (N := cond_Zopp sx (Zpos Nx) + cond_Zopp sy (Zpos Ny)) in *.
    destruct (Z.eq_dec N 0) as [->|H0]; [reflexivity|].
    replace (Z.min ex ey) with (- - Z.min ex ey) at 2 by lia.
    apply binary_normalize_exact; [assumption|assumption|lia].
Qed.

(** *** Integers are compared as integers *)

Lemma safe_digits_order (a b : positive) :
  Zpos (digits2_pos a) < Zpos (digits2_pos b) -> Zpos a < Zpos b.
Proof.
  intro H. pose proof (digits2_pos_bounds a) as [_ Ha].
  pose proof (digits2_pos_bounds b) as [Hb _].
  assert (2 ^ Zpos (digits2_pos a) <= 2 ^ (Zpos (digits2_pos b) - 1))
    by (apply Z.pow_le_mono_r; lia).
  lia.
Qed.

Lemma SFcompare_exact (x y : spec_float) (X Y : Z) :
  valid_binary x = true -> valid_binary y = true ->
  Num.SF_to_Z x = Some X -> Num.SF_to_Z y = Some Y ->
  Num.safe X -> Num.safe Y ->
  SFcompare x y = Some (X ?= Y).
Proof.
  intros Vx Vy Tx Ty Sx Sy.
  destruct (SF_to_Z_shape x X Vx Tx Sx)
    as [(-> & sx & ->)|(sx & mx & ex & Nx & -> & -> & Ex & Mx & Dx)];
  destruct (SF_to_Z_shape y Y Vy Ty Sy)
    as [(-> & sy & ->)|(sy & my & ey & Ny & -> & -> & Ey & My & Dy)].
  - reflexivity.
  - simpl. now destruct sy.
  - simpl. now destruct sx.
  - assert (Px : 0 < 2 ^ (- ex)) by (apply Z.pow_pos_nonneg; lia).
    assert (Same : ex = ey -> (Zpos mx ?= Zpos my) = (Zpos Nx ?= Zpos Ny)).
    { intro E. rewrite Mx, My, <- E. symmetry.
      apply Zmult_compare_compat_r. lia. }
    assert (Less : ex < ey -> Zpos Nx < Zpos Ny)
      by (intro; apply safe_digits_order; lia).
    assert (More : ey < ex -> Zpos Ny < Zpos Nx)
      by (intro; apply safe_digits_order; lia).
    unfold SFcompare. fold (Pos.compare mx my).
    change (Pos.compare mx my) with (Zpos mx ?= Zpos my).
    destruct sx, sy; cbn [cond_Zopp]; f_equal; try reflexivity.
    + destruct (Z.compare_spec ex ey) as [E|E|E].
      * rewrite (Same E), Z.compare_opp. symmetry. apply Z.compare_antisym.
      * symmetry. apply Z.compare_gt_iff. specialize (Less E). lia.
      * symmetry. apply Z.compare_lt_iff. specialize (More E). lia.
    + destruct (Z.compare_spec ex ey) as [E|E|E].
      * now rewrite (Same E).
      * symmetry. apply Z.compare_lt_iff. now apply Less.
      * symmetry. apply Z.compare_gt_iff. now apply More.
Qed.

(** *** What the actions rely on *)

Lemma to_Z_finite (a : float) (X : Z) :
  Num.to_Z a = Some X -> is_nan a = false /\ is_infinity a = false.
Proof.
  unfold Num.to_Z. intro H. split.
  - apply is_nan_false_iff. intro E. now rewrite E in H.
  - unfold is_infinity. rewrite eqb_spec, abs_spec.
    destruct (Prim2SF a) as [s|s| |s m e]; try discriminate; reflexivity.
Qed.

Lemma leb_exact (a b : float) (X Y : Z) :
  Num.to_Z a = Some X -> Num.to_Z b = Some Y -> Num.safe X -> Num.safe Y ->
  (a <=? b)%float = (X <=? Y).
Proof.
  intros Ta Tb Sa Sb. rewrite leb_spec. unfold SFleb.
  rewrite (SFcompare_exact _ _ X Y (Prim2SF_valid a) (Prim2SF_valid b) Ta Tb Sa Sb).
  unfold Z.leb. now destruct (X ?= Y).
Qed.

Lemma ltb_exact (a b : float) (X Y : Z) :
  Num.to_Z a = Some X -> Num.to_Z b = Some Y -> Num.safe X -> Num.safe Y ->
  (a <? b)%float = (X <? Y).
Proof.
  intros Ta Tb Sa Sb. rewrite ltb_spec. unfold SFltb.
  rewrite (SFcompare_exact _ _ X Y (Prim2SF_valid a) (Prim2SF_valid b) Ta Tb Sa Sb).
  unfold Z.ltb. now destruct (X ?= Y).
Qed.

Lemma sub_exact (a b : float) (X Y : Z) :
  Num.to_Z a = Some X -> Num.to_Z b = Some Y ->
  Num.safe X -> Num.safe Y -> Num.safe (X - Y) ->
  Num.to_Z (a - b) = Some (X - Y).
Proof.
  intros Ta Tb Sa Sb Sd. unfold Num.to_Z. rewrite sub_spec.
  apply SFsub_exact; auto using Prim2SF_valid.
Qed.

Lemma add_exact (a b : float) (X Y : Z) :
  Num.to_Z a = Some X -> Num.to_Z b = Some Y ->
  Num.safe X -> Num.safe Y -> Num.safe (X + Y) ->
  Num.to_Z (a + b) = Some (X + Y).
Proof.
  intros Ta Tb Sa Sb Sd. unfold Num.to_Z. rewrite add_spec.
  apply SFadd_exact; auto using Prim2SF_valid.
Qed.

Lemma to_Z_zero : Num.to_Z 0 = Some 0.
Proof. reflexivity. Qed.

Lemma safe_0 : Num.safe 0.
Proof. unfold Num.safe. split; reflexivity. Qed.

(** Adding the negated amount is subtracting the amount. *)
Lemma SFadd_opp prec emax (x y : spec_float) :
  SFadd prec emax x (SFopp y) = SFsub prec emax x y.
Proof.
  destruct x as [sx|sx| |sx mx ex], y as [sy|sy| |sy my ey];
    try reflexivity.
  - now destruct sx, sy.
  - now destruct sx, sy.
  - cbn [SFopp SFadd SFsub]. f_equal.
    destruct sy; cbn [negb cond_Zopp]; lia.
Qed.

Lemma add_opp (x y : float) : (x + - y)%float = (x - y)%float.
Proof.
  apply Prim2SF_inj. rewrite add_spec, opp_spec, sub_spec.
  apply SFadd_opp.
Qed.

(** The two zeros compare alike. *)
Lemma zero_sign (x : float) :
  (x =? 0)%float = true -> exists s, Prim2SF x = S754_zero s.
Proof.
  rewrite eqb_spec. change (Prim2SF 0) with (S754_zero false).
  destruct (Prim2SF x) as [s|s| |s m e]; try discriminate.
  - intros _. now exists s.
  - destruct s; discriminate.
  - destruct s; discriminate.
Qed.

Lemma leb_zero (r x : float) :
  (x =? 0)%float = true -> (r <=? x)%float = (r <=? 0)%float.
Proof.
  intro E. destruct (zero_sign x E) as [s H].
  rewrite !leb_spec, H. change (Prim2SF 0) with (S754_zero false).
  destruct (Prim2SF r) as [| | |]; destruct s; reflexivity.
Qed.

(** The sign of an integer. *)
Lemma to_Z_positive (a : float) (X : Z) :
  Num.to_Z a = Some X -> Num.safe X -> (0 <? a)%float = (0 <? X).
Proof. intros T S. exact (ltb_exact 0 a 0 X to_Z_zero T safe_0 S). Qed.

Lemma to_Z_nonneg (a : float) (X : Z) :
  Num.to_Z a = Some X -> Num.safe X -> (0 <=? a)%float = (0 <=? X).
Proof. intros T S. exact (leb_exact 0 a 0 X to_Z_zero T safe_0 S). Qed.

(** ** Lemmas on the store layer *)

Lemma key_eqb_refl (k : Key) : key_eqb k k = true.
Proof. destruct k; simpl; auto using String.eqb_refl. Qed.

Lemma okey_eqb_refl (k : option Key) : okey_eqb k k = true.
Proof. destruct k; simpl; auto using key_eqb_refl. Qed.

Lemma key_eqb_eq (a b : Key) : key_eqb a b = true <-> a = b.
Proof.
  destruct a, b; simpl; split; intro H; try congruence; auto.
  - apply String.eqb_eq in H. now subst.
  - inversion H. apply String.eqb_refl.
Qed.

Lemma find_none_all {A} (f : A -> bool) (l : list A) :
  (forall x, In x l -> f x = false) -> find f l = None.
Proof.
  induction l as [|a l IH]; simpl; intro H; [reflexivity|].
  rewrite H by now left. apply IH. intros x Hx. apply H. now right.
Qed.

(** An update that changes no indexed field is never refused. *)
Lemma dup_on_update_same_keys (s : Store) (old new : User) :
  (forall i, index_key i new = index_key i old) ->
  dup_on_update s old new = None.
Proof.
  intro H. unfold dup_on_update. apply find_none_all. intros i _.
  rewrite H. destruct (index_key i old); [|reflexivity].
  now rewrite okey_eqb_refl.
Qed.

Lemma matches_clerkId (q : Query) (u : User) :
  matches q u = true -> clerkId u = q_clerkId q.
Proof.
  unfold matches. intro H. apply andb_prop in H. destruct H as [H _].
  now apply String.eqb_eq.
Qed.

Lemma matches_by_clerkId (cid : string) (u : User) :
  matches (by_clerkId cid) u = String.eqb (clerkId u) cid.
Proof. unfold matches, by_clerkId; simpl. apply andb_true_r. Qed.

(** Under the [clerkId] index, a filter with a credit bound selects the
    account exactly when the account passes the bound. *)
Lemma find_query_unique (cid : string) (a : float) (s : Store) :
  unique_clerkIds s ->
  find (matches (mkQuery cid (Some a))) s =
  match account cid s with
  | Some u => if (a <=? credits u)%float then Some u else None
  | None => None
  end.
Proof.
  unfold unique_clerkIds, account.
  induction s as [|d r IH]; simpl; intro ND; [reflexivity|].
  inversion ND as [|? ? Hnin ND']; subst.
  rewrite matches_by_clerkId. unfold matches at 1; simpl.
  destruct (String.eqb (clerkId d) cid) eqn:E; simpl.
  - destruct (a <=? credits d)%float; [reflexivity|].
    apply String.eqb_eq in E. apply find_none_all. intros x Hx.
    destruct (matches (mkQuery cid (Some a)) x) eqn:Hm; [|reflexivity].
    apply matches_clerkId in Hm; simpl in Hm. exfalso. apply Hnin.
    rewrite E, <- Hm. now apply in_map.
  - now apply IH.
Qed.

Lemma map_clerkId_replace_first (f : User -> bool) (new : User) (s : Store) :
  (forall d, In d s -> f d = true -> clerkId d = clerkId new) ->
  map clerkId (replace_first f new s) = map clerkId s.
Proof.
  induction s as [|d r IH]; simpl; intro H; [reflexivity|].
  destruct (f d) eqn:E; simpl.
  - f_equal. symmetry. apply H; auto.
  - f_equal. apply IH. intros; apply H; auto.
Qed.

(** Replacing the account's document: the account now reads as the new
    document. *)
Lemma account_replace_first (f : User -> bool) (cid : string)
    (old new : User) (s : Store) :
  find f s = Some old -> account cid s = Some old -> clerkId new = cid ->
  account cid (replace_first f new s) = Some new.
Proof.
  unfold account. intros Hf Ha Hn.
  induction s as [|d r IH]; simpl in *; [discriminate|].
  rewrite matches_by_clerkId in *.
  destruct (f d) eqn:E.
  - simpl. rewrite matches_by_clerkId, Hn, String.eqb_refl. reflexivity.
  - simpl. rewrite matches_by_clerkId.
    destruct (String.eqb (clerkId d) cid) eqn:E2.
    + inversion Ha; subst d. apply find_some in Hf. destruct Hf as [_ Hf].
      congruence.
    + now apply IH.
Qed.

(** ... and every other account reads as before. *)
Lemma account_replace_first_other (f : User -> bool) (cid cid' : string)
    (new : User) (s : Store) :
  (forall d, f d = true -> clerkId d = cid) -> clerkId new = cid ->
  cid' <> cid ->
  account cid' (replace_first f new s) = account cid' s.
Proof.
  unfold account. intros Hf Hn Hne.
  induction s as [|d r IH]; simpl; [reflexivity|].
  destruct (f d) eqn:E; simpl; rewrite !matches_by_clerkId.
  - apply Hf in E.
    replace (String.eqb (clerkId new) cid') with false
      by (symmetry; apply String.eqb_neq; congruence).
    replace (String.eqb (clerkId d) cid') with false
      by (symmetry; apply String.eqb_neq; congruence).
    reflexivity.
  - destruct (String.eqb (clerkId d) cid'); auto.
Qed.

Lemma debit_update_keys (e : CreditHistoryEntry) (now : Z) (u : User) (i : Index) :
  index_key i (set_updatedAt now (debit_update e u)) = index_key i u.
Proof. destruct i; reflexivity. Qed.

(** A positive amount passes the guard and the cast. *)
Lemma positive_amount (a : float) :
  (0 <? a)%float = true -> (a <=? 0)%float = false /\ is_nan a = false.
Proof. intro H. destruct (positive_spec a H) as (G & N & _). now split. Qed.

(** [consumeBacktestCredits] as one conditional write. *)
Lemma debit_spec (cid : string) (d : Debit) (s : Store) :
  unique_clerkIds s ->
  debit cid d s =
  if (d_amount d <=? 0)%float then (Throw (Err "Amount must be > 0"), s)
  else if is_nan (d_amount d) then (Throw (CastError "credits"), s)
  else match account cid s with
       | Some u =>
           if (d_amount d <=? credits u)%float
           then let new := set_updatedAt (d_now d) (debit_update (entry_of d) u) in
                (Ok new,
                 replace_first (matches (mkQuery cid (Some (d_amount d)))) new s)
           else (Throw (Err "User not found or not enough credits"), s)
       | None => (Throw (Err "User not found or not enough credits"), s)
       end.
Proof.
  intro U. unfold debit, consumeBacktestCredits.
  destruct (d_amount d <=? 0)%float; [reflexivity|]. cbn [uncastable].
  destruct (is_nan (d_amount d)); [reflexivity|].
  unfold bind, findOneAndUpdate. rewrite find_query_unique by assumption.
  destruct (account cid s) as [u|]; [|reflexivity].
  destruct (d_amount d <=? credits u)%float; [|reflexivity].
  unfold write_update. fold (entry_of d).
  rewrite dup_on_update_same_keys by (intro; apply debit_update_keys).
  reflexivity.
Qed.

Lemma find_app_none {A} (f : A -> bool) (l1 l2 : list A) :
  find f l1 = None -> find f (l1 ++ l2) = find f l2.
Proof.
  induction l1 as [|a l IH]; simpl; [reflexivity|].
  destruct (f a); [discriminate | exact IH].
Qed.

Lemma find_app_some {A} (f : A -> bool) (l1 l2 : list A) (x : A) :
  find f l1 = Some x -> find f (l1 ++ l2) = Some x.
Proof.
  induction l1 as [|a l IH]; simpl; [discriminate|].
  destruct (f a); [auto | exact IH].
Qed.

Lemma find_query_account (cid : string) (a : float) (u : User) (s : Store) :
  unique_clerkIds s -> account cid s = Some u ->
  (a <=? credits u)%float = true ->
  find (matches (mkQuery cid (Some a))) s = Some u.
Proof.
  intros U Ha Hle. rewrite find_query_unique by assumption. rewrite Ha.
  now rewrite Hle.
Qed.

Lemma account_clerkId (cid : string) (u : User) (s : Store) :
  account cid s = Some u -> clerkId u = cid.
Proof.
  unfold account. intro H. apply find_some in H. destruct H as [_ H].
  now apply matches_clerkId in H.
Qed.

(** [$inc] by the negated amount takes the amount off. *)
Lemma credits_debit_update (e : CreditHistoryEntry) (now : Z) (u : User) :
  credits (set_updatedAt now (debit_update e u))
  = (credits u - creditsUsed e)%float.
Proof. cbn [debit_update set_updatedAt set_creditHistory set_credits credits]. apply add_opp. Qed.

(** A successful debit, seen on the account and on the others. *)
Lemma debit_success (cid : string) (d : Debit) (u : User) (s : Store) :
  unique_clerkIds s -> account cid s = Some u ->
  (0 <? d_amount d)%float = true ->
  (d_amount d <=? credits u)%float = true ->
  let u' := set_updatedAt (d_now d) (debit_update (entry_of d) u) in
  let s' := replace_first (matches (mkQuery cid (Some (d_amount d)))) u' s in
  debit cid d s = (Ok u', s')
  /\ account cid s' = Some u'
  /\ (forall cid', cid' <> cid -> account cid' s' = account cid' s)
  /\ unique_clerkIds s'.
Proof.
  intros U Ha Hpos Hle u' s'.
  pose proof (account_clerkId _ _ _ Ha) as Hc.
  destruct (positive_amount _ Hpos) as [G N].
  split; [|split; [|split]].
  - rewrite debit_spec by assumption. now rewrite G, N, Ha, Hle.
  - apply account_replace_first with (old := u); auto.
    now apply find_query_account.
  - intros cid' Hne. apply account_replace_first_other with (cid := cid); auto.
    intros x Hx. now apply matches_clerkId in Hx.
  - unfold unique_clerkIds, s'. rewrite map_clerkId_replace_first; auto.
    intros x _ Hx. apply matches_clerkId in Hx. simpl in *. congruence.
Qed.

(** Every debit either fails and writes nothing, or rewrites the account
    as [debit_update] says. *)
Lemma debit_outcome (cid : string) (d : Debit) (s : Store) :
  unique_clerkIds s ->
  (succeeded (fst (debit cid d s)) = false /\ snd (debit cid d s) = s)
  \/ (exists u,
        account cid s = Some u
        /\ (0 <? d_amount d)%float = true
        /\ (d_amount d <=? credits u)%float = true
        /\ succeeded (fst (debit cid d s)) = true
        /\ account cid (snd (debit cid d s))
           = Some (set_updatedAt (d_now d) (debit_update (entry_of d) u))
        /\ unique_clerkIds (snd (debit cid d s))).
Proof.
  intro U.
  destruct (d_amount d <=? 0)%float eqn:G.
  { left. rewrite debit_spec by assumption. rewrite G. now split. }
  destruct (is_nan (d_amount d)) eqn:N.
  { left. rewrite debit_spec by assumption. rewrite G, N. now split. }
  pose proof (positive_or_not _ G N) as Hp.
  destruct (account cid s) as [u|] eqn:Ha.
  - destruct (d_amount d <=? credits u)%float eqn:Hle.
    + right. exists u.
      destruct (debit_success cid d u s U Ha Hp Hle) as (E & A & _ & U').
      rewrite E; simpl. repeat split; auto.
    + left. rewrite debit_spec by assumption. rewrite G, N, Ha, Hle. now split.
  - left. rewrite debit_spec by assumption. rewrite G, N, Ha. now split.
Qed.

Lemma debit_step (cid : string) (d : Debit) (b : float) (s : Store) :
  unique_clerkIds s -> balance cid s = Some b ->
  unique_clerkIds (snd (debit cid d s))
  /\ (succeeded (fst (debit cid d s)) = true ->
      (0 <? d_amount d)%float = true
      /\ (d_amount d <=? b)%float = true
      /\ balance cid (snd (debit cid d s)) = Some (b - d_amount d)%float)
  /\ (succeeded (fst (debit cid d s)) = false -> snd (debit cid d s) = s).
Proof.
  intros U Hb. unfold balance in Hb.
  destruct (debit_outcome cid d s U) as [[F E]|(u & Ha & Hp & Hle & S & A & U')].
  - rewrite E. split; [exact U|]. split; [congruence | reflexivity].
  - rewrite Ha in Hb. simpl in Hb. inversion Hb; subst b; clear Hb.
    split; [exact U'|]. split; [|congruence].
    intros _. split; [exact Hp|]. split; [exact Hle|].
    unfold balance. rewrite A. cbn [option_map]. f_equal.
    apply credits_debit_update.
Qed.

(** One debit of an integer amount from an integer balance. *)
Lemma debit_exact (a b : float) (A B : Z) :
  Num.to_Z a = Some A -> Num.to_Z b = Some B -> Num.safe A -> Num.safe B ->
  (0 <? a)%float = true -> (a <=? b)%float = true ->
  Num.to_Z (b - a) = Some (B - A) /\ 0 < A <= B.
Proof.
  intros Ta Tb Sa Sb Hp Hle.
  rewrite (to_Z_positive a A Ta Sa) in Hp. apply Z.ltb_lt in Hp.
  rewrite (leb_exact a b A B Ta Tb Sa Sb) in Hle. apply Z.leb_le in Hle.
  split; [|lia]. apply sub_exact; auto. unfold Num.safe in *. lia.
Qed.

Lemma subtract_all_cons (b : float) (d : Debit) (ds : list Debit) :
  subtract_all b (d :: ds) = subtract_all (b - d_amount d) ds.
Proof. reflexivity. Qed.

(** A sequence of debits against one account: the balance it leaves, the
    sign of the balance on the way, and the balance as an integer. *)
Lemma debits_sequence (cid : string) (ds : list Debit) :
  forall (s : Store) (b : float),
    unique_clerkIds s -> balance cid s = Some b ->
    balance cid (run_debits cid ds s)
    = Some (subtract_all b (successful cid ds s))
    /\ ((0 <=? b)%float = true ->
        Forall (fun d => is_infinity (d_amount d) = false) ds ->
        Forall (fun st => exists b', balance cid st = Some b'
                                     /\ (0 <=? b')%float = true)
          (debit_states cid ds s))
    /\ (forall B,
          Num.to_Z b = Some B -> Num.safe B -> Forall integer_amount ds ->
          exists b', balance cid (run_debits cid ds s) = Some b'
                     /\ Num.to_Z b'
                        = Some (B - sum_amounts (successful cid ds s))).
Proof.
  induction ds as [|d r IH]; intros s b U Hb.
  - split; [exact Hb|]. split; [constructor|].
    intros B TB _ _. exists b. split; [exact Hb|]. rewrite TB. simpl.
    f_equal. lia.
  - destruct (debit_step cid d b s U Hb) as (U' & Hs & Hf).
    unfold run_debits in *. cbn [fold_left debit_states successful].
    destruct (debit cid d s) as [res s'] eqn:E; cbn [fst snd] in *.
    destruct (succeeded res) eqn:R.
    + destruct (Hs eq_refl) as (Hp & Hle & Hb').
      destruct (IH s' (b - d_amount d)%float U' Hb') as (I1 & I2 & I3).
      split; [|split].
      * rewrite I1. now rewrite subtract_all_cons.
      * intros H0 Hfin. inversion Hfin as [|? ? Hd Hr]; subst.
        assert (N : (0 <=? b - d_amount d)%float = true)
          by (apply sub_nonneg; assumption).
        constructor; [|now apply I2].
        exists (b - d_amount d)%float. now split.
      * intros B TB SB Hint. inversion Hint as [|? ? Hd Hr]; subst.
        destruct Hd as (A & TA & SA).
        destruct (debit_exact _ _ A B TA TB SA SB Hp Hle) as [TB' Hr'].
        destruct (I3 (B - A) TB') as (b' & Bb & Tb');
          [unfold Num.safe in *; lia | assumption |].
        exists b'. split; [exact Bb|]. rewrite Tb'. f_equal.
        cbn [sum_amounts fold_right]. rewrite TA. cbn [nullish].
        fold (sum_amounts (successful cid r s')). lia.
    + rewrite (Hf eq_refl) in *.
      destruct (IH s b U Hb) as (I1 & I2 & I3).
      split; [assumption|]. split.
      * intros H0 Hfin. inversion Hfin; subst. constructor; [|auto].
        exists b. auto.
      * intros B TB SB Hint. inversion Hint; subst. auto.
Qed.

(** ** Invariants of the collection *)

Section Preservation.

Variable I : Store -> Prop.

Lemma preserves_ret {A} (a : A) : preserves I (ret a).
Proof. intros s H; exact H. Qed.

Lemma preserves_throw {A} (e : Error) : preserves I (@throw Store A e).
Proof. intros s H; exact H. Qed.

Lemma preserves_bind {A B} (m : M Store A) (k : A -> M Store B) :
  preserves I m -> (forall a, preserves I (k a)) -> preserves I (bind m k).
Proof.
  intros Hm Hk s H. unfold bind. specialize (Hm s H).
  destruct (m s) as [[a|e] s']; simpl in *; [now apply Hk | assumption].
Qed.

Lemma preserves_try_catch {A} (m : M Store A) (h : Error -> M Store A) :
  preserves I m -> (forall e, preserves I (h e)) -> preserves I (try_catch m h).
Proof.
  intros Hm Hh s H. unfold try_catch. specialize (Hm s H).
  destruct (m s) as [[a|e] s']; simpl in *; [assumption | now apply Hh].
Qed.

Lemma preserves_or_throw {A} (msg : string) (x : option A) :
  preserves I (or_throw msg x).
Proof. destruct x; intros s H; exact H. Qed.

Lemma preserves_findOne (q : Query) : preserves I (findOne q).
Proof. intros s H; exact H. Qed.

Lemma preserves_exists_usernameLower (l : string) :
  preserves I (exists_usernameLower l).
Proof. intros s H; exact H. Qed.

Lemma preserves_write_update now q upd old s :
  update_keeps I now q upd -> I s -> find (matches q) s = Some old ->
  I (snd (write_update now q upd old s)).
Proof.
  intros K H F. unfold write_update.
  destruct (dup_on_update _ _ _) eqn:D; simpl; auto.
Qed.

Lemma preserves_findOneAndUpdate now q upd :
  update_keeps I now q upd -> preserves I (findOneAndUpdate now q upd).
Proof.
  intros K s H. unfold findOneAndUpdate.
  destruct (find (matches q) s) as [old|] eqn:F; [|exact H].
  pose proof (preserves_write_update now q upd old s K H F) as W.
  destruct (write_update now q upd old s) as [[u|e] s']; exact W.
Qed.

Lemma preserves_findOneAndUpsert now q upd ins :
  update_keeps I now q upd -> insert_keeps I now q ins ->
  preserves I (findOneAndUpsert now q upd ins).
Proof.
  intros K KI s H. unfold findOneAndUpsert.
  destruct (find (matches q) s) as [old|] eqn:F.
  - now apply preserves_write_update.
  - unfold write_insert. destruct (dup_on_insert _ _) eqn:D; simpl; auto.
Qed.

End Preservation.

(** *** Every action keeps a per-document invariant that its update keeps *)

Lemma Forall_replace_first (P : User -> Prop) f d' s :
  Forall P s -> P d' -> Forall P (replace_first f d' s).
Proof.
  induction 1 as [|d r Hd Hr IH]; simpl; intro H'; [constructor|].
  destruct (f d); constructor; auto.
Qed.

Section PerDocument.

Variable P : User -> Prop.
Hypothesis P_updatedAt : forall t u, P u -> P (set_updatedAt t u).

Lemma update_keeps_Forall now q upd :
  (forall old, matches q old = true -> P old -> P (upd old)) ->
  update_keeps (Forall P) now q upd.
Proof.
  intros Hu s old H F _. apply Forall_replace_first; auto.
  apply find_some in F. destruct F as [Hin Hm].
  apply P_updatedAt, Hu; auto. rewrite Forall_forall in H. auto.
Qed.

Lemma insert_keeps_Forall now q ins :
  (forall id, P (ins (schemaDefaults id now (q_clerkId q)))) ->
  insert_keeps (Forall P) now q ins.
Proof.
  intros Hi s H _ _. apply Forall_app. split; auto.
Qed.

End PerDocument.

(** *** The [clerkId] index *)

Lemma update_keeps_unique now q upd :
  (forall old, clerkId (upd old) = clerkId old) ->
  update_keeps unique_clerkIds now q upd.
Proof.
  intros Hc s old U F _. unfold unique_clerkIds in *.
  rewrite map_clerkId_replace_first; auto.
  intros d _ Hd. apply find_some in F. destruct F as [_ F].
  apply matches_clerkId in Hd, F. simpl. rewrite Hc. congruence.
Qed.

Lemma insert_keeps_unique now cid ins :
  (forall d, clerkId (ins d) = clerkId d) ->
  insert_keeps unique_clerkIds now (by_clerkId cid) ins.
Proof.
  intros Hc s U F _. unfold unique_clerkIds in *.
  rewrite map_app; simpl. rewrite Hc; simpl.
  apply NoDup_app; [assumption | repeat constructor; simpl; tauto |].
  intros x Hx [Hc'|[]]. subst x.
  apply in_map_iff in Hx. destruct Hx as (d & Hd & Hin).
  apply (find_none _ _ F) in Hin. rewrite matches_by_clerkId in Hin.
  apply String.eqb_neq in Hin. congruence.
Qed.

(** *** The unique indexes *)

Lemma okey_eqb_eq (a b : option Key) : okey_eqb a b = true <-> a = b.
Proof.
  destruct a, b; simpl; split; intro H; try congruence; auto.
  - apply key_eqb_eq in H. now subst.
  - inversion H. apply key_eqb_refl.
Qed.

Lemma holds_key_In (i : Index) (k : Key) (s : Store) :
  holds_key i k s = true <-> In k (keys i s).
Proof.
  unfold holds_key, keys. rewrite existsb_exists, in_flat_map.
  split; intros (d & Hin & H); exists d; split; auto; unfold entry_list in *;
    destruct (index_key i d) as [k'|]; simpl in *; try discriminate; try tauto.
  - apply key_eqb_eq in H. now left.
  - destruct H as [H|[]]. subst. apply key_eqb_refl.
Qed.

Lemma holds_key_false (i : Index) (k : Key) (s : Store) :
  holds_key i k s = false <-> ~ In k (keys i s).
Proof.
  rewrite <- holds_key_In. destruct (holds_key i k s); split; congruence.
Qed.

Lemma find_all_indexes_none (p : Index -> bool) :
  find p all_indexes = None -> forall i, p i = false.
Proof.
  intros H i. apply (find_none _ _ H). destruct i; simpl; tauto.
Qed.

(** The document that a write replaces, and what is around it. *)
Lemma replace_first_split (f : User -> bool) (old new : User) (s : Store) :
  find f s = Some old ->
  exists l1 l2, s = (l1 ++ old :: l2)
                /\ replace_first f new s = (l1 ++ new :: l2).
Proof.
  induction s as [|d r IH]; simpl; [discriminate|].
  destruct (f d) eqn:E; intro H.
  - inversion H; subst. now exists [], r.
  - destruct (IH H) as (l1 & l2 & -> & ->). now exists (d :: l1), l2.
Qed.

Lemma keys_app (i : Index) (a b : Store) :
  keys i (a ++ b) = (keys i a ++ keys i b).
Proof. apply flat_map_app. Qed.

Lemma keys_cons (i : Index) (d : User) (s : Store) :
  keys i (d :: s) = (entry_list i d ++ keys i s).
Proof. reflexivity. Qed.

Lemma NoDup_drop_mid {A} (l1 m l2 : list A) :
  NoDup (l1 ++ m ++ l2) -> NoDup (l1 ++ l2).
Proof.
  induction m as [|a m IH]; simpl; [auto|].
  intro H. apply IH. now apply NoDup_remove_1 in H.
Qed.

(** The index check is what keeps the indexes unique, whatever the write. *)
Lemma update_keeps_indexes now q upd : update_keeps indexes_ok now q upd.
Proof.
  intros s old H F D i. specialize (H i).
  pose proof (find_all_indexes_none _ D i) as Hi. simpl in Hi.
  destruct (replace_first_split _ old (set_updatedAt now (upd old)) s F)
    as (l1 & l2 & Es & Er).
  rewrite Er. rewrite Es in H. rewrite keys_app, keys_cons in *.
  set (new := set_updatedAt now (upd old)) in *.
  unfold entry_list at 1. destruct (index_key i new) as [k|] eqn:Kn.
  - apply andb_false_iff in Hi. destruct Hi as [Hi|Hi].
    + apply negb_false_iff, okey_eqb_eq in Hi.
      unfold entry_list in H. now rewrite Hi in H.
    + apply holds_key_false in Hi. rewrite Es, keys_app, keys_cons in Hi.
      simpl. apply NoDup_drop_mid in H.
      apply (NoDup_Add (Add_app k _ _)). split; [assumption|].
      intro Hin. apply Hi. apply in_app_or in Hin. apply in_or_app.
      destruct Hin; [now left | right; apply in_or_app; now right].
  - simpl. now apply NoDup_drop_mid in H.
Qed.

Lemma insert_keeps_indexes now q ins : insert_keeps indexes_ok now q ins.
Proof.
  intros s H _ D i. specialize (H i).
  pose proof (find_all_indexes_none _ D i) as Hi. simpl in Hi.
  rewrite keys_app. simpl keys. rewrite app_nil_r. unfold entry_list.
  destruct (index_key i _) as [k|]; [|now rewrite app_nil_r].
  apply holds_key_false in Hi.
  apply NoDup_app; [assumption | repeat constructor; simpl; tauto |].
  intros x Hx [<-|[]]. contradiction.
Qed.

(** Reduce the preservation of an invariant by an action to the writes the
    action performs. *)
Ltac preserve_step :=
  first
    [ apply preserves_ret | apply preserves_throw | apply preserves_or_throw
    | apply preserves_findOne | apply preserves_exists_usernameLower
    | apply preserves_bind | apply preserves_try_catch
    | apply preserves_findOneAndUpdate | apply preserves_findOneAndUpsert
    | match goal with
      | |- preserves _ (if ?b then _ else _) => destruct b eqn:?
      | |- preserves _ (match ?x with _ => _ end) => destruct x eqn:?
      | |- forall _, _ => intro
      end ].

Ltac preserve := repeat preserve_step.

Ltac as_preserves I :=
  match goal with
  | |- forall s, _ -> _ (snd (?m s)) => change (preserves I m)
  end.

(** [createUser] reaches the store only with a number that casts. *)
Lemma createUser_spec now user s :
  createUser now user s =
  if uncastable (in_credits user) then (Throw (CastError "credits"), s)
  else match account (in_clerkId user) s with
       | Some old =>
           write_update now (by_clerkId (in_clerkId user))
             (createUser_set user) old s
       | None =>
           write_insert now (by_clerkId (in_clerkId user))
             (fun d => createUser_setOnInsert user (createUser_set user d)) s
       end.
Proof. unfold createUser. now destruct (uncastable _). Qed.

Lemma createUser_set_fields user u :
  clerkId (createUser_set user u) = clerkId u
  /\ credits (createUser_set user u) = credits u
  /\ creditHistory (createUser_set user u) = creditHistory u.
Proof.
  unfold createUser_set. destruct (in_username user); [|repeat split].
  destruct (_ && _)%bool; repeat split.
Qed.

Lemma createUser_setOnInsert_fields user u :
  clerkId (createUser_setOnInsert user u) = clerkId u
  /\ credits (createUser_setOnInsert user u) = nullish (in_credits user) (credits u)
  /\ creditHistory (createUser_setOnInsert user u) = creditHistory u.
Proof. unfold createUser_setOnInsert. destruct (in_credits user); repeat split. Qed.

Ltac fields :=
  repeat first
    [ rewrite (proj1 (createUser_setOnInsert_fields _ _))
    | rewrite (proj1 (proj2 (createUser_setOnInsert_fields _ _)))
    | rewrite (proj2 (proj2 (createUser_setOnInsert_fields _ _)))
    | rewrite (proj1 (createUser_set_fields _ _))
    | rewrite (proj1 (proj2 (createUser_set_fields _ _)))
    | rewrite (proj2 (proj2 (createUser_set_fields _ _))) ];
  cbn -[firstn].

(** *** No two documents share a [clerkId] *)

Ltac keeps_unique :=
  first [ apply update_keeps_unique | apply insert_keeps_unique ];
  intro; fields; reflexivity.

Lemma apply_op_unique o s : unique_clerkIds s -> unique_clerkIds (apply_op o s).
Proof.
  destruct o; simpl; revert s; as_preserves unique_clerkIds;
    [ unfold createUser | unfold addCredits | unfold consumeBacktestCredits
    | unfold setUsername | unfold setSolanaWallet | unfold clearSolanaWallet
    | unfold updateUserTopCoins | unfold handleEvent, upsertFromEvent | ];
    preserve; keeps_unique.
Qed.

Lemma reachable_by_unique allowed s :
  reachable_by allowed s -> unique_clerkIds s.
Proof.
  induction 1; [constructor | now apply apply_op_unique].
Qed.

(** *** Credits stay non-negative, history stays within 50 entries *)

Lemma matches_creditsGte cid a u :
  matches (mkQuery cid (Some a)) u = true -> (a <=? credits u)%float = true.
Proof.
  unfold matches; simpl. intro H. now apply andb_prop in H.
Qed.

Ltac keeps P :=
  first [ apply (update_keeps_Forall P); [intros ? ? H; exact H |]
        | apply (insert_keeps_Forall P) ];
  unfold P; intros; fields; auto.

Lemma apply_op_credits o s :
  credits_input_ok o -> Forall credits_ok s -> Forall credits_ok (apply_op o s).
Proof.
  destruct o; simpl; intro A; revert s; as_preserves (Forall credits_ok);
    [ unfold createUser | unfold addCredits | unfold consumeBacktestCredits
    | unfold setUsername | unfold setSolanaWallet | unfold clearSolanaWallet
    | unfold updateUserTopCoins | unfold handleEvent, upsertFromEvent, createUser
    | ];
    preserve; keeps credits_ok; try reflexivity.
  - destruct (in_credits user); simpl; [assumption | reflexivity].
  - apply add_nonneg; [assumption|].
    match goal with
    | G : (_ <=? 0)%float = false, N : uncastable _ = false |- _ =>
        destruct (positive_spec _ (positive_or_not _ G N)) as (_ & _ & P)
    end.
    apply nonneg_spec.
    destruct P as [P|(m & e & P)]; rewrite P; exact I.
  - match goal with H : matches _ _ = true |- _ =>
      apply matches_creditsGte in H end.
    rewrite add_opp. apply sub_nonneg; auto.
    match goal with
    | G : (_ <=? 0)%float = false, N : uncastable _ = false |- _ =>
        exact (positive_or_not _ G N)
    end.
Qed.

Lemma apply_op_history o s :
  Forall history_ok s -> Forall history_ok (apply_op o s).
Proof.
  destruct o; simpl; revert s; as_preserves (Forall history_ok);
    [ unfold createUser | unfold addCredits | unfold consumeBacktestCredits
    | unfold setUsername | unfold setSolanaWallet | unfold clearSolanaWallet
    | unfold updateUserTopCoins | unfold handleEvent, upsertFromEvent | ];
    preserve; keeps history_ok; try lia.
  rewrite length_firstn. lia.
Qed.

(** *** The indexes stay unique, usernames stay paired with their shadow *)

Lemma apply_op_indexes o s : indexes_ok s -> indexes_ok (apply_op o s).
Proof.
  destruct o; simpl; revert s; as_preserves indexes_ok;
    [ unfold createUser | unfold addCredits | unfold consumeBacktestCredits
    | unfold setUsername | unfold setSolanaWallet | unfold clearSolanaWallet
    | unfold updateUserTopCoins | unfold handleEvent, upsertFromEvent | ];
    preserve;
    first [ apply update_keeps_indexes | apply insert_keeps_indexes ].
Qed.

Lemma createUser_set_names user u :
  names_ok u -> names_ok (createUser_set user u).
Proof.
  unfold names_ok, createUser_set. intro H.
  destruct (in_username user); [|exact H].
  destruct (_ && _)%bool; [reflexivity | exact H].
Qed.

Lemma createUser_setOnInsert_names user u :
  names_ok u -> names_ok (createUser_setOnInsert user u).
Proof.
  unfold names_ok, createUser_setOnInsert. intro H.
  destruct (in_credits user); exact H.
Qed.

Lemma apply_op_names o s : Forall names_ok s -> Forall names_ok (apply_op o s).
Proof.
  destruct o; simpl; revert s; as_preserves (Forall names_ok);
    [ unfold createUser | unfold addCredits | unfold consumeBacktestCredits
    | unfold setUsername | unfold setSolanaWallet | unfold clearSolanaWallet
    | unfold updateUserTopCoins | unfold handleEvent, upsertFromEvent | ];
    preserve;
    (first [ apply (update_keeps_Forall names_ok); [intros ? ? H; exact H |]
           | apply (insert_keeps_Forall names_ok) ]);
    intros;
    repeat first [ apply createUser_setOnInsert_names
                 | apply createUser_set_names ];
    auto; reflexivity.
Qed.

Lemma apply_op_wf o s : wf s -> wf (apply_op o s).
Proof.
  intros (U & X & N). split; [|split];
    [now apply apply_op_unique | now apply apply_op_indexes
    | now apply apply_op_names].
Qed.

Lemma reachable_by_wf allowed s : reachable_by allowed s -> wf s.
Proof.
  induction 1; [|now apply apply_op_wf].
  split; [|split]; [constructor | intro; constructor | constructor].
Qed.

Lemma firstn_app_firstn {A} (n : nat) (a b : list A) :
  firstn n (a ++ firstn n b) = firstn n (a ++ b).
Proof.
  rewrite !firstn_app, firstn_firstn. do 2 f_equal. lia.
Qed.

Lemma successful_cons cid d r s :
  successful cid (d :: r) s =
  if succeeded (fst (debit cid d s))
  then d :: successful cid r (snd (debit cid d s))
  else successful cid r (snd (debit cid d s)).
Proof. simpl. destruct (debit cid d s); reflexivity. Qed.

Lemma run_debits_cons cid d r s :
  run_debits cid (d :: r) s = run_debits cid r (snd (debit cid d s)).
Proof. reflexivity. Qed.

Lemma history_sequence (cid : string) (ds : list Debit) :
  forall (s : Store) (h : list CreditHistoryEntry),
    unique_clerkIds s -> history cid s = Some h ->
    (List.length h <= 50)%nat ->
    history cid (run_debits cid ds s)
    = Some (firstn 50 (rev (map entry_of (successful cid ds s)) ++ h)).
Proof.
  induction ds as [|d r IH]; intros s h U Hh Hl.
  - simpl. rewrite Hh. f_equal. symmetry. now apply firstn_all2.
  - rewrite run_debits_cons, successful_cons.
    destruct (debit_outcome cid d s U)
      as [[F E]|(u & Ha & _ & _ & S & A & U')].
    + rewrite F, E. now apply IH.
    + rewrite S.
      assert (Hu : creditHistory u = h).
      { unfold history in Hh. rewrite Ha in Hh. simpl in Hh. congruence. }
      rewrite (IH _ (firstn 50 (entry_of d :: h))); auto.
      * f_equal. rewrite firstn_app_firstn. simpl map. simpl rev.
        now rewrite <- app_assoc.
      * unfold history. rewrite A. cbn -[firstn]. now rewrite Hu.
      * rewrite length_firstn. lia.
Qed.

(** C1, amended.  [consumeBacktestCredits(userId, amount, {coin,
    strategy})] on a collection whose [clerkId]s are unique.  Every amount
    falls under one of the first four cases.
      - With [amount <= 0] it throws "Amount must be > 0" and the collection
        is unchanged.
      - With NaN it throws the cast error and the collection is unchanged.
      - With a positive amount, when the account is absent or its balance
        is not [>=] the amount, it throws "User not found or not enough
        credits" and the collection is unchanged.
      - Otherwise it returns the account as one write has left it: credits
        set to the binary64 difference [credits - amount], the entry in
        front of the history (cut to 50), every other account as it was.
        When the balance and the amount are integers below 2^53 in
        magnitude the difference is exact.
      - Hence after any sequence of debits against the account the balance
        is the initial balance with the amounts of the successful debits
        taken off one after the other, in binary64; when the initial
        balance and all amounts are integers below 2^53 in magnitude, that
        is the initial balance minus the sum of those amounts; and from a
        balance that is not negative, with amounts that are not infinite,
        the balance is not negative after any debit of the sequence. *)
Theorem C1_consumeBacktestCredits (cid : string) (s : Store) :
  unique_clerkIds s ->
  (forall amount,
      (amount <=? 0)%float = true \/ is_nan amount = true
      \/ (0 <? amount)%float = true)
  /\ (forall now amount coin strat,
      (amount <=? 0)%float = true ->
      consumeBacktestCredits now cid amount coin strat s
      = (Throw (Err "Amount must be > 0"), s))
  /\ (forall now amount coin strat,
      is_nan amount = true ->
      consumeBacktestCredits now cid amount coin strat s
      = (Throw (CastError "credits"), s))
  /\ (forall now amount coin strat,
      (0 <? amount)%float = true ->
      (balance cid s = None
       \/ exists b, balance cid s = Some b /\ (amount <=? b)%float = false) ->
      consumeBacktestCredits now cid amount coin strat s
      = (Throw (Err "User not found or not enough credits"), s))
  /\ (forall now amount coin strat u,
      (0 <? amount)%float = true -> account cid s = Some u ->
      (amount <=? credits u)%float = true ->
      exists u' s',
        consumeBacktestCredits now cid amount coin strat s = (Ok u', s')
        /\ account cid s' = Some u'
        /\ credits u' = (credits u - amount)%float
        /\ (forall B A,
              Num.to_Z (credits u) = Some B -> Num.to_Z amount = Some A ->
              Num.safe B -> Num.safe A ->
              Num.to_Z (credits u') = Some (B - A) /\ 0 < A <= B)
        /\ creditHistory u'
           = firstn 50 (mkEntry coin strat amount now :: creditHistory u)
        /\ forall cid', cid' <> cid -> account cid' s' = account cid' s)
  /\ (forall ds b,
      balance cid s = Some b ->
      balance cid (run_debits cid ds s)
      = Some (subtract_all b (successful cid ds s))
      /\ (forall B,
            Num.to_Z b = Some B -> Num.safe B -> Forall integer_amount ds ->
            exists b', balance cid (run_debits cid ds s) = Some b'
                       /\ Num.to_Z b'
                          = Some (B - sum_amounts (successful cid ds s)))
      /\ ((0 <=? b)%float = true ->
          Forall (fun d => is_infinity (d_amount d) = false) ds ->
          Forall (fun st => exists b', balance cid st = Some b'
                                       /\ (0 <=? b')%float = true)
            (debit_states cid ds s))).
Proof.
  intro U. split; [|split; [|split; [|split; [|split]]]].
  - intro amount. destruct (amount <=? 0)%float eqn:G; [now left|].
    destruct (is_nan amount) eqn:N; [now right; left|].
    right; right. now apply positive_or_not.
  - intros now amount coin strat Hle. unfold consumeBacktestCredits.
    now rewrite Hle.
  - intros now amount coin strat Hn.
    change (debit cid (mkDebit now amount coin strat) s
            = (Throw (CastError "credits"), s)).
    rewrite debit_spec by assumption. cbn [d_amount]. rewrite Hn.
    now destruct (amount <=? 0)%float eqn:G;
      [rewrite leb_spec, (is_nan_spec _ Hn) in G|].
  - intros now amount coin strat Hpos Hb.
    destruct (positive_amount _ Hpos) as [G N].
    change (debit cid (mkDebit now amount coin strat) s
            = (Throw (Err "User not found or not enough credits"), s)).
    rewrite debit_spec by assumption. cbn [d_amount]. rewrite G, N.
    unfold balance in Hb. destruct (account cid s) as [u|]; [|reflexivity].
    destruct Hb as [Hb|(b & Hb & Hlt)]; [discriminate|].
    simpl in Hb. inversion Hb; subst b. now rewrite Hlt.
  - intros now amount coin strat u Hpos Ha Hle.
    destruct (debit_success cid (mkDebit now amount coin strat) u s U Ha Hpos Hle)
      as (E & A & O & _).
    eexists; eexists. split; [exact E|]. split; [exact A|].
    split; [apply credits_debit_update|].
    split; [|split; [reflexivity|exact O]].
    intros B A' TB TA SB SA. rewrite credits_debit_update.
    exact (debit_exact amount (credits u) A' B TA TB SA SB Hpos Hle).
  - intros ds b Hb.
    destruct (debits_sequence cid ds s b U Hb) as (D1 & D2 & D3).
    split; [exact D1|]. split; [exact D3 | exact D2].
Qed.

(** C2, amended.  In every state reached from the empty collection by the
    writing operations, where each [createUser] call either leaves
    [credits] out or passes a value [>= 0] and no
    [consumeBacktestCredits] call passes an infinite amount, every account
    has [credits >= 0] (so not NaN either); and [createUser] without
    [credits], when it inserts, creates the account with 10 credits. *)
Theorem C2_credits_nonnegative (s : Store) :
  reachable_by credits_input_ok s ->
  Forall (fun u => (0 <=? credits u)%float = true) s
  /\ (forall now user,
        in_credits user = None -> account (in_clerkId user) s = None ->
        forall u s', createUser now user s = (Ok u, s') ->
                     credits u = 10%float
                     /\ account (in_clerkId user) s' = Some u).
Proof.
  intro R. split.
  - induction R; [constructor | now apply apply_op_credits].
  - intros now user Hc Ha u s' E. rewrite createUser_spec, Hc, Ha in E.
    cbn [uncastable] in E. unfold write_insert in E.
    destruct (dup_on_insert _ _); [discriminate|].
    inversion E; subst u s'; clear E. split.
    + fields. now rewrite Hc.
    + unfold account in *. rewrite find_app_none by assumption. simpl.
      rewrite matches_by_clerkId. fields. now rewrite String.eqb_refl.
Qed.

(** C3.  In every reachable state every [creditHistory] has at most 50
    entries.  A successful debit leaves the history as its entry followed by
    the old history, cut to 50; after a sequence of debits the history is
    the entries of the successful ones, newest first, followed by the old
    history, cut to 50; so after 51 successful debits it is exactly the
    entries of the last 50 of them, newest first: the oldest is gone. *)
Theorem C3_creditHistory_cap :
  (forall s, reachable s ->
     Forall (fun u => (List.length (creditHistory u) <= 50)%nat) s)
  /\ (forall cid d u s,
        unique_clerkIds s -> account cid s = Some u ->
        succeeded (fst (debit cid d s)) = true ->
        history cid (snd (debit cid d s))
        = Some (firstn 50 (entry_of d :: creditHistory u)))
  /\ (forall cid ds s h,
        unique_clerkIds s -> history cid s = Some h ->
        (List.length h <= 50)%nat ->
        history cid (run_debits cid ds s)
        = Some (firstn 50 (rev (map entry_of (successful cid ds s)) ++ h)))
  /\ (forall cid ds s h,
        unique_clerkIds s -> history cid s = Some h ->
        (List.length h <= 50)%nat ->
        List.length (successful cid ds s) = 51%nat ->
        history cid (run_debits cid ds s)
        = Some (rev (map entry_of (tl (successful cid ds s))))).
Proof.
  split; [|split; [|split]].
  - intros s R. induction R; [constructor | now apply apply_op_history].
  - intros cid d u s U Ha S.
    destruct (debit_outcome cid d s U)
      as [[F _]|(u' & Ha' & _ & _ & _ & A & _)].
    + congruence.
    + unfold history. rewrite A. rewrite Ha in Ha'. now inversion Ha'.
  - intros. now apply history_sequence.
  - intros cid ds s h U Hh Hl H51.
    rewrite (history_sequence cid ds s h U Hh Hl). f_equal.
    destruct (successful cid ds s) as [|e E]; [discriminate|].
    simpl in H51. injection H51 as H50. simpl tl. simpl map. simpl rev.
    rewrite <- app_assoc, firstn_app.
    rewrite length_rev, length_map, H50. simpl firstn at 2.
    rewrite app_nil_r. apply firstn_all2.
    rewrite length_rev, length_map. lia.
Qed.

(** ** Usernames *)

(** [setUsername], step by step. *)
Lemma setUsername_spec now cid raw s :
  setUsername now cid raw s =
  let desired := Str.trim raw in
  if negb (USERNAME_RE desired) then (Throw (Err msg_format), s)
  else if RESERVED_has (Str.toLowerCase desired)
  then (Throw (Err msg_reserved), s)
  else match account cid s with
       | None => (Throw (Err "User not found"), s)
       | Some old =>
           let new := set_updatedAt now (rename desired old) in
           match dup_on_update s old new with
           | Some i =>
               (Throw (if is_username_dup (MongoDup i) then Err msg_taken
                       else MongoDup i), s)
           | None => (Ok new, replace_first (matches (by_clerkId cid)) new s)
           end
       end.
Proof.
  unfold setUsername. cbv zeta.
  destruct (negb _); [reflexivity|].
  destruct (RESERVED_has _); [reflexivity|].
  unfold try_catch, bind, findOneAndUpdate, account, write_update.
  destruct (find _ s) as [old|]; [|reflexivity].
  fold (rename (Str.trim raw) old).
  destruct (dup_on_update _ _ _) as [i|]; [|reflexivity].
  destruct i; reflexivity.
Qed.

(** The only indexes that can refuse a rename are the two username
    indexes. *)
Lemma dup_on_rename now desired s old :
  dup_on_update s old (set_updatedAt now (rename desired old)) =
  if (negb (okey_eqb (index_key IdxUsername old) (Some (KStr desired)))
      && holds_key IdxUsername (KStr desired) s)%bool
  then Some IdxUsername
  else if (negb (okey_eqb (index_key IdxUsernameLower old)
                   (Some (KStr (Str.toLowerCase desired))))
           && holds_key IdxUsernameLower (KStr (Str.toLowerCase desired)) s)%bool
  then Some IdxUsernameLower
  else None.
Proof.
  unfold dup_on_update, all_indexes. cbn [find].
  change (index_key IdxClerkId (set_updatedAt now (rename desired old)))
    with (index_key IdxClerkId old).
  change (index_key IdxEmail (set_updatedAt now (rename desired old)))
    with (index_key IdxEmail old).
  change (index_key IdxSolanaWallet (set_updatedAt now (rename desired old)))
    with (index_key IdxSolanaWallet old).
  change (index_key IdxUsername (set_updatedAt now (rename desired old)))
    with (Some (KStr desired)).
  change (index_key IdxUsernameLower (set_updatedAt now (rename desired old)))
    with (Some (KStr (Str.toLowerCase desired))).
  assert (Same : forall i, match index_key i old with
                           | Some k => (negb (okey_eqb (index_key i old) (Some k))
                                        && holds_key i k s)%bool
                           | None => false
                           end = false).
  { intro i. destruct (index_key i old) as [k|] eqn:E; [|reflexivity].
    now rewrite okey_eqb_refl. }
  rewrite (Same IdxClerkId), (Same IdxEmail).
  destruct (_ && _)%bool; [reflexivity|].
  destruct (_ && _)%bool; [reflexivity|].
  now rewrite (Same IdxSolanaWallet).
Qed.

(** Within a unique index, an entry identifies its document. *)
Lemma index_entry_unique i k a b s :
  NoDup (keys i s) -> In a s -> In b s ->
  index_key i a = Some k -> index_key i b = Some k -> a = b.
Proof.
  intros ND Ha Hb Ka Kb.
  induction s as [|d r IH]; [contradiction|].
  rewrite keys_cons in ND.
  assert (Hr : forall x, In x r -> index_key i x = Some k -> In k (keys i r)).
  { intros x Hx Kx. unfold keys. apply in_flat_map. exists x. split; auto.
    unfold entry_list. rewrite Kx. now left. }
  assert (Hd : index_key i d = Some k -> ~ In k (keys i r)).
  { intro Kd. unfold entry_list in ND. rewrite Kd in ND. simpl in ND.
    now inversion ND. }
  destruct Ha as [<-|Ha], Hb as [<-|Hb]; auto.
  - exfalso. eapply Hd; eauto.
  - exfalso. eapply Hd; eauto.
  - apply IH; auto. eapply NoDup_app_remove_l; eauto.
Qed.

Lemma account_In cid u s : account cid s = Some u -> In u s.
Proof. unfold account. intro H. now apply find_some in H. Qed.

(** Under the [clerkId] index the account is the only document with its
    [clerkId]. *)
Lemma account_unique cid u d s :
  unique_clerkIds s -> account cid s = Some u -> In d s -> clerkId d = cid ->
  d = u.
Proof.
  unfold unique_clerkIds, account. intros U Ha Hd Hc.
  induction s as [|x r IH]; [contradiction|]. simpl in *.
  inversion U as [|? ? Hnin U']; subst.
  rewrite matches_by_clerkId in Ha.
  destruct (String.eqb (clerkId x) (clerkId d)) eqn:E.
  - inversion Ha; subst x. destruct Hd as [Hd|Hd]; [auto|].
    exfalso. apply Hnin. apply String.eqb_eq in E. rewrite E. now apply in_map.
  - destruct Hd as [Hd|Hd]; [subst; now rewrite String.eqb_refl in E|].
    now apply IH.
Qed.

Lemma holds_key_witness i k s :
  holds_key i k s = true -> exists d, In d s /\ index_key i d = Some k.
Proof.
  unfold holds_key. rewrite existsb_exists. intros (d & Hin & H). exists d.
  split; auto. destruct (index_key i d) as [k'|]; [|discriminate].
  apply key_eqb_eq in H. now subst.
Qed.

Lemma holds_key_intro i k d s :
  In d s -> index_key i d = Some k -> holds_key i k s = true.
Proof.
  intros Hin H. unfold holds_key. apply existsb_exists. exists d.
  split; auto. rewrite H. apply key_eqb_refl.
Qed.

(** A character that lower-cases to a-z is a letter. *)
Lemma lower_char_letter (c : ascii) :
  Str.is_lower (Str.lower_char c) = true -> Str.is_word_char c = true.
Proof.
  destruct c as [[] [] [] [] [] [] [] []]; vm_compute; congruence.
Qed.

Lemma toLowerCase_length (s : string) :
  String.length (Str.toLowerCase s) = String.length s.
Proof. induction s; simpl; congruence. Qed.

Lemma toLowerCase_letters (s : string) :
  Str.all_chars Str.is_lower (Str.toLowerCase s) = true ->
  Str.all_chars Str.is_word_char s = true.
Proof.
  induction s as [|c r IH]; simpl; [reflexivity|].
  intro H. apply andb_prop in H. destruct H as [H1 H2].
  now rewrite (lower_char_letter c H1), IH.
Qed.

(** Every casing of a reserved word of three characters or more passes the
    format rule. *)
Lemma reserved_casing_format (desired w : string) :
  In w RESERVED -> (3 <= String.length w)%nat ->
  Str.toLowerCase desired = w -> USERNAME_RE desired = true.
Proof.
  intros Hin Hlen E. unfold USERNAME_RE, Str.test_class.
  assert (P : (String.length w <= 20)%nat /\ Str.all_chars Str.is_lower w = true).
  { unfold RESERVED in Hin. simpl in Hin.
    repeat (destruct Hin as [<-|Hin]; [split; [simpl; lia | reflexivity]|]).
    contradiction. }
  destruct P as [P1 P2]. rewrite <- E in *. rewrite toLowerCase_length in *.
  apply toLowerCase_letters in P2. rewrite P2.
  apply Nat.leb_le in Hlen, P1. now rewrite Hlen, P1.
Qed.

Lemma RESERVED_has_In (w : string) : RESERVED_has w = true <-> In w RESERVED.
Proof.
  unfold RESERVED_has. rewrite existsb_exists. split.
  - intros (x & Hin & E). apply String.eqb_eq in E. now subst.
  - intro H. exists w. split; auto. apply String.eqb_refl.
Qed.

(** When the rename collides with another account. *)
Lemma rename_taken now desired cid u d s :
  indexes_ok s -> account cid s = Some u ->
  In d s -> clerkId d <> cid ->
  usernameLower d = Some (Str.toLowerCase desired) ->
  exists i, dup_on_update s u (set_updatedAt now (rename desired u)) = Some i
            /\ is_username_dup (MongoDup i) = true.
Proof.
  intros X Ha Hd Hne Hl. rewrite dup_on_rename.
  destruct (_ && _)%bool; [now exists IdxUsername|].
  assert (K : index_key IdxUsernameLower d = Some (KStr (Str.toLowerCase desired)))
    by (simpl; now rewrite Hl).
  rewrite (holds_key_intro _ _ d s Hd K), andb_true_r.
  destruct (okey_eqb _ _) eqn:E; simpl; [|now exists IdxUsernameLower].
  exfalso. apply okey_eqb_eq in E. apply Hne.
  rewrite (index_entry_unique _ _ u d s (X IdxUsernameLower)
             (account_In _ _ _ Ha) Hd E K) in Ha.
  now apply account_clerkId in Ha.
Qed.

(** An entry that only the account itself holds does not refuse the
    account's own write. *)
Lemma own_entry_not_refused i k cid u s :
  unique_clerkIds s -> account cid s = Some u ->
  (forall d, In d s -> index_key i d = Some k -> clerkId d = cid) ->
  (negb (okey_eqb (index_key i u) (Some k)) && holds_key i k s)%bool = false.
Proof.
  intros U Ha Hown.
  destruct (holds_key i k s) eqn:H; [|apply andb_false_r].
  apply holds_key_witness in H. destruct H as (d & Hd & K).
  rewrite <- (account_unique cid u d s U Ha Hd (Hown d Hd K)).
  now rewrite K, okey_eqb_refl.
Qed.

(** When no other account holds the name. *)
Lemma rename_free now desired cid u s :
  unique_clerkIds s -> Forall names_ok s -> account cid s = Some u ->
  (forall d, In d s -> clerkId d <> cid ->
             usernameLower d <> Some (Str.toLowerCase desired)) ->
  dup_on_update s u (set_updatedAt now (rename desired u)) = None.
Proof.
  intros U N Ha Hfree. rewrite dup_on_rename.
  rewrite !(own_entry_not_refused _ _ cid u s U Ha); [reflexivity| |].
  - intros d Hd K. destruct (string_dec (clerkId d) cid) as [Hc|Hc]; [auto|].
    exfalso. apply (Hfree d Hd Hc). simpl in K.
    destruct (usernameLower d); simpl in K; congruence.
  - intros d Hd K. destruct (string_dec (clerkId d) cid) as [Hc|Hc]; [auto|].
    exfalso. apply (Hfree d Hd Hc).
    rewrite Forall_forall in N. rewrite (N d Hd). simpl in K.
    destruct (username d); simpl in *; congruence.
Qed.

(** The reserved words have three characters or more, but for one. *)
Lemma reserved_length (w : string) :
  In w RESERVED -> w <> "me" -> (3 <= String.length w)%nat.
Proof.
  unfold RESERVED. intros Hin Hne. simpl in Hin.
  repeat (destruct Hin as [<-|Hin]; [first [simpl; lia | congruence]|]).
  contradiction.
Qed.

(** Every casing of "me" fails the format rule. *)
Lemma me_casing_format (desired : string) :
  Str.toLowerCase desired = "me" -> USERNAME_RE desired = false.
Proof.
  intro E. unfold USERNAME_RE, Str.test_class.
  rewrite <- (toLowerCase_length desired), E. reflexivity.
Qed.

(** C4, amended.  [setUsername] for an existing account of a well-formed
    collection, in the order of its checks:
      - when the trimmed input fails [/^[a-zA-Z0-9_]{3,20}$/] it throws the
        format message;
      - when the trimmed input passes and its lower-cased form is reserved
        it throws "That username is reserved.";
      - so every casing of a reserved word other than "me" gets the
        reserved message, and every casing of "me", which has two
        characters, gets the format message;
      - when the input passes both checks and another account holds the
        lower-cased name, it throws "That username is taken.";
      - otherwise one write sets [username] to the trimmed input and
        [usernameLower] to its lower-cased form on the caller's account,
        and every other account is as it was.
    A failure leaves the collection unchanged. *)
Theorem C4_setUsername (now : Z) (cid raw : string) (u : User) (s : Store) :
  wf s -> account cid s = Some u ->
  let desired := Str.trim raw in
  let lower := Str.toLowerCase desired in
  (USERNAME_RE desired = false ->
     setUsername now cid raw s = (Throw (Err msg_format), s))
  /\ (USERNAME_RE desired = true -> RESERVED_has lower = true ->
     setUsername now cid raw s = (Throw (Err msg_reserved), s))
  /\ (forall w, In w RESERVED -> lower = w ->
     (w <> "me" -> setUsername now cid raw s = (Throw (Err msg_reserved), s))
     /\ (w = "me" -> setUsername now cid raw s = (Throw (Err msg_format), s)))
  /\ (USERNAME_RE desired = true -> RESERVED_has lower = false ->
      (exists d, In d s /\ clerkId d <> cid /\ usernameLower d = Some lower) ->
      setUsername now cid raw s = (Throw (Err msg_taken), s))
  /\ (USERNAME_RE desired = true -> RESERVED_has lower = false ->
      (forall d, In d s -> clerkId d <> cid -> usernameLower d <> Some lower) ->
      exists u' s',
        setUsername now cid raw s = (Ok u', s')
        /\ account cid s' = Some u'
        /\ username u' = Some desired /\ usernameLower u' = Some lower
        /\ forall cid', cid' <> cid -> account cid' s' = account cid' s).
Proof.
  intros (U & X & N) Ha desired lower. rewrite setUsername_spec. cbv zeta.
  fold desired. fold lower. split; [|split; [|split; [|split]]].
  - intro F. now rewrite F.
  - intros F R. now rewrite F, R.
  - intros w Hin E. split.
    + intro Hne.
      rewrite (reserved_casing_format desired w Hin
                 (reserved_length w Hin Hne) E). cbn [negb].
      apply RESERVED_has_In in Hin. rewrite <- E in Hin. now rewrite Hin.
    + intros ->. now rewrite (me_casing_format desired E).
  - intros F R (d & Hd & Hne & Hl). rewrite F, R, Ha. cbn [negb]. cbv zeta.
    destruct (rename_taken now desired cid u d s X Ha Hd Hne Hl) as (i & D & T).
    now rewrite D, T.
  - intros F R Hfree. rewrite F, R, Ha. cbn [negb]. cbv zeta.
    rewrite (rename_free now desired cid u s U N Ha Hfree).
    eexists; eexists. split; [reflexivity|]. split; [|split; [|split]].
    + apply account_replace_first with (old := u); auto.
      now apply account_clerkId in Ha.
    + reflexivity.
    + reflexivity.
    + intros cid' Hne. apply account_replace_first_other with (cid := cid); auto.
      * intros x Hx. now apply matches_clerkId in Hx.
      * now apply account_clerkId in Ha.
Qed.


(** ** [createUser] *)

Lemma createUser_castable now user s :
  uncastable (in_credits user) = false ->
  createUser now user s =
  match account (in_clerkId user) s with
  | Some old =>
      write_update now (by_clerkId (in_clerkId user)) (createUser_set user) old s
  | None =>
      write_insert now (by_clerkId (in_clerkId user))
        (fun d => createUser_setOnInsert user (createUser_set user d)) s
  end.
Proof. intro H. now rewrite createUser_spec, H. Qed.

(** A call that succeeds carried a number that casts. *)
Lemma createUser_ok_castable now user s u s' :
  createUser now user s = (Ok u, s') -> uncastable (in_credits user) = false.
Proof.
  rewrite createUser_spec. now destruct (uncastable (in_credits user)).
Qed.

(** A refused write changes nothing. *)
Lemma write_update_throw now q upd old s e s' :
  write_update now q upd old s = (Throw e, s') -> s' = s.
Proof.
  unfold write_update. destruct (dup_on_update _ _ _); intro H; now inversion H.
Qed.

Lemma write_insert_throw now q ins s e s' :
  write_insert now q ins s = (Throw e, s') -> s' = s.
Proof.
  unfold write_insert. destruct (dup_on_insert _ _); intro H; now inversion H.
Qed.

Lemma createUser_throw now user s e s' :
  createUser now user s = (Throw e, s') -> s' = s.
Proof.
  rewrite createUser_spec.
  destruct (uncastable _); [intro H; now inversion H|].
  destruct (account _ s).
  - apply write_update_throw.
  - apply write_insert_throw.
Qed.

(** Setting the same profile twice is setting it once. *)
Lemma createUser_set_idem user u :
  createUser_set user (createUser_set user u) = createUser_set user u.
Proof.
  unfold createUser_set. destruct (in_username user); [|reflexivity].
  destruct (_ && _)%bool; reflexivity.
Qed.

Lemma createUser_set_updatedAt user t u :
  createUser_set user (set_updatedAt t u) = set_updatedAt t (createUser_set user u).
Proof.
  unfold createUser_set. destruct (in_username user); [|reflexivity].
  destruct (_ && _)%bool; reflexivity.
Qed.

Lemma createUser_set_setOnInsert user u :
  createUser_set user (createUser_setOnInsert user u)
  = createUser_setOnInsert user (createUser_set user u).
Proof.
  unfold createUser_set, createUser_setOnInsert.
  destruct (in_credits user); destruct (in_username user); try reflexivity;
    destruct (_ && _)%bool; reflexivity.
Qed.

Lemma createUser_set_keys_idem user t u i :
  index_key i (set_updatedAt t (createUser_set user (createUser_set user u)))
  = index_key i (createUser_set user u).
Proof. rewrite createUser_set_idem. destruct i; reflexivity. Qed.

Lemma account_app_new cid d s :
  account cid s = None -> clerkId d = cid -> account cid (s ++ [d]) = Some d.
Proof.
  unfold account. intros H Hc. rewrite find_app_none by assumption. simpl.
  now rewrite matches_by_clerkId, Hc, String.eqb_refl.
Qed.

Lemma account_app_other cid cid' d s :
  clerkId d = cid -> cid' <> cid -> account cid' (s ++ [d]) = account cid' s.
Proof.
  unfold account. intros Hc Hne.
  destruct (find (matches (by_clerkId cid')) s) as [x|] eqn:F.
  - now apply find_app_some.
  - rewrite find_app_none by assumption. simpl.
    rewrite matches_by_clerkId, Hc.
    now replace (String.eqb cid cid') with false
      by (symmetry; apply String.eqb_neq; congruence).
Qed.

(** What a successful [createUser] leaves behind. *)
Lemma createUser_ok now user s u s' :
  createUser now user s = (Ok u, s') ->
  account (in_clerkId user) s' = Some u
  /\ createUser_set user u = u
  /\ updatedAt u = now
  /\ (forall cid', cid' <> in_clerkId user -> account cid' s' = account cid' s)
  /\ List.length s' = match account (in_clerkId user) s with
                      | Some _ => List.length s
                      | None => S (List.length s)
                      end.
Proof.
  intro E0. pose proof (createUser_ok_castable _ _ _ _ _ E0) as Hcast.
  revert E0. rewrite (createUser_castable _ _ _ Hcast).
  destruct (account (in_clerkId user) s) as [old|] eqn:Ha.
  - unfold write_update. destruct (dup_on_update _ _ _); [discriminate|].
    intro H. inversion H; subst u s'; clear H.
    pose proof (account_clerkId _ _ _ Ha) as Hc.
    split; [|split; [|split; [|split]]].
    + apply account_replace_first with (old := old); auto.
      simpl. now rewrite (proj1 (createUser_set_fields user old)).
    + now rewrite createUser_set_updatedAt, createUser_set_idem.
    + reflexivity.
    + intros cid' Hne.
      apply account_replace_first_other with (cid := in_clerkId user); auto.
      * intros x Hx. now apply matches_clerkId in Hx.
      * simpl. now rewrite (proj1 (createUser_set_fields user old)).
    + clear. induction s as [|d r IH]; simpl; [reflexivity|].
      destruct (matches _ d); simpl; congruence.
  - unfold write_insert. destruct (dup_on_insert _ _); [discriminate|].
    intro H. inversion H; subst u s'; clear H.
    split; [|split; [|split; [|split]]].
    + apply account_app_new; auto. now fields.
    + now rewrite createUser_set_setOnInsert, createUser_set_idem.
    + unfold createUser_setOnInsert. destruct (in_credits user);
        unfold createUser_set; destruct (in_username user); try reflexivity;
        destruct (_ && _)%bool; reflexivity.
    + intros cid' Hne. apply account_app_other with (cid := in_clerkId user); auto.
      now fields.
    + rewrite length_app. simpl. lia.
Qed.

Lemma replace_first_same (f : User -> bool) (u : User) (s : Store) :
  find f s = Some u -> replace_first f u s = s.
Proof.
  induction s as [|d r IH]; simpl; [reflexivity|].
  destruct (f d); intro H; [now inversion H | now rewrite IH].
Qed.

Lemma set_updatedAt_same u : set_updatedAt (updatedAt u) u = u.
Proof. now destruct u. Qed.

Lemma filter_none {A} (f : A -> bool) (l : list A) :
  (forall x, In x l -> f x = false) -> filter f l = [].
Proof.
  induction l as [|a l IH]; simpl; intro H; [reflexivity|].
  rewrite H by now left. apply IH. intros x Hx. apply H. now right.
Qed.

(** Under the [clerkId] index an existing account is one document. *)
Lemma one_document cid u s :
  unique_clerkIds s -> account cid s = Some u ->
  List.length (filter (matches (by_clerkId cid)) s) = 1%nat.
Proof.
  unfold unique_clerkIds, account. intros U.
  induction s as [|d r IH]; simpl; [discriminate|].
  inversion U as [|? ? Hnin U']; subst.
  destruct (matches (by_clerkId cid) d) eqn:E; intro H.
  - simpl. f_equal. rewrite filter_none; [reflexivity|].
    intros x Hx. destruct (matches (by_clerkId cid) x) eqn:Ex; [|reflexivity].
    exfalso. apply Hnin. apply matches_clerkId in E, Ex. simpl in *.
    rewrite E, <- Ex. now apply in_map.
  - now apply IH.
Qed.

Lemma length_replace_first f d' s :
  List.length (replace_first f d' s) = List.length s.
Proof.
  induction s as [|d r IH]; simpl; [reflexivity|].
  destruct (f d); simpl; congruence.
Qed.

(** The profile that [createUser] writes on every call. *)
Lemma createUser_set_profile user u :
  email (createUser_set user u)
  = Some (Str.trim (Str.toLowerCase (in_email user)))
  /\ firstName (createUser_set user u) = nullish (in_firstName user) ""
  /\ lastName (createUser_set user u) = nullish (in_lastName user) ""
  /\ (username (createUser_set user u), usernameLower (createUser_set user u))
     = match in_username user with
       | Some n =>
           if (Str.truthy n && Str.truthy (Str.trim n))%bool
           then (Some (Str.trim n), Some (Str.toLowerCase (Str.trim n)))
           else (username u, usernameLower u)
       | None => (username u, usernameLower u)
       end.
Proof.
  unfold createUser_set. destruct (in_username user); [|repeat split].
  destruct (_ && _)%bool; repeat split.
Qed.

(** ... and what it never touches on an existing document. *)
Lemma createUser_set_rest user u :
  let u' := createUser_set user u in
  _id u' = _id u /\ clerkId u' = clerkId u
  /\ subscriptionTier u' = subscriptionTier u /\ customerId u' = customerId u
  /\ credits u' = credits u /\ creditHistory u' = creditHistory u
  /\ topCoins u' = topCoins u /\ solanaWallet u' = solanaWallet u
  /\ deletedAt u' = deletedAt u /\ createdAt u' = createdAt u.
Proof.
  unfold createUser_set. destruct (in_username user); [|repeat split].
  destruct (_ && _)%bool; repeat split.
Qed.

(** C6, amended.  When [createUser] succeeds, calling it again with the
    same input (at any later time [t2]) succeeds too and returns the same
    document with [updatedAt] moved to [t2]: no document is added, the
    account is the one document with its [clerkId], every other account is
    as it was, and at [t2 = t1] the collection does not change at all.
    On an account that already exists the call sets [email] (lower-cased,
    trimmed), [firstName], [lastName], and [username] / [usernameLower]
    when a username is supplied; besides [updatedAt] it leaves everything
    else -- [subscriptionTier], [customerId], [credits], [creditHistory],
    [topCoins], [solanaWallet], [_id], [createdAt], [deletedAt] -- as it
    was. *)
Theorem C6_createUser_idempotent (t1 t2 : Z) (user : CreateUserInput)
    (s s1 : Store) (u1 : User) :
  unique_clerkIds s ->
  createUser t1 user s = (Ok u1, s1) ->
  let cid := in_clerkId user in
  let s2 := snd (createUser t2 user s1) in
  fst (createUser t2 user s1) = Ok (set_updatedAt t2 u1)
  /\ account cid s2 = Some (set_updatedAt t2 u1)
  /\ List.length s2 = List.length s1
  /\ List.length (filter (matches (by_clerkId cid)) s2) = 1%nat
  /\ (forall cid', cid' <> cid -> account cid' s2 = account cid' s1)
  /\ (t2 = t1 -> createUser t2 user s1 = (Ok u1, s1))
  /\ (forall old, account cid s = Some old ->
        List.length s1 = List.length s
        /\ email u1 = Some (Str.trim (Str.toLowerCase (in_email user)))
        /\ firstName u1 = nullish (in_firstName user) ""
        /\ lastName u1 = nullish (in_lastName user) ""
        /\ (username u1, usernameLower u1)
           = match in_username user with
             | Some n =>
                 if (Str.truthy n && Str.truthy (Str.trim n))%bool
                 then (Some (Str.trim n), Some (Str.toLowerCase (Str.trim n)))
                 else (username old, usernameLower old)
             | None => (username old, usernameLower old)
             end
        /\ _id u1 = _id old /\ clerkId u1 = clerkId old
        /\ subscriptionTier u1 = subscriptionTier old
        /\ customerId u1 = customerId old
        /\ credits u1 = credits old /\ creditHistory u1 = creditHistory old
        /\ topCoins u1 = topCoins old /\ solanaWallet u1 = solanaWallet old
        /\ deletedAt u1 = deletedAt old /\ createdAt u1 = createdAt old).
Proof.
  intros U E cid s2.
  destruct (createUser_ok _ _ _ _ _ E) as (A1 & Idem & Hup & Oth & Len).
  fold cid in A1, Oth, Len.
  assert (U1 : unique_clerkIds s1).
  { change s1 with (snd (Ok u1, s1)). rewrite <- E.
    exact (apply_op_unique (OpCreateUser t1 user) s U). }
  assert (E2 : createUser t2 user s1
               = (Ok (set_updatedAt t2 u1),
                  replace_first (matches (by_clerkId cid)) (set_updatedAt t2 u1) s1)).
  { rewrite (createUser_castable _ _ _ (createUser_ok_castable _ _ _ _ _ E)).
    fold cid. rewrite A1. unfold write_update.
    rewrite Idem. rewrite dup_on_update_same_keys; [reflexivity|].
    intro i; destruct i; reflexivity. }
  assert (A2 : account cid s2 = Some (set_updatedAt t2 u1)).
  { unfold s2. rewrite E2. simpl.
    apply account_replace_first with (old := u1); auto.
    simpl. now apply account_clerkId in A1. }
  split; [now rewrite E2|]. split; [exact A2|].
  split; [unfold s2; rewrite E2; apply length_replace_first|].
  split.
  { apply one_document with (u := set_updatedAt t2 u1); auto.
    exact (apply_op_unique (OpCreateUser t2 user) s1 U1). }
  split.
  { intros cid' Hne. unfold s2. rewrite E2. simpl.
    apply account_replace_first_other with (cid := cid); auto.
    - intros x Hx. now apply matches_clerkId in Hx.
    - simpl. now apply account_clerkId in A1. }
  split.
  { intros ->. rewrite E2, <- Hup, set_updatedAt_same.
    now rewrite replace_first_same. }
  intros old Ha. rewrite Ha in Len. split; [exact Len|].
  rewrite (createUser_castable _ _ _ (createUser_ok_castable _ _ _ _ _ E)) in E.
  fold cid in E. rewrite Ha in E.
  unfold write_update in E. destruct (dup_on_update _ _ _); [discriminate|].
  inversion E; subst u1 s1; clear E.
  destruct (createUser_set_profile user old) as (P1 & P2 & P3 & P4).
  destruct (createUser_set_rest user old)
    as (R1 & R2 & R3 & R4 & R5 & R6 & R7 & R8 & R9 & R10).
  cbn [set_updatedAt email firstName lastName username usernameLower _id
       clerkId subscriptionTier customerId credits creditHistory topCoins
       solanaWallet deletedAt createdAt].
  repeat split; assumption.
Qed.

(** ** Wallets *)

Lemma refused_same_key s old new i :
  index_key i new = index_key i old -> refused s old new i = false.
Proof.
  unfold refused. intros ->. destruct (index_key i old); [|reflexivity].
  now rewrite okey_eqb_refl.
Qed.

Lemma dup_on_update_refused s old new :
  dup_on_update s old new = find (refused s old new) all_indexes.
Proof. reflexivity. Qed.

(** A write that changes the wallet alone is checked by the wallet index
    alone. *)
Lemma dup_on_wallet_update now w s old :
  dup_on_update s old (set_updatedAt now (set_solanaWallet (Some w) old)) =
  if (negb (okey_eqb (index_key IdxSolanaWallet old) (Some (KStr w)))
      && holds_key IdxSolanaWallet (KStr w) s)%bool
  then Some IdxSolanaWallet else None.
Proof.
  rewrite dup_on_update_refused. unfold all_indexes. cbn [find].
  rewrite !refused_same_key by reflexivity.
  unfold refused. cbn [index_key set_updatedAt set_solanaWallet solanaWallet option_map].
  now destruct (_ && _)%bool.
Qed.

Lemma setSolanaWallet_spec now cid raw s :
  setSolanaWallet now cid raw s =
  let address := Str.trim raw in
  if negb (isValidSolAddress address) then (Throw (Err msg_wallet_format), s)
  else match account cid s with
       | None => (Throw (Err "User not found"), s)
       | Some old =>
           let new := set_updatedAt now (set_solanaWallet (Some address) old) in
           if (negb (okey_eqb (index_key IdxSolanaWallet old) (Some (KStr address)))
               && holds_key IdxSolanaWallet (KStr address) s)%bool
           then (Throw (Err msg_wallet_taken), s)
           else (Ok new, replace_first (matches (by_clerkId cid)) new s)
       end.
Proof.
  unfold setSolanaWallet. cbv zeta.
  destruct (negb _); [reflexivity|].
  unfold try_catch, bind, findOneAndUpdate, account, write_update.
  destruct (find _ s) as [old|]; [|reflexivity].
  rewrite dup_on_wallet_update. now destruct (_ && _)%bool.
Qed.

(** Clearing writes the empty string, and the wallet index checks it like
    any other value; the duplicate-key error is not translated. *)
Lemma clearSolanaWallet_spec now cid s :
  clearSolanaWallet now cid s =
  match account cid s with
  | None => (Throw (Err "User not found"), s)
  | Some old =>
      let new := set_updatedAt now (set_solanaWallet (Some "") old) in
      if (negb (okey_eqb (index_key IdxSolanaWallet old) (Some (KStr "")))
          && holds_key IdxSolanaWallet (KStr "") s)%bool
      then (Throw (MongoDup IdxSolanaWallet), s)
      else (Ok new, replace_first (matches (by_clerkId cid)) new s)
  end.
Proof.
  unfold clearSolanaWallet, bind, findOneAndUpdate, account, write_update.
  destruct (find _ s) as [old|]; [|reflexivity].
  rewrite dup_on_wallet_update. now destruct (_ && _)%bool.
Qed.

(** The empty string is no valid address. *)
Lemma empty_wallet_not_an_address (addr : string) :
  isValidSolAddress addr = true -> addr <> "".
Proof. intros H ->. discriminate. Qed.

(** A valid address that no other account holds is accepted. *)
Lemma setSolanaWallet_free now cid raw u s :
  unique_clerkIds s -> account cid s = Some u ->
  isValidSolAddress (Str.trim raw) = true ->
  (forall d, In d s -> clerkId d <> cid -> solanaWallet d <> Some (Str.trim raw)) ->
  exists u' s',
    setSolanaWallet now cid raw s = (Ok u', s')
    /\ account cid s' = Some u' /\ solanaWallet u' = Some (Str.trim raw).
Proof.
  intros U Ha V Hfree. rewrite setSolanaWallet_spec. cbv zeta.
  rewrite V, Ha. cbn [negb].
  rewrite (own_entry_not_refused IdxSolanaWallet _ cid u s U Ha).
  - eexists; eexists. split; [reflexivity|]. split; [|reflexivity].
    apply account_replace_first with (old := u); auto.
    now apply account_clerkId in Ha.
  - intros d Hd K. destruct (string_dec (clerkId d) cid) as [Hc|Hc]; [auto|].
    exfalso. apply (Hfree d Hd Hc). simpl in K.
    destruct (solanaWallet d); simpl in K; congruence.
Qed.

(** An address that another account holds is refused as already connected. *)
Lemma setSolanaWallet_taken now cid raw u d s :
  indexes_ok s -> account cid s = Some u ->
  isValidSolAddress (Str.trim raw) = true ->
  In d s -> clerkId d <> cid -> solanaWallet d = Some (Str.trim raw) ->
  setSolanaWallet now cid raw s = (Throw (Err msg_wallet_taken), s).
Proof.
  intros X Ha V Hd Hne Hw. rewrite setSolanaWallet_spec. cbv zeta.
  rewrite V, Ha. cbn [negb].
  assert (K : index_key IdxSolanaWallet d = Some (KStr (Str.trim raw)))
    by (simpl; now rewrite Hw).
  rewrite (holds_key_intro _ _ d s Hd K), andb_true_r.
  destruct (okey_eqb _ _) eqn:E; [|reflexivity].
  exfalso. apply okey_eqb_eq in E. apply Hne.
  rewrite (index_entry_unique _ _ u d s (X IdxSolanaWallet)
             (account_In _ _ _ Ha) Hd E K) in Ha.
  now apply account_clerkId in Ha.
Qed.

(** Clearing is refused exactly when the account holds a wallet and some
    document already has the empty string. *)
Lemma clearSolanaWallet_refused now cid u s :
  account cid s = Some u ->
  (clearSolanaWallet now cid s = (Throw (MongoDup IdxSolanaWallet), s)
   <-> solanaWallet u <> Some ""
       /\ exists d, In d s /\ solanaWallet d = Some "").
Proof.
  intro Ha. rewrite clearSolanaWallet_spec, Ha. cbv zeta.
  destruct (okey_eqb (index_key IdxSolanaWallet u) (Some (KStr ""))) eqn:E;
    cbn [negb andb].
  - apply okey_eqb_eq in E. simpl in E. split; [discriminate|].
    intros [H _]. exfalso. apply H.
    destruct (solanaWallet u); simpl in E; congruence.
  - assert (Hu : solanaWallet u <> Some "").
    { intro H. simpl in E. rewrite H in E. simpl in E. discriminate. }
    destruct (holds_key IdxSolanaWallet (KStr "") s) eqn:H.
    + split; [|reflexivity]. intros _. split; [exact Hu|].
      apply holds_key_witness in H. destruct H as (d & Hd & K).
      exists d. split; auto. simpl in K.
      destruct (solanaWallet d); simpl in K; congruence.
    + split; [discriminate|]. intros (_ & d & Hd & Hw). exfalso.
      assert (K : index_key IdxSolanaWallet d = Some (KStr ""))
        by (simpl; now rewrite Hw).
      now rewrite (holds_key_intro _ _ d s Hd K) in H.
Qed.

(** ** The webhook *)

(** Trimming twice is trimming once. *)
Lemma trimEnd_idem (s : string) : Str.trimEnd (Str.trimEnd s) = Str.trimEnd s.
Proof.
  induction s as [|c r IH]; [reflexivity|]. cbn [Str.trimEnd].
  destruct (Str.trimEnd r) as [|a b] eqn:E.
  - destruct (Str.is_white_space c) eqn:W; [reflexivity|].
    cbn [Str.trimEnd]. now rewrite W.
  - cbn [Str.trimEnd] in *. now rewrite IH.
Qed.

Lemma trimEnd_head (c : ascii) (r : string) :
  Str.is_white_space c = false ->
  exists r', Str.trimEnd (String c r) = String c r'.
Proof.
  intro W. cbn [Str.trimEnd]. destruct (Str.trimEnd r).
  - rewrite W. now exists EmptyString.
  - eexists; reflexivity.
Qed.

Lemma trimStart_head (s : string) :
  Str.trimStart s = EmptyString
  \/ exists c r, Str.trimStart s = String c r /\ Str.is_white_space c = false.
Proof.
  induction s as [|c r IH]; [now left|]. cbn [Str.trimStart].
  destruct (Str.is_white_space c) eqn:W; [exact IH|].
  right. now exists c, r.
Qed.

Lemma trim_idem (s : string) : Str.trim (Str.trim s) = Str.trim s.
Proof.
  unfold Str.trim.
  destruct (trimStart_head s) as [E|(c & r & E & W)]; rewrite E.
  - reflexivity.
  - destruct (trimEnd_head c r W) as (r' & E'). rewrite E'.
    cbn [Str.trimStart]. rewrite W. rewrite <- E'. apply trimEnd_idem.
Qed.


(** The retry of [upsertFromEvent], case by case. *)
Lemma upsertFromEvent_spec now cid em data s :
  let base := basePayload cid em data in
  let un := or_else (option_map Str.trim (ev_username data)) None in
  upsertFromEvent now cid em data s =
  match createUser now (with_username un base) s with
  | (Ok u, s') => (Ok u, s')
  | (Throw e, s') =>
      if is_username_dup e then createUser now base s' else (Throw e, s')
  end.
Proof.
  cbv zeta. unfold upsertFromEvent, try_catch.
  destruct (createUser _ _ s) as [[u|e] s']; [reflexivity|].
  now destruct (is_username_dup e).
Qed.

Lemma createUser_setOnInsert_rest user u :
  let u' := createUser_setOnInsert user u in
  clerkId u' = clerkId u /\ email u' = email u
  /\ username u' = username u /\ usernameLower u' = usernameLower u
  /\ firstName u' = firstName u /\ lastName u' = lastName u
  /\ solanaWallet u' = solanaWallet u.
Proof.
  unfold createUser_setOnInsert. destruct (in_credits user); repeat split.
Qed.












(** The handler on a [user.created] / [user.updated] event that carries an
    id and an email: the response follows the upsert. *)
Lemma handleEvent_upsert now evt cid em s :
  (ev_type evt = user_created \/ ev_type evt = user_updated) ->
  ev_id (ev_data evt) = Some cid -> Str.truthy cid = true ->
  getPrimaryEmailFromEvent (ev_data evt) = Some em ->
  handleEvent now evt s =
  match upsertFromEvent now cid em (ev_data evt) s with
  | (Ok u, s') =>
      (Ok (mkResponse 200
             (JsonUser (match ev_type evt with
                        | user_created => "User created"
                        | _ => "User updated"
                        end) u)), s')
  | (Throw e, s') => (Throw e, s')
  end.
Proof.
  intros Ht Hid Hc He. unfold handleEvent. rewrite Hid, He.
  cbn [nullish]. rewrite Hc. cbn [negb]. unfold bind.
  destruct Ht as [-> | ->];
    destruct (upsertFromEvent now cid em (ev_data evt) s) as [[u|e] s'];
    reflexivity.
Qed.






(** ** The checkout flow *)

Section BillingFacts.

Variable customer_id : nat -> string.
Variable checkout_url : nat -> option string.
Variable rejects : Call -> list Event -> option string.


(** *** The steps of the flow *)

(** The customer lookup, followed by the rest of the flow. *)
Lemma lookup_step {A} (em : string) (k : string -> M World A) (w : World) :
  (existingCustomer <- customers_list rejects em ;;
   cid <- match existingCustomer with
          | c :: _ =>
              if Str.truthy (cus_id c) then ret (cus_id c)
              else c' <- customers_create customer_id rejects em ;;
                   ret (cus_id c')
          | [] => c' <- customers_create customer_id rejects em ;;
                  ret (cus_id c')
          end ;;
   k cid) w
  = match lookup_rejected rejects em w with
    | Some m => (Throw (Err m), mkWorld (db w) (stripe w) (asked em w))
    | None =>
        k (billing_customer customer_id em (stripe w))
          (mkWorld (db w) (stripe_after_lookup customer_id em (stripe w))
             (looked_up customer_id em w))
    end.
Proof.
  unfold lookup_rejected, customers_list, customers_create, request, log,
    bind, ret, asked, looked_up, lookup_events, stripe_after_lookup,
    billing_customer, listed_customer.
  cbn [trace stripe db].
  destruct (rejects (ListCustomers em) (trace w ++ [CustomersList em]))
    as [m|]; [reflexivity|].
  cbn [trace stripe db].
  set (found := filter (fun c => String.eqb (cus_email c) em)
                  (customers (stripe w))).
  assert (F1 : firstn 1 found = match found with [] => [] | c :: _ => [c] end)
    by (destruct found; reflexivity).
  rewrite F1. clear F1.
  destruct found as [|c0 rest]; [|destruct (Str.truthy (cus_id c0)) eqn:Tc];
    cbn [trace stripe db customers cus_id].
  - destruct (rejects (CreateCustomer em) _) as [m|]; [reflexivity|].
    cbn [trace stripe db customers cus_id prices sessions].
    now rewrite <- app_assoc.
  - reflexivity.
  - destruct (rejects (CreateCustomer em) _) as [m|]; [reflexivity|].
    cbn [trace stripe db customers cus_id prices sessions].
    now rewrite <- app_assoc.
Qed.

(** The write, followed by the rest of the flow. *)
Lemma write_step {A} now userId c (k : User -> M World A) (w : World) :
  (u <- store_customerId now userId c ;; k u) w
  = match customer_write now userId c (db w) with
    | (Throw e, db') => (Throw e, mkWorld db' (stripe w) (trace w))
    | (Ok u, db') =>
        k u (mkWorld db' (stripe w) (trace w ++ [AccountWrite userId c]))
    end.
Proof.
  unfold store_customerId, on_db, log, bind, ret.
  now destruct (customer_write now userId c (db w)) as [[u|e] db'].
Qed.

(** The price check, followed by the rest of the flow. *)
Lemma price_step {A} priceId (k : unit -> M World A) (w : World) :
  (x <- try_catch (prices_retrieve rejects priceId)
          (fun _ => throw (Err ("Invalid price ID: " ++ priceId)%string)) ;;
   k x) w
  = let w1 := mkWorld (db w) (stripe w) (trace w ++ [PricesRetrieve priceId]) in
    if match rejects (RetrievePrice priceId) (trace w1) with
       | Some _ => false
       | None => price_known priceId (stripe w)
       end
    then k tt w1
    else (Throw (Err ("Invalid price ID: " ++ priceId)%string), w1).
Proof.
  unfold prices_retrieve, request, log, try_catch, bind, throw, price_known.
  cbn [trace stripe db].
  destruct (rejects (RetrievePrice priceId) _) as [m|]; [reflexivity|].
  now destruct (existsb _ _).
Qed.

(** The opening of the session. *)
Lemma session_step customer priceId userId (w : World) :
  (ses <- sessions_create checkout_url rejects customer priceId userId ;;
   ret (ses_url ses)) w
  = match rejects (CreateSession customer priceId userId) (trace w) with
    | Some m => (Throw (Err m), w)
    | None =>
        let ses := mkSession customer priceId userId customer
                     (checkout_url (List.length (sessions (stripe w)))) in
        (Ok (ses_url ses),
         mkWorld (db w)
           (mkStripe (customers (stripe w)) (prices (stripe w))
              (sessions (stripe w) ++ [ses]))
           (trace w ++ [SessionsCreate customer priceId]))
    end.
Proof.
  unfold sessions_create, request, bind, ret.
  now destruct (rejects _ _).
Qed.

Lemma sessions_after_lookup em st :
  sessions (stripe_after_lookup customer_id em st) = sessions st.
Proof. unfold stripe_after_lookup. now destruct (listed_customer em st). Qed.

Lemma prices_after_lookup em st :
  prices (stripe_after_lookup customer_id em st) = prices st.
Proof. unfold stripe_after_lookup. now destruct (listed_customer em st). Qed.

(** The flow, step by step: the lookup, the write, the price check, the
    session. *)
Lemma subscribe_spec now userId em priceId w :
  Str.truthy userId = true -> Str.truthy em = true ->
  Str.truthy priceId = true ->
  let c := billing_customer customer_id em (stripe w) in
  let st1 := stripe_after_lookup customer_id em (stripe w) in
  let tr1 := looked_up customer_id em w in
  let tr2 := price_asked customer_id userId em priceId w in
  let ses := opened_session customer_id checkout_url userId em priceId
               (stripe w) in
  subscribe customer_id checkout_url rejects now userId em priceId w =
  match lookup_rejected rejects em w with
  | Some m => (Throw (wrap (Err m)), mkWorld (db w) (stripe w) (asked em w))
  | None =>
      match customer_write now userId c (db w) with
      | (Throw e, db') => (Throw (wrap e), mkWorld db' st1 tr1)
      | (Ok _, db') =>
          if price_accepted customer_id rejects userId em priceId w
          then match session_rejected customer_id rejects userId em priceId w
               with
               | Some m => (Throw (wrap (Err m)), mkWorld db' st1 tr2)
               | None =>
                   (Ok (ses_url ses),
                    mkWorld db'
                      (mkStripe (customers st1) (prices st1)
                         (sessions st1 ++ [ses]))
                      (tr2 ++ [SessionsCreate c priceId]))
               end
          else (Throw (wrap (Err ("Invalid price ID: " ++ priceId)%string)),
                mkWorld db' st1 tr2)
      end
  end.
Proof.
  intros T1 T2 T3. cbv zeta. unfold subscribe. rewrite T1, T2, T3.
  cbn [negb orb]. unfold try_catch at 1. rewrite lookup_step.
  destruct (lookup_rejected rejects em w) as [m|]; [reflexivity|].
  rewrite write_step. cbn [db stripe trace].
  destruct (customer_write _ _ _ _) as [[u|e] db']; [|reflexivity].
  rewrite price_step. cbv zeta. cbn [db stripe trace].
  unfold price_accepted, session_rejected, price_asked, opened_session.
  unfold price_known. rewrite prices_after_lookup.
  rewrite <- !app_assoc. cbn [app].
  destruct (rejects (RetrievePrice priceId) _) as [m|]; [reflexivity|].
  fold (price_known priceId (stripe w)).
  destruct (price_known priceId (stripe w)); [|reflexivity].
  rewrite session_step. cbn [db stripe trace].
  destruct (rejects (CreateSession _ _ _) _) as [m|]; [reflexivity|].
  cbv zeta. rewrite sessions_after_lookup, ?prices_after_lookup.
  rewrite <- !app_assoc. reflexivity.
Qed.

(** *** The write of the flow *)

Lemma customer_write_existing now userId c old s :
  account userId s = Some old ->
  customer_write now userId c s
  = (Ok (set_updatedAt now (set_customerId c old)),
     replace_first (matches (by_clerkId userId))
       (set_updatedAt now (set_customerId c old)) s).
Proof.
  intro Ha. unfold customer_write, findOneAndUpsert. unfold account in Ha.
  rewrite Ha. unfold write_update.
  rewrite dup_on_update_same_keys; [reflexivity|].
  intro i; destruct i; reflexivity.
Qed.

Lemma customer_write_absent now userId c s :
  account userId s = None ->
  customer_write now userId c s
  = let d := set_customerId c (schemaDefaults (List.length s) now userId) in
    match dup_on_insert s d with
    | Some i => (Throw (MongoDup i), s)
    | None => (Ok d, s ++ [d])
    end.
Proof.
  intro Ha. unfold customer_write, findOneAndUpsert. unfold account in Ha.
  now rewrite Ha.
Qed.


Lemma customer_write_throw now userId c s e s' :
  customer_write now userId c s = (Throw e, s') ->
  s' = s /\ account userId s = None /\ exists i, e = MongoDup i.
Proof.
  destruct (account userId s) as [old|] eqn:Ha.
  - rewrite (customer_write_existing now userId c old s Ha). discriminate.
  - rewrite (customer_write_absent now userId c s Ha). cbv zeta.
    destruct (dup_on_insert _ _) as [i|]; [|discriminate].
    intro H; inversion H; subst. split; [reflexivity|]. split; [reflexivity|].
    now exists i.
Qed.


Lemma customers_after_session st ses :
  customers (mkStripe (customers st) (prices st) (sessions st ++ [ses]))
  = customers st.
Proof. reflexivity. Qed.






End BillingFacts.

(** ** The sample collections *)

Ltac reach :=
  repeat first
    [ apply reach_empty
    | apply reach_step; [|first [exact I | vm_compute; reflexivity]] ].

Lemma store_named_reachable : reachable_by credits_input_ok Sample.store_named.
Proof.
  unfold Sample.store_named, Sample.store_ab, Sample.store_aw, Sample.store_a.
  reach.
Qed.

Lemma store_rich_reachable : reachable_by credits_input_ok Sample.store_rich.
Proof.
  unfold Sample.store_rich. apply reach_step; [|exact I].
  apply store_named_reachable.
Qed.

Lemma store_named_wf : wf Sample.store_named.
Proof. exact (reachable_by_wf _ _ store_named_reachable). Qed.

Lemma store_rich_wf : wf Sample.store_rich.
Proof. exact (reachable_by_wf _ _ store_rich_reachable). Qed.

Lemma store_named_plain : reachable Sample.store_named.
Proof.
  unfold reachable, Sample.store_named, Sample.store_ab, Sample.store_aw,
    Sample.store_a. reach.
Qed.

Lemma alice_balance : balance "user_alice" Sample.store_named = Some 10%float.
Proof. vm_compute. reflexivity. Qed.

Lemma debits_3_integers : Forall integer_amount Sample.debits_3.
Proof.
  unfold Sample.debits_3.
  repeat constructor; eexists; (split; [vm_compute; reflexivity|]);
    unfold Num.safe; lia.
Qed.

Lemma debits_3_finite :
  Forall (fun d => is_infinity (d_amount d) = false) Sample.debits_3.
Proof. repeat constructor. Qed.

(** C1 on the sample collection: a refused amount, NaN, a refused
    overdraft, and three debits of which one succeeds. *)
Lemma C1_witness :
  unique_clerkIds Sample.store_named
  /\ consumeBacktestCredits 2001 "user_alice" 0 "BTC" "ema" Sample.store_named
     = (Throw (Err "Amount must be > 0"), Sample.store_named)
  /\ consumeBacktestCredits 2001 "user_alice" nan "BTC" "ema" Sample.store_named
     = (Throw (CastError "credits"), Sample.store_named)
  /\ consumeBacktestCredits 2003 "user_alice" 11 "ETH" "macd" Sample.store_named
     = (Throw (Err "User not found or not enough credits"), Sample.store_named)
  /\ balance "user_alice"
       (run_debits "user_alice" Sample.debits_3 Sample.store_named)
     = Some 6%float
  /\ (exists b',
         balance "user_alice"
           (run_debits "user_alice" Sample.debits_3 Sample.store_named)
         = Some b'
         /\ Num.to_Z b' = Some (10 - 4))
  /\ Forall (fun st => exists b', balance "user_alice" st = Some b'
                                  /\ (0 <=? b')%float = true)
       (debit_states "user_alice" Sample.debits_3 Sample.store_named).
Proof.
  pose proof (proj1 store_named_wf) as U.
  destruct (C1_consumeBacktestCredits "user_alice" Sample.store_named U)
    as (_ & A & N & B & _ & D).
  split; [exact U|].
  split; [apply A; vm_compute; reflexivity|].
  split; [apply N; vm_compute; reflexivity|].
  split.
  { apply B; [vm_compute; reflexivity|]. right. exists 10%float.
    split; [exact alice_balance | vm_compute; reflexivity]. }
  destruct (D Sample.debits_3 10%float alice_balance) as (D1 & D2 & D3).
  split; [rewrite D1; vm_compute; reflexivity|].
  split.
  { destruct (D2 10) as (b' & Hb & Tb);
      [vm_compute; reflexivity | unfold Num.safe; lia
      | exact debits_3_integers |].
    exists b'. split; [exact Hb|]. rewrite Tb. vm_compute. reflexivity. }
  apply D3; [vm_compute; reflexivity | exact debits_3_finite].
Defined.

Lemma store_whale_reachable : reachable Sample.store_whale.
Proof. unfold reachable, Sample.store_whale. reach. Qed.

Lemma store_overdrawn_reachable : reachable Sample.store_overdrawn.
Proof. unfold reachable, Sample.store_overdrawn. reach. Qed.

Lemma store_overdrawn_eq : Sample.store_overdrawn = [Sample.carol_doc].
Proof. vm_compute. reflexivity. Qed.

(** Against C1 as stated.  An account created with 2^53 + 2 credits is
    debited twice by one credit, both debits succeed, and the balance is
    2^53 - 1: the first difference, 2^53 + 1, is no binary64 value and is
    stored as 2^53.  The initial balance minus the sum of the amounts is
    2^53.  And an account created with -5 credits shows a negative balance
    after any debit, which is refused. *)
Lemma C1_counterexample :
  reachable Sample.store_whale
  /\ balance "user_will" Sample.store_whale = Some 9007199254740994%float
  /\ Num.to_Z 9007199254740994 = Some (2 ^ 53 + 2)
  /\ map d_amount (successful "user_will" Sample.debits_2 Sample.store_whale)
     = [1%float; 1%float]
  /\ sum_amounts (successful "user_will" Sample.debits_2 Sample.store_whale) = 2
  /\ balance "user_will"
       (run_debits "user_will" Sample.debits_2 Sample.store_whale)
     = Some 9007199254740991%float
  /\ Num.to_Z 9007199254740991 = Some (2 ^ 53 - 1)
  /\ reachable Sample.store_overdrawn
  /\ debit_states "user_carol" [mkDebit 2001 1 "SOL" "rsi"]
       Sample.store_overdrawn
     = [Sample.store_overdrawn]
  /\ balance "user_carol" Sample.store_overdrawn = Some (-5)%float
  /\ ((-5) <? 0)%float = true.
Proof.
  split; [exact store_whale_reachable|].
  split; [vm_compute; reflexivity|].
  split; [vm_compute; reflexivity|].
  split; [vm_compute; reflexivity|].
  split; [vm_compute; reflexivity|].
  split; [vm_compute; reflexivity|].
  split; [vm_compute; reflexivity|].
  split; [exact store_overdrawn_reachable|].
  split; [vm_compute; reflexivity|].
  split; vm_compute; reflexivity.
Qed.

Lemma store_half_reachable : reachable Sample.store_half.
Proof.
  unfold Sample.store_half. apply reach_step; [|exact I].
  exact store_named_plain.
Qed.

Lemma store_nan_reachable : reachable Sample.store_nan.
Proof.
  unfold Sample.store_nan, Sample.store_endless.
  apply reach_step; [|exact I]. apply reach_step; [|exact I].
  exact store_named_plain.
Qed.

(** Against C2 as stated.  [createUser] with [credits = -5] on a new
    [clerkId] is one step from the empty collection; [addCredits] of half
    a credit leaves 10.5 credits, which is no integer; and an account that
    was given infinitely many credits and spends as many is left with
    NaN. *)
Lemma C2_counterexample :
  reachable Sample.store_overdrawn
  /\ balance "user_carol" Sample.store_overdrawn = Some (-5)%float
  /\ ~ Forall (fun u => (0 <=? credits u)%float = true) Sample.store_overdrawn
  /\ reachable Sample.store_half
  /\ balance "user_alice" Sample.store_half = Some 10.5%float
  /\ Num.to_Z 10.5 = None
  /\ reachable Sample.store_nan
  /\ option_map is_nan (balance "user_alice" Sample.store_nan) = Some true.
Proof.
  split; [exact store_overdrawn_reachable|].
  split; [vm_compute; reflexivity|].
  split.
  { intro H. rewrite store_overdrawn_eq in H.
    inversion H as [|? ? Hd _]. vm_compute in Hd. discriminate Hd. }
  split; [exact store_half_reachable|].
  split; [vm_compute; reflexivity|].
  split; [vm_compute; reflexivity|].
  split; [exact store_nan_reachable|].
  vm_compute. reflexivity.
Qed.

Lemma store_aw_reachable : reachable_by credits_input_ok Sample.store_aw.
Proof. unfold Sample.store_aw, Sample.store_a. reach. Qed.

Lemma bob_created :
  createUser 1002 Sample.bob Sample.store_aw
  = (Ok Sample.bob_doc, snd (createUser 1002 Sample.bob Sample.store_aw)).
Proof. vm_compute. reflexivity. Qed.

Lemma bob_absent : account (in_clerkId Sample.bob) Sample.store_aw = None.
Proof. vm_compute. reflexivity. Qed.

(** C2 on the sample collection. *)
Lemma C2_witness :
  reachable_by credits_input_ok Sample.store_rich
  /\ Forall (fun u => (0 <=? credits u)%float = true) Sample.store_rich
  /\ reachable_by credits_input_ok Sample.store_aw
  /\ balance "user_bob" (snd (createUser 1002 Sample.bob Sample.store_aw))
     = Some 10%float.
Proof.
  split; [exact store_rich_reachable|].
  split;
    [exact (proj1 (C2_credits_nonnegative Sample.store_rich
                     store_rich_reachable))|].
  split; [exact store_aw_reachable|].
  destruct (proj2 (C2_credits_nonnegative Sample.store_aw store_aw_reachable)
              1002 Sample.bob eq_refl bob_absent _ _ bob_created) as [C B].
  unfold balance. simpl in_clerkId in B. rewrite B. cbn [option_map].
  now rewrite C.
Defined.

(** C3 on 51 successful debits: the first entry is gone. *)
Lemma C3_witness :
  List.length (successful "user_alice" Sample.debits_51 Sample.store_rich) = 51%nat
  /\ history "user_alice"
       (run_debits "user_alice" Sample.debits_51 Sample.store_rich)
     = Some (rev (map entry_of (tl Sample.debits_51))).
Proof.
  assert (L : List.length (successful "user_alice" Sample.debits_51 Sample.store_rich)
              = 51%nat) by (vm_compute; reflexivity).
  split; [exact L|].
  destruct C3_creditHistory_cap as (_ & _ & _ & H).
  rewrite (H "user_alice" Sample.debits_51 Sample.store_rich []
             (proj1 store_rich_wf) eq_refl (Nat.le_0_l 50) L).
  vm_compute. reflexivity.
Defined.

Lemma store_named_eq : Sample.store_named = [Sample.alice_doc; Sample.bob_doc].
Proof. vm_compute. reflexivity. Qed.

Lemma bob_account : account "user_bob" Sample.store_named = Some Sample.bob_doc.
Proof. vm_compute. reflexivity. Qed.

Lemma alice_account :
  account "user_alice" Sample.store_named = Some Sample.alice_doc.
Proof. vm_compute. reflexivity. Qed.

(** C4 on the sample collection: too short, reserved, "me", taken. *)
Lemma C4_witness :
  wf Sample.store_named
  /\ setUsername 3000 "user_bob" "ab" Sample.store_named
     = (Throw (Err msg_format), Sample.store_named)
  /\ setUsername 3000 "user_bob" "Admin" Sample.store_named
     = (Throw (Err msg_reserved), Sample.store_named)
  /\ setUsername 3000 "user_bob" "ME" Sample.store_named
     = (Throw (Err msg_format), Sample.store_named)
  /\ setUsername 3000 "user_bob" "VALIDUSER123" Sample.store_named
     = (Throw (Err msg_taken), Sample.store_named).
Proof.
  split; [exact store_named_wf|].
  split; [|split; [|split]].
  - apply (C4_setUsername 3000 "user_bob" "ab" Sample.bob_doc
             Sample.store_named store_named_wf bob_account).
    vm_compute. reflexivity.
  - apply (C4_setUsername 3000 "user_bob" "Admin" Sample.bob_doc
             Sample.store_named store_named_wf bob_account);
      vm_compute; reflexivity.
  - apply (proj1 (proj2 (proj2 (C4_setUsername 3000 "user_bob" "ME"
                                  Sample.bob_doc Sample.store_named
                                  store_named_wf bob_account))) "me");
      [vm_compute; tauto | vm_compute; reflexivity | reflexivity].
  - apply (C4_setUsername 3000 "user_bob" "VALIDUSER123" Sample.bob_doc
             Sample.store_named store_named_wf bob_account);
      [vm_compute; reflexivity | vm_compute; reflexivity |].
    exists Sample.alice_doc.
    split; [rewrite store_named_eq; now left|].
    split; [vm_compute; discriminate | vm_compute; reflexivity].
Defined.

(** Against C4 as stated: "me" is a reserved word, and every casing of it
    is refused with the format message, not with the reserved one. *)
Lemma C4_counterexample :
  wf Sample.store_named
  /\ account "user_bob" Sample.store_named = Some Sample.bob_doc
  /\ RESERVED_has "me" = true
  /\ setUsername 3000 "user_bob" "me" Sample.store_named
     = (Throw (Err msg_format), Sample.store_named)
  /\ setUsername 3000 "user_bob" "Me" Sample.store_named
     = (Throw (Err msg_format), Sample.store_named)
  /\ msg_format <> msg_reserved.
Proof.
  split; [exact store_named_wf|].
  split; [exact bob_account|].
  split; [reflexivity|].
  split; [vm_compute; reflexivity|].
  split; [vm_compute; reflexivity|].
  vm_compute. discriminate.
Qed.

(** C5.  The wallet scenario, run from the empty collection: Alice signs
    up and connects a wallet, Bob signs up.  Bob's attempt to connect the
    same wallet is refused as already connected.  Alice's
    [clearSolanaWallet] is refused by the wallet index, because Bob's
    document already holds the empty string, and the duplicate-key error is
    thrown as it is; Alice keeps the wallet, so Bob's second attempt is
    refused again.  Likewise a second [createUser] is refused while the
    first account still holds the empty wallet. *)
Theorem C5_clearSolanaWallet_refused :
  reachable Sample.store_ab
  /\ setSolanaWallet 3000 "user_bob" Sample.wallet_1 Sample.store_ab
     = (Throw (Err msg_wallet_taken), Sample.store_ab)
  /\ clearSolanaWallet 3001 "user_alice" Sample.store_ab
     = (Throw (MongoDup IdxSolanaWallet), Sample.store_ab)
  /\ setSolanaWallet 3002 "user_bob" Sample.wallet_1
       (snd (clearSolanaWallet 3001 "user_alice" Sample.store_ab))
     = (Throw (Err msg_wallet_taken), Sample.store_ab)
  /\ createUser 1002 Sample.bob Sample.store_a
     = (Throw (MongoDup IdxSolanaWallet), Sample.store_a).
Proof.
  split.
  { unfold reachable, Sample.store_ab, Sample.store_aw, Sample.store_a. reach. }
  split; [|split; [|split]]; vm_compute; reflexivity.
Qed.

(** Against C6 as stated: the replay at a later time leaves another
    collection than the single call, by [updatedAt]. *)
Lemma C6_counterexample :
  snd (createUser 2000 Sample.alice (snd (createUser 1000 Sample.alice [])))
  <> snd (createUser 1000 Sample.alice [])
  /\ option_map updatedAt
       (account "user_alice"
          (snd (createUser 2000 Sample.alice
                  (snd (createUser 1000 Sample.alice [])))))
     = Some 2000
  /\ option_map updatedAt
       (account "user_alice" (snd (createUser 1000 Sample.alice [])))
     = Some 1000.
Proof.
  split; [|split; vm_compute; reflexivity].
  vm_compute. intro H. inversion H.
Qed.

(** C6 on the sample collection: the event for Bob, delivered twice. *)
Lemma C6_witness :
  unique_clerkIds Sample.store_named
  /\ createUser 5000 Sample.bob Sample.store_named
     = (Ok (set_updatedAt 5000 Sample.bob_doc),
        snd (createUser 5000 Sample.bob Sample.store_named))
  /\ fst (createUser 6000 Sample.bob
            (snd (createUser 5000 Sample.bob Sample.store_named)))
     = Ok (set_updatedAt 6000 (set_updatedAt 5000 Sample.bob_doc))
  /\ List.length
       (snd (createUser 6000 Sample.bob
               (snd (createUser 5000 Sample.bob Sample.store_named))))
     = 2%nat.
Proof.
  pose proof (proj1 store_named_wf) as U.
  assert (E : createUser 5000 Sample.bob Sample.store_named
              = (Ok (set_updatedAt 5000 Sample.bob_doc),
                 snd (createUser 5000 Sample.bob Sample.store_named)))
    by (vm_compute; reflexivity).
  destruct (C6_createUser_idempotent 5000 6000 Sample.bob Sample.store_named
              _ _ U E) as (R & _ & L & _).
  split; [exact U|]. split; [exact E|]. split; [exact R|].
  rewrite L. vm_compute. reflexivity.
Defined.

Lemma alice_in_store : In Sample.alice_doc Sample.store_named.
Proof. rewrite store_named_eq. now left. Qed.

Lemma bob_in_store : In Sample.bob_doc Sample.store_named.
Proof. rewrite store_named_eq. right. now left. Qed.








(* ================================================================== *)
(** * Further properties of the actions, the webhook, the checkout flow
      and the client context *)

(** ** Credits *)

(** A write that leaves the indexed fields alone, seen on the account. *)
Lemma findOneAndUpdate_plain now cid upd u s :
  account cid s = Some u ->
  (forall i, index_key i (set_updatedAt now (upd u)) = index_key i u) ->
  findOneAndUpdate now (by_clerkId cid) upd s
  = (Ok (Some (set_updatedAt now (upd u))),
     replace_first (matches (by_clerkId cid)) (set_updatedAt now (upd u)) s).
Proof.
  intros Ha K. unfold findOneAndUpdate, write_update. unfold account in Ha.
  rewrite Ha. now rewrite dup_on_update_same_keys.
Qed.

Lemma findOneAndUpdate_absent now cid upd s :
  account cid s = None ->
  findOneAndUpdate now (by_clerkId cid) upd s = (Ok None, s).
Proof.
  intro Ha. unfold findOneAndUpdate. unfold account in Ha. now rewrite Ha.
Qed.

(** The account and the others after the account's document is replaced. *)
Lemma replace_account cid u u' s :
  account cid s = Some u -> clerkId u' = cid ->
  let s' := replace_first (matches (by_clerkId cid)) u' s in
  account cid s' = Some u'
  /\ (forall cid', cid' <> cid -> account cid' s' = account cid' s)
  /\ List.length s' = List.length s.
Proof.
  intros Ha Hc s'. split; [|split].
  - now apply account_replace_first with (old := u).
  - intros cid' Hne. apply account_replace_first_other with (cid := cid); auto.
    intros x Hx. now apply matches_clerkId in Hx.
  - apply length_replace_first.
Qed.

(** An accepted [addCredits]. *)
Lemma addCredits_ok now cid amount u s :
  (0 <? amount)%float = true -> account cid s = Some u ->
  let u' := set_updatedAt now (set_credits (credits u + amount)%float u) in
  let s' := replace_first (matches (by_clerkId cid)) u' s in
  addCredits now cid amount s = (Ok u', s')
  /\ account cid s' = Some u'
  /\ (forall cid', cid' <> cid -> account cid' s' = account cid' s)
  /\ List.length s' = List.length s.
Proof.
  intros H Ha u' s'. unfold addCredits.
  destruct (positive_amount _ H) as [G N]. rewrite G. cbn [uncastable].
  rewrite N. unfold bind.
  rewrite (findOneAndUpdate_plain now cid _ u s Ha)
    by (intro i; destruct i; reflexivity).
  split; [reflexivity|].
  apply (replace_account cid u u' s Ha). simpl. now apply account_clerkId in Ha.
Qed.

(** X1.  [addCredits]: an amount [<= 0] is refused with "Amount must be
    > 0", NaN with the cast error, and an unknown account with "User not
    found", all without a write; otherwise the account's credits become
    the binary64 sum [credits + amount], which is the exact sum when both
    are integers and the sum is below 2^53 in magnitude; the credit history
    and every other account stay as they were, and no document is added. *)
Theorem addCredits_spec (now : Z) (cid : string) (amount : float) (s : Store) :
  ((amount <=? 0)%float = true ->
   addCredits now cid amount s = (Throw (Err "Amount must be > 0"), s))
  /\ (is_nan amount = true ->
      addCredits now cid amount s = (Throw (CastError "credits"), s))
  /\ ((0 <? amount)%float = true -> account cid s = None ->
      addCredits now cid amount s = (Throw (Err "User not found"), s))
  /\ (forall u, (0 <? amount)%float = true -> account cid s = Some u ->
      exists u' s',
        addCredits now cid amount s = (Ok u', s')
        /\ account cid s' = Some u'
        /\ credits u' = (credits u + amount)%float
        /\ (forall B A,
              Num.to_Z (credits u) = Some B -> Num.to_Z amount = Some A ->
              Num.safe B -> Num.safe A -> Num.safe (B + A) ->
              Num.to_Z (credits u') = Some (B + A))
        /\ creditHistory u' = creditHistory u
        /\ List.length s' = List.length s
        /\ forall cid', cid' <> cid -> account cid' s' = account cid' s).
Proof.
  split; [|split; [|split]].
  - intro H. unfold addCredits. now rewrite H.
  - intro H. unfold addCredits. cbn [uncastable]. rewrite H.
    now destruct (amount <=? 0)%float eqn:G;
      [rewrite leb_spec, (is_nan_spec _ H) in G|].
  - intros H Ha. unfold addCredits.
    destruct (positive_amount _ H) as [G N]. rewrite G. cbn [uncastable].
    rewrite N. unfold bind. now rewrite findOneAndUpdate_absent.
  - intros u H Ha.
    destruct (addCredits_ok now cid amount u s H Ha) as (E & A & O & L).
    eexists; eexists. split; [exact E|]. split; [exact A|].
    split; [reflexivity|]. split; [|repeat split; assumption].
    intros B A' TB TA SB SA SS. now apply add_exact.
Qed.

(** X2.  For an account whose balance is an integer that is not negative,
    adding a positive integer amount and then consuming the same amount
    succeeds and brings the balance back to what it was, provided the sum
    is below 2^53. *)
Theorem addCredits_then_consume (t1 t2 : Z) (cid coin strat : string)
    (amount : float) (A B : Z) (u : User) (s : Store) :
  unique_clerkIds s -> account cid s = Some u ->
  Num.to_Z amount = Some A -> Num.to_Z (credits u) = Some B ->
  0 < A -> 0 <= B -> B + A < 2 ^ 53 ->
  let s1 := snd (addCredits t1 cid amount s) in
  let s2 := snd (consumeBacktestCredits t2 cid amount coin strat s1) in
  succeeded (fst (consumeBacktestCredits t2 cid amount coin strat s1)) = true
  /\ exists b', balance cid s2 = Some b' /\ Num.to_Z b' = Some B.
Proof.
  intros U Ha TA TB HA HB HS s1 s2.
  assert (SA : Num.safe A) by (unfold Num.safe; lia).
  assert (SB : Num.safe B) by (unfold Num.safe; lia).
  assert (SS : Num.safe (B + A)) by (unfold Num.safe; lia).
  assert (Hp : (0 <? amount)%float = true).
  { rewrite (to_Z_positive amount A TA SA). apply Z.ltb_lt. lia. }
  destruct (addCredits_ok t1 cid amount u s Hp Ha) as (E & A1 & _).
  assert (U1 : unique_clerkIds s1)
    by exact (apply_op_unique (OpAddCredits t1 cid amount) s U).
  unfold s2, s1 in *. rewrite E in *. cbn [snd] in *.
  set (u1 := set_updatedAt t1 (set_credits (credits u + amount)%float u)) in *.
  set (s1' := replace_first (matches (by_clerkId cid)) u1 s) in *.
  assert (T1 : Num.to_Z (credits u1) = Some (B + A))
    by (apply add_exact; assumption).
  assert (Hle : (amount <=? credits u1)%float = true).
  { rewrite (leb_exact amount (credits u1) A (B + A) TA T1 SA SS).
    apply Z.leb_le. lia. }
  pose proof (debit_success cid (mkDebit t2 amount coin strat) u1 s1' U1 A1 Hp Hle)
    as D.
  cbv zeta in D. unfold debit in D. cbn [d_now d_amount d_coin d_strategy] in D.
  destruct D as (Ed & Ad & _).
  rewrite Ed. cbn [fst snd succeeded]. split; [reflexivity|].
  unfold balance. rewrite Ad. cbn [option_map]. eexists. split; [reflexivity|].
  cbn [credits set_updatedAt debit_update set_creditHistory set_credits
       creditsUsed entry_of d_amount].
  assert (R : Num.to_Z (credits u1 - amount) = Some (B + A - A)).
  { apply sub_exact; auto. replace (B + A - A) with B by lia. exact SB. }
  rewrite add_opp, R. f_equal. lia.
Qed.

(** X3.  [hasEnoughCredits] never writes; it throws "User not found" for
    an unknown account; for a positive amount it answers true exactly when
    [consumeBacktestCredits] of that amount would succeed; and without a
    second argument it checks for one credit. *)
Theorem hasEnoughCredits_agrees (now : Z) (cid coin strat : string)
    (amount : float) (s : Store) :
  unique_clerkIds s -> (0 <? amount)%float = true ->
  snd (hasEnoughCredits cid (Some amount) s) = s
  /\ (account cid s = None ->
      fst (hasEnoughCredits cid (Some amount) s) = Throw (Err "User not found"))
  /\ (fst (hasEnoughCredits cid (Some amount) s) = Ok true
      <-> succeeded (fst (consumeBacktestCredits now cid amount coin strat s))
          = true)
  /\ hasEnoughCredits cid None s = hasEnoughCredits cid (Some 1%float) s.
Proof.
  intros U Hp. unfold hasEnoughCredits, bind, findOne. fold (account cid s).
  change (consumeBacktestCredits now cid amount coin strat s)
    with (debit cid (mkDebit now amount coin strat) s).
  rewrite debit_spec by assumption. cbn [d_amount d_now].
  destruct (positive_amount _ Hp) as [G N]. rewrite G, N.
  destruct (account cid s) as [u|]; cbn [or_throw ret throw fst snd nullish].
  - split; [reflexivity|]. split; [discriminate|]. split; [|reflexivity].
    destruct (amount <=? credits u)%float; cbn [fst succeeded];
      split; congruence.
  - split; [reflexivity|]. split; [reflexivity|]. split; [|reflexivity].
    cbn [fst succeeded]. split; discriminate.
Qed.

(** ** More invariants of reachable collections *)

Ltac unfold_op :=
  try first
    [ progress unfold createUser | progress unfold addCredits
    | progress unfold consumeBacktestCredits | progress unfold setUsername
    | progress unfold setSolanaWallet | progress unfold clearSolanaWallet
    | progress unfold updateUserTopCoins
    | progress unfold handleEvent, upsertFromEvent ].

Ltac by_document P :=
  first [ apply (update_keeps_Forall P); [intros ? ? H; exact H |]
        | apply (insert_keeps_Forall P) ];
  intros.

Lemma createUser_doc_topCoins user u :
  topCoins (createUser_set user u) = topCoins u
  /\ topCoins (createUser_setOnInsert user u) = [].
Proof.
  split; [apply (createUser_set_rest user u) | reflexivity].
Qed.

Lemma apply_op_topCoins o s :
  Forall topCoins_ok s -> Forall topCoins_ok (apply_op o s).
Proof.
  destruct o; simpl; revert s; as_preserves (Forall topCoins_ok); unfold_op;
    preserve; by_document topCoins_ok; unfold topCoins_ok in *;
    rewrite ?(proj2 (createUser_doc_topCoins _ _)),
            ?(proj1 (createUser_doc_topCoins _ _));
    cbn -[firstn]; auto; try lia.
  match goal with H : Nat.ltb 3 _ = false |- _ => apply Nat.ltb_ge in H end.
  assumption.
Qed.

Lemma createUser_doc_wallet user u :
  solanaWallet (createUser_set user u) = solanaWallet u
  /\ solanaWallet (createUser_setOnInsert user u) = solanaWallet u.
Proof.
  split; [apply (createUser_set_rest user u)
         | apply (createUser_setOnInsert_rest user u)].
Qed.

Lemma apply_op_wallet o s :
  Forall wallet_ok s -> Forall wallet_ok (apply_op o s).
Proof.
  destruct o; simpl; revert s; as_preserves (Forall wallet_ok); unfold_op;
    preserve; by_document wallet_ok; unfold wallet_ok in *;
    rewrite ?(proj2 (createUser_doc_wallet _ _)),
            ?(proj1 (createUser_doc_wallet _ _));
    cbn -[firstn]; auto.
  match goal with H : negb (isValidSolAddress _) = false |- _ =>
    apply negb_false_iff in H; unfold isValidSolAddress in H end.
  unfold wallet_validator.
  match goal with H : SOLANA_BASE58_RE _ = true |- _ => rewrite H end.
  apply orb_true_r.
Qed.

Lemma createUser_doc_history user u :
  creditHistory (createUser_set user u) = creditHistory u
  /\ creditHistory (createUser_setOnInsert user u) = creditHistory u.
Proof.
  split; [apply (createUser_set_fields user u)
         | apply (createUser_setOnInsert_fields user u)].
Qed.

Lemma Forall_firstn {A} (P : A -> Prop) n (l : list A) :
  Forall P l -> Forall P (firstn n l).
Proof.
  intro H. rewrite Forall_forall in *. intros x Hx. apply H.
  rewrite <- (firstn_skipn n l). apply in_or_app. now left.
Qed.

Lemma apply_op_entries o s :
  Forall entries_ok s -> Forall entries_ok (apply_op o s).
Proof.
  destruct o; simpl; revert s; as_preserves (Forall entries_ok); unfold_op;
    preserve; by_document entries_ok; unfold entries_ok in *;
    rewrite ?(proj2 (createUser_doc_history _ _)),
            ?(proj1 (createUser_doc_history _ _));
    cbn -[firstn]; auto.
  apply Forall_firstn. constructor; [|assumption]. simpl.
  match goal with
  | G : (_ <=? 0)%float = false, N : uncastable _ = false |- _ =>
      exact (positive_or_not _ G N)
  end.
Qed.

(** *** Emails *)

Lemma lower_char_white_space (c : ascii) :
  Str.is_white_space (Str.lower_char c) = Str.is_white_space c.
Proof.
  destruct c as [[] [] [] [] [] [] [] []]; vm_compute; reflexivity.
Qed.

Lemma lower_char_idem (c : ascii) :
  Str.lower_char (Str.lower_char c) = Str.lower_char c.
Proof.
  destruct c as [[] [] [] [] [] [] [] []]; vm_compute; reflexivity.
Qed.

Lemma toLowerCase_idem (s : string) :
  Str.toLowerCase (Str.toLowerCase s) = Str.toLowerCase s.
Proof.
  induction s as [|c r IH]; simpl; [reflexivity|].
  now rewrite lower_char_idem, IH.
Qed.

Lemma toLowerCase_trimStart (s : string) :
  Str.toLowerCase (Str.trimStart s) = Str.trimStart (Str.toLowerCase s).
Proof.
  induction s as [|c r IH]; simpl; [reflexivity|].
  rewrite lower_char_white_space.
  destruct (Str.is_white_space c); [exact IH | reflexivity].
Qed.

Lemma toLowerCase_trimEnd (s : string) :
  Str.toLowerCase (Str.trimEnd s) = Str.trimEnd (Str.toLowerCase s).
Proof.
  induction s as [|c r IH]; simpl; [reflexivity|].
  rewrite <- IH, lower_char_white_space.
  destruct (Str.trimEnd r); simpl; [|reflexivity].
  now destruct (Str.is_white_space c).
Qed.

Lemma toLowerCase_trim (s : string) :
  Str.toLowerCase (Str.trim s) = Str.trim (Str.toLowerCase s).
Proof.
  unfold Str.trim. now rewrite toLowerCase_trimEnd, toLowerCase_trimStart.
Qed.

Lemma createUser_doc_email user u :
  email (createUser_set user u)
  = Some (Str.trim (Str.toLowerCase (in_email user)))
  /\ email (createUser_setOnInsert user u) = email u.
Proof.
  split; [apply (createUser_set_profile user u)
         | apply (createUser_setOnInsert_rest user u)].
Qed.

Lemma normalized_email_ok (raw : string) :
  let e := Str.trim (Str.toLowerCase raw) in
  Str.toLowerCase e = e /\ Str.trim e = e.
Proof.
  cbv zeta. split; [|apply trim_idem].
  now rewrite toLowerCase_trim, toLowerCase_idem.
Qed.

Lemma apply_op_email o s :
  Forall email_ok s -> Forall email_ok (apply_op o s).
Proof.
  destruct o; simpl; revert s; as_preserves (Forall email_ok); unfold_op;
    preserve; by_document email_ok; unfold email_ok in *;
    rewrite ?(proj2 (createUser_doc_email _ _)),
            ?(proj1 (createUser_doc_email _ _));
    cbn -[firstn]; auto; apply normalized_email_ok.
Qed.

(** *** Usernames *)

Lemma test_class_nonempty cls lo hi s :
  (0 < lo)%nat -> Str.test_class cls lo hi s = true -> s <> "".
Proof.
  unfold Str.test_class. intros Hlo H ->. simpl in H.
  destruct lo; [lia | discriminate].
Qed.

Lemma truthy_nonempty (s : string) : Str.truthy s = true <-> s <> "".
Proof. destruct s; simpl; split; congruence. Qed.

Lemma createUser_set_username user u :
  username_ok u -> username_ok (createUser_set user u).
Proof.
  unfold username_ok. intro H.
  pose proof (proj2 (proj2 (proj2 (createUser_set_profile user u)))) as E.
  destruct (in_username user) as [n|].
  - destruct (Str.truthy n && Str.truthy (Str.trim n))%bool eqn:T;
      inversion E as [[E1 E2]]; rewrite E1; [|exact H].
    apply andb_prop in T. destruct T as [_ T].
    split; [apply trim_idem | now apply truthy_nonempty].
  - inversion E as [[E1 E2]]. now rewrite E1.
Qed.

Lemma createUser_setOnInsert_username user u :
  username_ok u -> username_ok (createUser_setOnInsert user u).
Proof.
  unfold username_ok.
  now rewrite (proj1 (proj2 (proj2 (createUser_setOnInsert_rest user u)))).
Qed.

Lemma apply_op_username o s :
  Forall username_ok s -> Forall username_ok (apply_op o s).
Proof.
  destruct o; simpl; revert s; as_preserves (Forall username_ok); unfold_op;
    preserve; by_document username_ok;
    repeat first [ apply createUser_setOnInsert_username
                 | apply createUser_set_username ];
    auto; try exact I.
  unfold username_ok. cbn.
  match goal with H : negb (USERNAME_RE _) = false |- _ =>
    apply negb_false_iff in H; unfold USERNAME_RE in H;
    apply test_class_nonempty in H; [|lia] end.
  split; [apply trim_idem | assumption].
Qed.

Lemma reachable_by_Forall (P : User -> Prop) allowed s :
  (forall o s, Forall P s -> Forall P (apply_op o s)) ->
  reachable_by allowed s -> Forall P s.
Proof.
  intros K R. induction R; [constructor | now apply K].
Qed.

Lemma reachable_account (P : User -> Prop) s cid u :
  Forall P s -> account cid s = Some u -> P u.
Proof.
  intros F Ha. rewrite Forall_forall in F. apply F.
  now apply account_In in Ha.
Qed.

(** ** Top coins *)

(** X4.  In every reachable collection [getUserTopCoins] returns at most
    three coins, for any id, without a write; for an unknown account it
    returns the empty list instead of throwing. *)
Theorem topCoins_at_most_3 (s : Store) (cid : string) :
  reachable s ->
  exists coins,
    getUserTopCoins cid s = (Ok coins, s)
    /\ (List.length coins <= 3)%nat
    /\ (account cid s = None -> coins = []).
Proof.
  intro R. unfold getUserTopCoins, bind, findOne, ret. fold (account cid s).
  pose proof (reachable_by_Forall topCoins_ok _ s apply_op_topCoins R) as F.
  destruct (account cid s) as [u|] eqn:Ha.
  - exists (topCoins u). split; [reflexivity|]. split; [|discriminate].
    exact (reachable_account topCoins_ok s cid u F Ha).
  - exists []. split; [reflexivity|]. split; [simpl; lia | reflexivity].
Qed.

(** X5.  [updateUserTopCoins]: more than three coins are refused before
    the account is looked up; at most three coins for an unknown account
    throw "User not found"; otherwise the list is stored as given, returned,
    read back by [getUserTopCoins], and the other accounts are untouched. *)
Theorem updateUserTopCoins_spec (now : Z) (cid : string)
    (coins : list string) (s : Store) :
  ((3 < List.length coins)%nat ->
   updateUserTopCoins now cid coins s
   = (Throw (Err "Only 3 coins can be selected"), s))
  /\ ((List.length coins <= 3)%nat -> account cid s = None ->
      updateUserTopCoins now cid coins s = (Throw (Err "User not found"), s))
  /\ (forall u, (List.length coins <= 3)%nat -> account cid s = Some u ->
      exists s',
        updateUserTopCoins now cid coins s = (Ok coins, s')
        /\ getUserTopCoins cid s' = (Ok coins, s')
        /\ account cid s' = Some (set_updatedAt now (set_topCoins coins u))
        /\ forall cid', cid' <> cid -> account cid' s' = account cid' s).
Proof.
  unfold updateUserTopCoins. split; [|split].
  - intro H. apply Nat.ltb_lt in H. now rewrite H.
  - intros H Ha. apply Nat.ltb_ge in H. rewrite H. unfold bind.
    now rewrite findOneAndUpdate_absent.
  - intros u H Ha. apply Nat.ltb_ge in H. rewrite H. unfold bind.
    rewrite (findOneAndUpdate_plain now cid _ u s Ha)
      by (intro i; destruct i; reflexivity).
    destruct (replace_account cid u
                (set_updatedAt now (set_topCoins coins u)) s Ha)
      as (A & O & _); [simpl; now apply account_clerkId in Ha|].
    eexists. split; [reflexivity|]. split; [|split; assumption].
    unfold getUserTopCoins, bind, findOne, ret.
    fold (account cid (replace_first (matches (by_clerkId cid))
                         (set_updatedAt now (set_topCoins coins u)) s)).
    now rewrite A.
Qed.

(** ** Wallets *)

(** X6.  Update validators do not run on [findOneAndUpdate], yet in every
    reachable collection the wallet [getSolanaWallet] returns passes the
    validator the schema declares for [solanaWallet]: it is the empty
    string or a well-formed address. *)
Theorem wallet_passes_validator (s : Store) (cid : string) (w : string) :
  reachable s ->
  fst (getSolanaWallet cid s) = Ok w ->
  wallet_validator w = true.
Proof.
  intros R. unfold getSolanaWallet, bind, findOne. fold (account cid s).
  pose proof (reachable_by_Forall wallet_ok _ s apply_op_wallet R) as F.
  destruct (account cid s) as [u|] eqn:Ha; cbn [or_throw ret throw fst];
    [|discriminate].
  pose proof (reachable_account wallet_ok s cid u F Ha) as W.
  unfold wallet_ok in W. intro E. inversion E; subst w.
  destruct (solanaWallet u); [exact W | reflexivity].
Qed.

Lemma getSolanaWallet_account cid u s :
  account cid s = Some u ->
  getSolanaWallet cid s = (Ok (nullish (solanaWallet u) ""), s).
Proof.
  intro Ha. unfold getSolanaWallet, bind, findOne. fold (account cid s).
  now rewrite Ha.
Qed.

(** X7.  When [setSolanaWallet] succeeds, [getSolanaWallet] returns the
    trimmed input, which is a well-formed address; the other accounts are
    untouched; and the same call made again, at any time, succeeds too. *)
Theorem wallet_round_trip (now : Z) (cid raw : string) (u : User)
    (s s' : Store) :
  setSolanaWallet now cid raw s = (Ok u, s') ->
  getSolanaWallet cid s' = (Ok (Str.trim raw), s')
  /\ isValidSolAddress (Str.trim raw) = true
  /\ (forall cid', cid' <> cid -> account cid' s' = account cid' s)
  /\ forall later, succeeded (fst (setSolanaWallet later cid raw s')) = true.
Proof.
  rewrite setSolanaWallet_spec. cbv zeta.
  destruct (isValidSolAddress (Str.trim raw)) eqn:V; cbn [negb]; [|discriminate].
  destruct (account cid s) as [old|] eqn:Ha; [|discriminate].
  destruct (_ && _)%bool; [discriminate|]. intro E. inversion E; subst u s'.
  destruct (replace_account cid old
              (set_updatedAt now (set_solanaWallet (Some (Str.trim raw)) old))
              s Ha) as (A & O & _); [simpl; now apply account_clerkId in Ha|].
  split; [now rewrite (getSolanaWallet_account _ _ _ A)|].
  split; [reflexivity|]. split; [exact O|].
  intro later. rewrite setSolanaWallet_spec. cbv zeta. rewrite V. cbn [negb].
  rewrite A. cbn [index_key set_updatedAt set_solanaWallet solanaWallet
                  option_map okey_eqb].
  now rewrite key_eqb_refl.
Qed.

(** X8.  When [clearSolanaWallet] succeeds, [getSolanaWallet] returns the
    empty string and the other accounts are untouched. *)
Theorem clear_then_get (now : Z) (cid : string) (u : User) (s s' : Store) :
  clearSolanaWallet now cid s = (Ok u, s') ->
  getSolanaWallet cid s' = (Ok "", s')
  /\ solanaWallet u = Some ""
  /\ forall cid', cid' <> cid -> account cid' s' = account cid' s.
Proof.
  rewrite clearSolanaWallet_spec.
  destruct (account cid s) as [old|] eqn:Ha; [|discriminate]. cbv zeta.
  destruct (_ && _)%bool; [discriminate|]. intro E. inversion E; subst u s'.
  destruct (replace_account cid old
              (set_updatedAt now (set_solanaWallet (Some "") old))
              s Ha) as (A & O & _); [simpl; now apply account_clerkId in Ha|].
  split; [now rewrite (getSolanaWallet_account _ _ _ A)|].
  split; [reflexivity | exact O].
Qed.

(** *** The shape of an address *)

Lemma base58_not_white_space (c : ascii) :
  Str.is_base58_char c = true -> Str.is_white_space c = false.
Proof.
  destruct c as [[] [] [] [] [] [] [] []]; vm_compute; congruence.
Qed.

Lemma base58_excludes (c : ascii) :
  Str.is_base58_char c = true ->
  Str.is_word_char c = true
  /\ c <> "0"%char /\ c <> "O"%char /\ c <> "I"%char /\ c <> "l"%char.
Proof.
  destruct c as [[] [] [] [] [] [] [] []]; vm_compute;
    try congruence; intros _; repeat split; congruence.
Qed.

Lemma trimEnd_no_white_space (s : string) :
  Str.all_chars (fun c => negb (Str.is_white_space c)) s = true ->
  Str.trimEnd s = s.
Proof.
  induction s as [|c r IH]; simpl; [reflexivity|].
  intro H. apply andb_prop in H. destruct H as [Hc Hr].
  rewrite (IH Hr). apply negb_true_iff in Hc. rewrite Hc.
  now destruct r.
Qed.

Lemma trim_no_white_space (s : string) :
  Str.all_chars (fun c => negb (Str.is_white_space c)) s = true ->
  Str.trim s = s.
Proof.
  intro H. unfold Str.trim.
  assert (E : Str.trimStart s = s).
  { destruct s as [|c r]; [reflexivity|]. simpl in *.
    apply andb_prop in H. destruct H as [Hc _].
    apply negb_true_iff in Hc. now rewrite Hc. }
  rewrite E. now apply trimEnd_no_white_space.
Qed.

Lemma all_chars_impl (p q : ascii -> bool) (s : string) :
  (forall c, p c = true -> q c = true) ->
  Str.all_chars p s = true -> Str.all_chars q s = true.
Proof.
  intro K. induction s as [|c r IH]; simpl; [reflexivity|].
  intro H. apply andb_prop in H. destruct H as [Hc Hr].
  now rewrite (K c Hc), (IH Hr).
Qed.

Lemma all_chars_occurs (p : ascii -> bool) (c : ascii) (s : string) :
  Str.all_chars p s = true -> p c = false -> occurs c s = false.
Proof.
  intros H Hc. induction s as [|x r IH]; simpl in *; [reflexivity|].
  apply andb_prop in H. destruct H as [Hx Hr]. rewrite (IH Hr), orb_false_r.
  apply Ascii.eqb_neq. intros ->. congruence.
Qed.

(** X9.  What [isValidSolAddress] accepts: 43 or 44 characters, none of
    them the digit zero, capital O, capital I or small l, and no white
    space at either end, so that trimming leaves the address as it is.  No
    address is a well-formed username. *)
Theorem valid_address_shape (addr : string) :
  isValidSolAddress addr = true ->
  (String.length addr = 43%nat \/ String.length addr = 44%nat)
  /\ Str.trim addr = addr
  /\ occurs "0" addr = false /\ occurs "O" addr = false
  /\ occurs "I" addr = false /\ occurs "l" addr = false
  /\ USERNAME_RE addr = false.
Proof.
  unfold isValidSolAddress, SOLANA_BASE58_RE, Str.test_class. intro H.
  apply andb_prop in H. destruct H as [H Hc].
  apply andb_prop in H. destruct H as [Hlo Hhi].
  apply Nat.leb_le in Hlo, Hhi.
  split; [lia|]. split.
  { apply trim_no_white_space.
    apply (all_chars_impl Str.is_base58_char); [|assumption].
    intros c K. now rewrite (base58_not_white_space c K). }
  repeat (split; [now apply (all_chars_occurs Str.is_base58_char) |]).
  unfold USERNAME_RE, Str.test_class.
  replace (Nat.leb (String.length addr) 20) with false
    by (symmetry; apply Nat.leb_gt; lia).
  now rewrite andb_false_r.
Qed.

(** ** The unique fields *)

(** X10.  The unique indexes of the schema as an invariant: in every
    reachable collection two documents that share a [clerkId], an [email]
    (a missing email counts as one value), a [username], a username up to
    case, or a wallet (the empty string included) are the same document. *)
Theorem unique_fields (s : Store) (a b : User) :
  reachable s -> In a s -> In b s ->
  (clerkId a = clerkId b
   \/ email a = email b
   \/ (exists n, username a = Some n /\ username b = Some n)
   \/ (exists n m, username a = Some n /\ username b = Some m
                   /\ Str.toLowerCase n = Str.toLowerCase m)
   \/ (exists w, solanaWallet a = Some w /\ solanaWallet b = Some w)) ->
  a = b.
Proof.
  intros R Ha Hb H. destruct (reachable_by_wf _ s R) as (U & X & N).
  rewrite Forall_forall in N.
  destruct H as [H|[H|[(n & H1 & H2)|[(n & m & H1 & H2 & H3)|(w & H1 & H2)]]]].
  - apply (index_entry_unique IdxClerkId (KStr (clerkId a)) a b s (X _) Ha Hb);
      simpl; congruence.
  - apply (index_entry_unique IdxEmail
             (match email a with Some e => KStr e | None => KNull end)
             a b s (X _) Ha Hb); simpl; [reflexivity | now rewrite H].
  - apply (index_entry_unique IdxUsername (KStr n) a b s (X _) Ha Hb);
      simpl; [now rewrite H1 | now rewrite H2].
  - apply (index_entry_unique IdxUsernameLower (KStr (Str.toLowerCase n))
             a b s (X _) Ha Hb); simpl.
    + rewrite (N a Ha), H1. reflexivity.
    + rewrite (N b Hb), H2, H3. reflexivity.
  - apply (index_entry_unique IdxSolanaWallet (KStr w) a b s (X _) Ha Hb);
      simpl; [now rewrite H1 | now rewrite H2].
Qed.

(** ** What is stored *)

(** X11.  In every reachable collection a stored email is lower-cased
    and trimmed, and a stored username is trimmed, not empty, and has its
    lower-cased form in [usernameLower]. *)
Theorem stored_strings_normalized (s : Store) (u : User) :
  reachable s -> In u s ->
  (forall e, email u = Some e -> Str.toLowerCase e = e /\ Str.trim e = e)
  /\ (forall n, username u = Some n ->
        Str.trim n = n /\ n <> ""
        /\ usernameLower u = Some (Str.toLowerCase n)).
Proof.
  intros R Hu.
  pose proof (reachable_by_Forall email_ok _ s apply_op_email R) as E.
  pose proof (reachable_by_Forall username_ok _ s apply_op_username R) as N.
  destruct (reachable_by_wf _ s R) as (_ & _ & L).
  rewrite Forall_forall in E, N, L.
  specialize (E u Hu). specialize (N u Hu). specialize (L u Hu).
  unfold email_ok, username_ok, names_ok in *. split.
  - intros e He. now rewrite He in E.
  - intros n Hn. rewrite Hn in N, L. destruct N. auto.
Qed.

(** X12.  In every reachable collection every entry of a credit history
    records a positive amount. *)
Theorem history_entries (s : Store) (cid : string) (u : User) :
  reachable s -> account cid s = Some u ->
  forall e, In e (creditHistory u) -> (0 <? creditsUsed e)%float = true.
Proof.
  intros R Ha.
  pose proof (reachable_by_Forall entries_ok _ s apply_op_entries R) as E.
  pose proof (reachable_account entries_ok s cid u E Ha) as F.
  unfold entries_ok in F. now rewrite Forall_forall in F.
Qed.

(** ** The webhook *)

Lemma or_else_some a b e :
  or_else a b = Some e ->
  (a = Some e /\ Str.truthy e = true) \/ b = Some e.
Proof.
  unfold or_else. destruct a as [x|]; [|now right].
  destruct (Str.truthy x) eqn:T; [|now right].
  intro H. inversion H; subst. now left.
Qed.

(** X13.  [getPrimaryEmailFromEvent]: the result, when there is one, is
    the non-empty address of an entry of the list; there is none when the
    list is missing or empty; the entry whose id is the primary id wins
    when its address is not empty; and without a primary id the first
    entry's address is taken. *)
Theorem getPrimaryEmailFromEvent_spec (data : ClerkEventData) :
  let list := nullish (email_addresses data) [] in
  (forall e, getPrimaryEmailFromEvent data = Some e ->
     e <> "" /\ exists a, In a list /\ email_address a = e)
  /\ (list = [] -> getPrimaryEmailFromEvent data = None)
  /\ (forall pid a,
        primary_email_address_id data = Some pid -> pid <> "" ->
        find (fun x => String.eqb (ea_id x) pid) list = Some a ->
        email_address a <> "" ->
        getPrimaryEmailFromEvent data = Some (email_address a))
  /\ (forall a r,
        list = a :: r -> primary_email_address_id data = None ->
        email_address a <> "" ->
        getPrimaryEmailFromEvent data = Some (email_address a)).
Proof.
  cbv zeta. unfold getPrimaryEmailFromEvent.
  set (l := nullish (email_addresses data) []).
  split; [|split; [|split]].
  - intros e H. apply or_else_some in H. destruct H as [[H T]|H].
    + split; [now apply truthy_nonempty|].
      destruct (primary_email_address_id data) as [pid|]; [|discriminate].
      destruct (Str.truthy pid); [|discriminate].
      destruct (find _ l) as [a|] eqn:F; [|discriminate].
      inversion H; subst. exists a. split; [|reflexivity].
      now apply find_some in F.
    + apply or_else_some in H. destruct H as [[H T]|H]; [|discriminate].
      split; [now apply truthy_nonempty|].
      destruct l as [|a r]; [discriminate|]. inversion H; subst.
      exists a. split; [now left | reflexivity].
  - intros ->. simpl. now destruct (primary_email_address_id data) as [[]|].
  - intros pid a -> Hp F Ha. apply truthy_nonempty in Hp, Ha.
    rewrite Hp, F. simpl. now rewrite Ha.
  - intros a r -> -> Ha. apply truthy_nonempty in Ha. simpl. now rewrite Ha.
Qed.

(** *** Soft delete *)

Lemma holds_key_replace_first (f : User -> bool) i k old new s :
  find f s = Some old -> index_key i new = index_key i old ->
  holds_key i k (replace_first f new s) = holds_key i k s.
Proof.
  intros F K. destruct (replace_first_split f old new s F) as (l1 & l2 & -> & ->).
  unfold holds_key. rewrite !existsb_app. simpl. now rewrite K.
Qed.

Lemma soft_delete_step now cid s :
  findOneAndUpdate now (by_clerkId cid) (set_deletedAt (Some now)) s
  = match account cid s with
    | Some u =>
        (Ok (Some (set_updatedAt now (set_deletedAt (Some now) u))),
         replace_first (matches (by_clerkId cid))
           (set_updatedAt now (set_deletedAt (Some now) u)) s)
    | None => (Ok None, s)
    end.
Proof.
  destruct (account cid s) as [u|] eqn:Ha.
  - apply findOneAndUpdate_plain; [assumption|]. intro i; destruct i; reflexivity.
  - now apply findOneAndUpdate_absent.
Qed.

Lemma handleEvent_deleted now evt s :
  ev_type evt = user_deleted ->
  let cid := nullish (ev_id (ev_data evt)) "" in
  handleEvent now evt s
  = (Ok (mkResponse 200 (Text "")),
     if Str.truthy cid
     then match account cid s with
          | Some u =>
              replace_first (matches (by_clerkId cid))
                (set_updatedAt now (set_deletedAt (Some now) u)) s
          | None => s
          end
     else s).
Proof.
  intros T cid. unfold handleEvent. rewrite T. fold cid.
  destruct (Str.truthy cid); cbn [negb]; [|reflexivity].
  unfold bind, try_catch. rewrite soft_delete_step.
  now destruct (account cid s).
Qed.

(** X14.  A [user.deleted] event is always answered with status 200 and
    an empty body.  It removes no document: the account, if the event names
    one that exists, gets [deletedAt] and [updatedAt] set to the time of
    the event and keeps every other field; the other accounts are
    untouched; and all index entries stay, so that a name held by the
    deleted account is still reported as taken. *)
Theorem user_deleted_spec (now : Z) (evt : WebhookEvent) (s : Store) :
  ev_type evt = user_deleted ->
  let cid := nullish (ev_id (ev_data evt)) "" in
  let s' := snd (handleEvent now evt s) in
  fst (handleEvent now evt s) = Ok (mkResponse 200 (Text ""))
  /\ List.length s' = List.length s
  /\ (forall cid', cid' <> cid -> account cid' s' = account cid' s)
  /\ (cid = "" \/ account cid s = None -> s' = s)
  /\ (forall u, cid <> "" -> account cid s = Some u ->
        account cid s' = Some (set_updatedAt now (set_deletedAt (Some now) u)))
  /\ (forall i k, holds_key i k s' = holds_key i k s)
  /\ (forall raw, isUsernameAvailable raw s' = (fst (isUsernameAvailable raw s), s')).
Proof.
  intros T cid s'. subst s'. rewrite (handleEvent_deleted now evt s T).
  fold cid. cbn [fst snd].
  set (s' := if Str.truthy cid then _ else s).
  assert (K : forall i k, holds_key i k s' = holds_key i k s).
  { intros i k. subst s'. destruct (Str.truthy cid); [|reflexivity].
    destruct (account cid s) as [u|] eqn:Ha; [|reflexivity].
    apply holds_key_replace_first with (old := u); [exact Ha|].
    destruct i; reflexivity. }
  split; [reflexivity|]. split; [|split; [|split; [|split; [|split]]]].
  - subst s'. destruct (Str.truthy cid); [|reflexivity].
    destruct (account cid s); [|reflexivity]. apply length_replace_first.
  - intros cid' Hne. subst s'. destruct (Str.truthy cid); [|reflexivity].
    destruct (account cid s) as [u|] eqn:Ha; [|reflexivity].
    apply account_replace_first_other with (cid := cid); auto.
    + intros x Hx. now apply matches_clerkId in Hx.
    + simpl. now apply account_clerkId in Ha.
  - intros [E|Ha]; subst s'.
    + now rewrite E.
    + rewrite Ha. now destruct (Str.truthy cid).
  - intros u Hne Ha. subst s'. apply truthy_nonempty in Hne. rewrite Hne, Ha.
    apply account_replace_first with (old := u); auto.
    simpl. now apply account_clerkId in Ha.
  - exact K.
  - intro raw. unfold isUsernameAvailable. cbv zeta.
    destruct (negb (USERNAME_RE (Str.trim raw))); [reflexivity|].
    destruct (RESERVED_has _); [reflexivity|].
    unfold bind, exists_usernameLower. rewrite K.
    now destruct (holds_key _ _ s).
Qed.

(** *** Responses *)

(** An upsert from an event that is refused has written nothing. *)
Lemma upsertFromEvent_throw now cid em data s e s' :
  upsertFromEvent now cid em data s = (Throw e, s') -> s' = s.
Proof.
  rewrite upsertFromEvent_spec. cbv zeta.
  destruct (createUser now (with_username _ _) s) as [[u|e1] s1] eqn:E1;
    [discriminate|].
  apply createUser_throw in E1. subst s1.
  destruct (is_username_dup e1).
  - intro E2. now apply createUser_throw in E2.
  - intro E2. now inversion E2.
Qed.

(** The account an accepted upsert leaves behind. *)
Lemma upsertFromEvent_ok now cid em data s u s' :
  upsertFromEvent now cid em data s = (Ok u, s') ->
  account cid s' = Some u
  /\ email u = Some (Str.trim (Str.toLowerCase em))
  /\ firstName u = nullish (or_else (first_name data) None) ""
  /\ lastName u = nullish (or_else (last_name data) None) ""
  /\ updatedAt u = now
  /\ (forall cid', cid' <> cid -> account cid' s' = account cid' s).
Proof.
  rewrite upsertFromEvent_spec. cbv zeta.
  assert (K : forall user, in_clerkId user = cid -> in_email user = em ->
            in_firstName user = Some (nullish (or_else (first_name data) None) "") ->
            in_lastName user = Some (nullish (or_else (last_name data) None) "") ->
            forall s0, createUser now user s0 = (Ok u, s') ->
            account cid s' = Some u
            /\ email u = Some (Str.trim (Str.toLowerCase em))
            /\ firstName u = nullish (or_else (first_name data) None) ""
            /\ lastName u = nullish (or_else (last_name data) None) ""
            /\ updatedAt u = now
            /\ (forall cid', cid' <> cid -> account cid' s' = account cid' s0)).
  { intros user Hc He Hf Hl s0 E.
    destruct (createUser_ok _ _ _ _ _ E) as (A & Idem & Hup & Oth & _).
    destruct (createUser_set_profile user u) as (P1 & P2 & P3 & _).
    rewrite Idem, ?He, ?Hf, ?Hl in *. rewrite Hc in A, Oth.
    repeat split; assumption. }
  destruct (createUser now (with_username _ _) s) as [[u1|e1] s1] eqn:E1.
  - intro E. inversion E; subst u1 s1.
    now apply (K (with_username
                    (or_else (option_map Str.trim (ev_username data)) None)
                    (basePayload cid em data))
                 eq_refl eq_refl eq_refl eq_refl s E1).
  - apply createUser_throw in E1. subst s1.
    destruct (is_username_dup e1); [|discriminate].
    intro E.
    now apply (K (basePayload cid em data) eq_refl eq_refl eq_refl eq_refl s E).
Qed.

Lemma handleEvent_outcome now evt s :
  match handleEvent now evt s with
  | (Ok resp, s') => status resp = 200%nat \/ (status resp = 400%nat /\ s' = s)
  | (Throw _, s') => s' = s
  end.
Proof.
  unfold handleEvent.
  destruct (ev_type evt) eqn:T.
  1,2: destruct (negb _); [right; now split|];
       destruct (getPrimaryEmailFromEvent _) as [em|]; [|right; now split];
       unfold bind;
       destruct (upsertFromEvent _ _ _ _ _) as [[u|e] s'] eqn:E;
       [now left | now apply upsertFromEvent_throw in E].
  - pose proof (handleEvent_deleted now evt s T) as H. unfold handleEvent in H.
    rewrite T in H. cbv zeta in H. rewrite H. now left.
  - now left.
Qed.

(** X15.  [POST] throws only when the webhook secret is missing or
    empty.  With a secret it always returns a response, whose status is
    200, 400 or 500; whenever the status is not 200 the collection is as it
    was; a missing signature header gives 400 "Error: Missing Svix
    headers"; with the headers present, a secret from which no verifier can
    be built gives 500, and a payload that does not verify gives 400
    "Invalid webhook signature". *)
Theorem POST_responses (Verifier : Type) (Webhook : string -> option Verifier)
    (verify : Verifier -> Request -> option WebhookEvent)
    (WEBHOOK_SECRET : option string) (now : Z) (req : Request) (s : Store) :
  (or_else WEBHOOK_SECRET None = None ->
   POST Verifier Webhook verify WEBHOOK_SECRET now req s
   = (Throw (Err "Please add WEBHOOK_SECRET to .env.local"), s))
  /\ (forall secret, or_else WEBHOOK_SECRET None = Some secret ->
      exists resp s',
        POST Verifier Webhook verify WEBHOOK_SECRET now req s = (Ok resp, s')
        /\ (status resp = 200 \/ status resp = 400 \/ status resp = 500)%nat
        /\ (status resp <> 200%nat -> s' = s)
        /\ (header_missing (svix_id req) = true
            \/ header_missing (svix_timestamp req) = true
            \/ header_missing (svix_signature req) = true ->
            resp = mkResponse 400 (Text "Error: Missing Svix headers"))
        /\ (header_missing (svix_id req) = false ->
            header_missing (svix_timestamp req) = false ->
            header_missing (svix_signature req) = false ->
            (Webhook secret = None ->
             resp = mkResponse 500 (Text "Internal server error"))
            /\ (forall wh, Webhook secret = Some wh -> verify wh req = None ->
                resp = mkResponse 400 (Text "Invalid webhook signature")))).
Proof.
  unfold POST. split.
  - intros ->. reflexivity.
  - intros secret ->. unfold try_catch.
    destruct (header_missing (svix_id req)) eqn:H1;
      [eexists; eexists; split; [reflexivity|]; cbn;
       repeat split; auto; try discriminate|].
    destruct (header_missing (svix_timestamp req)) eqn:H2;
      [eexists; eexists; split; [reflexivity|]; cbn;
       repeat split; auto; try discriminate|].
    destruct (header_missing (svix_signature req)) eqn:H3;
      [eexists; eexists; split; [reflexivity|]; cbn;
       repeat split; auto; try discriminate|].
    cbn [orb].
    destruct (Webhook secret) as [wh|] eqn:W.
    2:{ eexists; eexists. split; [reflexivity|]. cbn.
        split; [auto|]. split; [auto|].
        split; [intros [H|[H|H]]; discriminate|].
        intros _ _ _. split; [reflexivity | discriminate]. }
    destruct (verify wh req) as [evt|] eqn:V.
    + pose proof (handleEvent_outcome now evt s) as O.
      destruct (handleEvent now evt s) as [[resp|e] s'].
      * exists resp, s'. split; [reflexivity|].
        split; [destruct O as [O|[O _]]; auto|].
        split; [destruct O as [O|[_ O]]; [congruence | auto]|].
        split; [intros [H|[H|H]]; discriminate|].
        intros _ _ _. split; [discriminate|].
        intros wh' E V'. congruence.
      * subst s'. eexists; eexists. split; [reflexivity|]. cbn.
        split; [auto|]. split; [auto|].
        split; [intros [H|[H|H]]; discriminate|].
        intros _ _ _. split; [discriminate|].
        intros wh' E V'. congruence.
    + eexists; eexists. split; [reflexivity|]. cbn.
      split; [auto|]. split; [auto|].
      split; [intros [H|[H|H]]; discriminate|].
      intros _ _ _. split; [discriminate | auto].
Qed.

(** X16.  What status 200 means for a [user.created] or [user.updated]
    event: the event has a non-empty id and a primary email, the body
    carries the account as it is stored after the call, whose email is the
    primary email lower-cased and trimmed and whose first and last name are
    those of the event (empty when missing), stamped with the time of the
    call; every other account is untouched. *)
Theorem handleEvent_synced (now : Z) (evt : WebhookEvent) (resp : Response)
    (s s' : Store) :
  ev_type evt = user_created \/ ev_type evt = user_updated ->
  handleEvent now evt s = (Ok resp, s') -> status resp = 200%nat ->
  exists cid em u,
    ev_id (ev_data evt) = Some cid /\ cid <> ""
    /\ getPrimaryEmailFromEvent (ev_data evt) = Some em
    /\ body resp = JsonUser (match ev_type evt with
                             | user_created => "User created"
                             | _ => "User updated"
                             end) u
    /\ account cid s' = Some u
    /\ email u = Some (Str.trim (Str.toLowerCase em))
    /\ firstName u = nullish (or_else (first_name (ev_data evt)) None) ""
    /\ lastName u = nullish (or_else (last_name (ev_data evt)) None) ""
    /\ updatedAt u = now
    /\ (forall cid', cid' <> cid -> account cid' s' = account cid' s).
Proof.
  intros T E St.
  assert (H : exists cid em,
             ev_id (ev_data evt) = Some cid /\ Str.truthy cid = true
             /\ getPrimaryEmailFromEvent (ev_data evt) = Some em).
  { unfold handleEvent in E.
    destruct (ev_id (ev_data evt)) as [cid|] eqn:Hid.
    - destruct (Str.truthy cid) eqn:Tc.
      + destruct (getPrimaryEmailFromEvent (ev_data evt)) as [em|] eqn:Hem.
        * now exists cid, em.
        * exfalso. cbn [nullish] in E. rewrite Tc in E. cbn [negb] in E.
          destruct T as [T|T]; rewrite T in E; inversion E; subst resp;
            discriminate.
      + exfalso. cbn [nullish] in E. rewrite Tc in E. cbn [negb] in E.
        destruct T as [T|T]; rewrite T in E; inversion E; subst resp;
          discriminate.
    - exfalso. cbn [nullish Str.truthy negb] in E.
      destruct T as [T|T]; rewrite T in E; inversion E; subst resp;
        discriminate. }
  destruct H as (cid & em & Hid & Tc & Hem).
  rewrite (handleEvent_upsert now evt cid em s T Hid Tc Hem) in E.
  destruct (upsertFromEvent now cid em (ev_data evt) s) as [[u|e] s1] eqn:U;
    [|discriminate].
  inversion E; subst resp s1. exists cid, em, u.
  split; [assumption|]. split; [now apply truthy_nonempty|].
  split; [assumption|]. split; [reflexivity|].
  now apply upsertFromEvent_ok in U.
Qed.

(** ** The checkout flow *)

Section BillingMore.

Variable customer_id : nat -> string.
Variable checkout_url : nat -> option string.
Variable rejects : Call -> list Event -> option string.

(** The provider after a call whose parameters are all present. *)
Lemma subscribe_customers now userId em priceId w :
  Str.truthy userId = true -> Str.truthy em = true ->
  Str.truthy priceId = true ->
  customers (stripe (snd (subscribe customer_id checkout_url rejects now
                            userId em priceId w)))
  = match lookup_rejected rejects em w with
    | Some _ => customers (stripe w)
    | None => customers (stripe_after_lookup customer_id em (stripe w))
    end.
Proof.
  intros T1 T2 T3.
  rewrite (subscribe_spec customer_id checkout_url rejects now userId em
             priceId w T1 T2 T3).
  cbv zeta.
  destruct (lookup_rejected rejects em w); [reflexivity|].
  destruct (customer_write _ _ _ _) as [[u|e] db']; [|reflexivity].
  destruct (price_accepted _ _ _ _ _ _); [|reflexivity].
  now destruct (session_rejected _ _ _ _ _ _).
Qed.

Lemma listed_after_lookup em st :
  (forall c, In c (customers st) -> cus_id c <> "") ->
  customer_id (List.length (customers st)) <> "" ->
  listed_customer em (stripe_after_lookup customer_id em st)
  = Some (billing_customer customer_id em st).
Proof.
  intros Hc Hn. unfold stripe_after_lookup, billing_customer.
  destruct (listed_customer em st) as [id|] eqn:L; [exact L|].
  unfold listed_customer in *. cbn [customers]. rewrite filter_app.
  destruct (filter _ (customers st)) as [|c r] eqn:F.
  - cbn. rewrite String.eqb_refl. cbn.
    apply truthy_nonempty in Hn. now rewrite Hn.
  - exfalso. assert (In c (customers st)).
    { eapply (proj1 (filter_In _ c (customers st))). rewrite F. now left. }
    apply Hc in H. apply truthy_nonempty in H. rewrite H in L. discriminate.
Qed.

(** X17.  With a provider that issues non-empty customer ids: one call
    adds at most one customer, and none when the provider rejects the
    lookup; and once the provider has answered the lookup of a first
    [subscribe], a second [subscribe] for the same email creates no second
    customer and is tied to the same customer id as the first. *)
Theorem subscribe_reuses_customer (t1 t2 : Z)
    (user1 user2 em price1 price2 : string) (w : World) :
  user1 <> "" -> user2 <> "" -> em <> "" -> price1 <> "" -> price2 <> "" ->
  (forall c, In c (customers (stripe w)) -> cus_id c <> "") ->
  (forall n, customer_id n <> "") ->
  let w1 := snd (subscribe customer_id checkout_url rejects t1 user1 em
                   price1 w) in
  let w2 := snd (subscribe customer_id checkout_url rejects t2 user2 em
                   price2 w1) in
  (lookup_rejected rejects em w = None ->
   customers (stripe w2) = customers (stripe w1)
   /\ billing_customer customer_id em (stripe w1)
      = billing_customer customer_id em (stripe w))
  /\ (lookup_rejected rejects em w <> None ->
      customers (stripe w1) = customers (stripe w))
  /\ (List.length (customers (stripe w1))
      <= S (List.length (customers (stripe w))))%nat.
Proof.
  intros U1 U2 E P1 P2 Hc Hn w1 w2.
  apply truthy_nonempty in U1, U2, E, P1, P2.
  pose proof (subscribe_customers t1 user1 em price1 w U1 E P1) as C1.
  fold w1 in C1.
  split; [|split].
  - intro L. rewrite L in C1.
    assert (L1 : listed_customer em (stripe w1)
                 = Some (billing_customer customer_id em (stripe w))).
    { rewrite <- (listed_after_lookup em (stripe w) Hc (Hn _)).
      unfold listed_customer. now rewrite C1. }
    split.
    + unfold w2. rewrite subscribe_customers by assumption.
      destruct (lookup_rejected rejects em w1); [reflexivity|].
      unfold stripe_after_lookup. now rewrite L1.
    + unfold billing_customer at 1. now rewrite L1.
  - intro L. destruct (lookup_rejected rejects em w); [exact C1 | congruence].
  - rewrite C1. destruct (lookup_rejected rejects em w); [lia|].
    unfold stripe_after_lookup.
    destruct (listed_customer em (stripe w)); cbn [customers]; [lia|].
    rewrite length_app. simpl. lia.
Qed.

(** X18.  Every failure of [subscribe] is one of two: a missing
    parameter, thrown as "Missing required params" before anything is
    read or written; or an error rethrown with the prefix "Failed to
    create subscription: ", in which case no checkout session was opened,
    and the collection is as it was unless the customer id was written
    and the failure came after it: a failed price check, or a session the
    provider rejected. *)
Theorem subscribe_failure (now : Z) (userId em priceId : string)
    (w w' : World) (e : Error) :
  subscribe customer_id checkout_url rejects now userId em priceId w
  = (Throw e, w') ->
  ((userId = "" \/ em = "" \/ priceId = "")
   /\ e = Err "Missing required params" /\ w' = w)
  \/ (userId <> "" /\ em <> "" /\ priceId <> ""
      /\ (exists e0, e = wrap e0)
      /\ sessions (stripe w') = sessions (stripe w)
      /\ (db w' = db w
          \/ (exists u,
                 customer_write now userId
                   (billing_customer customer_id em (stripe w)) (db w)
                 = (Ok u, db w')
                 /\ (price_accepted customer_id rejects userId em priceId w
                     = false
                     \/ exists m,
                          session_rejected customer_id rejects userId em
                            priceId w = Some m)))).
Proof.
  intro H. unfold subscribe in H.
  destruct (Str.truthy userId) eqn:T1;
    [|left; inversion H; destruct userId; [auto | discriminate]].
  destruct (Str.truthy em) eqn:T2;
    [|left; inversion H; destruct em; [auto | discriminate]].
  destruct (Str.truthy priceId) eqn:T3;
    [|left; inversion H; destruct priceId; [auto | discriminate]].
  right.
  pose proof (subscribe_spec customer_id checkout_url rejects now userId em
                priceId w T1 T2 T3) as S.
  cbv zeta in S. unfold subscribe in S. rewrite T1, T2, T3 in S.
  cbn [negb orb] in H, S. rewrite S in H. clear S.
  apply truthy_nonempty in T1, T2, T3.
  split; [assumption|]. split; [assumption|]. split; [assumption|].
  destruct (lookup_rejected rejects em w) as [m|].
  { inversion H; subst e w'. split; [eexists; reflexivity|].
    cbn [stripe db]. split; [reflexivity | now left]. }
  destruct (customer_write _ _ _ _) as [[u|e1] db'] eqn:C.
  - destruct (price_accepted _ _ _ _ _ _) eqn:P.
    + destruct (session_rejected _ _ _ _ _ _) as [m|] eqn:SR; [|discriminate].
      inversion H; subst e w'. split; [eexists; reflexivity|].
      cbn [stripe db]. split; [apply sessions_after_lookup|].
      right. exists u. split; [reflexivity|]. right. now exists m.
    + inversion H; subst e w'. split; [eexists; reflexivity|].
      cbn [stripe db]. split; [apply sessions_after_lookup|].
      right. exists u. split; [reflexivity|]. now left.
  - inversion H; subst e w'. apply customer_write_throw in C.
    destruct C as (-> & _). split; [eexists; reflexivity|]. cbn [stripe db].
    split; [apply sessions_after_lookup | now left].
Qed.

End BillingMore.

(** ** Usernames *)

Lemma lower_char_word (c : ascii) :
  Str.is_word_char (Str.lower_char c) = Str.is_word_char c.
Proof.
  destruct c as [[] [] [] [] [] [] [] []]; vm_compute; reflexivity.
Qed.

Lemma toLowerCase_word (s : string) :
  Str.all_chars Str.is_word_char (Str.toLowerCase s)
  = Str.all_chars Str.is_word_char s.
Proof.
  induction s as [|c r IH]; simpl; [reflexivity|].
  now rewrite lower_char_word, IH.
Qed.

(** The format rule does not see the case. *)
Lemma USERNAME_RE_toLowerCase (s : string) :
  USERNAME_RE (Str.toLowerCase s) = USERNAME_RE s.
Proof.
  unfold USERNAME_RE, Str.test_class.
  now rewrite toLowerCase_length, toLowerCase_word.
Qed.

(** An accepted [setUsername], read backwards. *)
Lemma setUsername_ok now cid raw u s s' :
  setUsername now cid raw s = (Ok u, s') ->
  USERNAME_RE (Str.trim raw) = true
  /\ RESERVED_has (Str.toLowerCase (Str.trim raw)) = false
  /\ (exists old, account cid s = Some old
                  /\ u = set_updatedAt now (rename (Str.trim raw) old))
  /\ account cid s' = Some u
  /\ username u = Some (Str.trim raw)
  /\ usernameLower u = Some (Str.toLowerCase (Str.trim raw))
  /\ (forall cid', cid' <> cid -> account cid' s' = account cid' s).
Proof.
  rewrite setUsername_spec. cbv zeta.
  destruct (USERNAME_RE (Str.trim raw)) eqn:F; cbn [negb]; [|discriminate].
  destruct (RESERVED_has _) eqn:Rv; [discriminate|].
  destruct (account cid s) as [old|] eqn:Ha; [|discriminate].
  destruct (dup_on_update _ _ _); [discriminate|].
  intro E. inversion E; subst u s'. clear E.
  destruct (replace_account cid old
              (set_updatedAt now (rename (Str.trim raw) old)) s Ha)
    as (A & O & _); [simpl; now apply account_clerkId in Ha|].
  split; [reflexivity|]. split; [reflexivity|].
  split; [now exists old|]. split; [exact A|].
  split; [reflexivity|]. split; [reflexivity | exact O].
Qed.

(** X19.  When [setUsername] succeeds, the account holds the trimmed
    name with its case kept, the other accounts are untouched, and
    [isUsernameAvailable] reports the name taken in every casing. *)
Theorem setUsername_then_taken (now : Z) (cid raw : string) (u : User)
    (s s' : Store) :
  setUsername now cid raw s = (Ok u, s') ->
  account cid s' = Some u
  /\ username u = Some (Str.trim raw)
  /\ usernameLower u = Some (Str.toLowerCase (Str.trim raw))
  /\ (forall cid', cid' <> cid -> account cid' s' = account cid' s)
  /\ forall other,
       Str.toLowerCase (Str.trim other) = Str.toLowerCase (Str.trim raw) ->
       isUsernameAvailable other s' = (Ok (mkAvail false (Some msg_taken)), s').
Proof.
  intro E.
  destruct (setUsername_ok now cid raw u s s' E) as (F & Rv & _ & A & N & L & O).
  split; [exact A|]. split; [exact N|]. split; [exact L|]. split; [exact O|].
  intros other Hl. unfold isUsernameAvailable. cbv zeta.
  rewrite <- (USERNAME_RE_toLowerCase (Str.trim other)), Hl,
    USERNAME_RE_toLowerCase, F, Rv.
  cbn [negb]. unfold bind, exists_usernameLower.
  rewrite (holds_key_intro IdxUsernameLower _ _ _ (account_In _ _ _ A));
    [reflexivity|].
  simpl. now rewrite L.
Qed.

(** ** What an operation may touch *)

Lemma field_eq_refl f u : field_eq f u u.
Proof. destruct f; simpl; auto. Qed.

Lemma field_eq_trans f a b c : field_eq f a b -> field_eq f b c -> field_eq f a c.
Proof.
  destruct f; simpl; try (intros [A1 A2] [B1 B2]; split); congruence.
Qed.

Lemma untouched_refl o u : untouched o u u.
Proof.
  repeat (split; [reflexivity|]). intros f _. apply field_eq_refl.
Qed.

Lemma untouched_trans o a b c :
  untouched o a b -> untouched o b c -> untouched o a c.
Proof.
  intros (A1 & A2 & A3 & A4 & A5) (B1 & B2 & B3 & B4 & B5).
  repeat (split; [congruence|]).
  intros f Hf. apply field_eq_trans with (b := b); auto.
Qed.

Lemma untouched_updatedAt o t u u' :
  untouched o u u' -> untouched o u (set_updatedAt t u').
Proof.
  intros (A1 & A2 & A3 & A4 & A5). repeat (split; [assumption|]).
  intros f Hf. specialize (A5 f Hf). destruct f; exact A5.
Qed.

Section Framed.

Variable R : User -> User -> Prop.
Hypothesis R_trans : forall a b c, R a b -> R b c -> R a c.
Hypothesis R_refl : forall u, R u u.
Hypothesis R_clerkId : forall u u', R u u' -> clerkId u' = clerkId u.

Lemma framed_refl cid0 s : unique_clerkIds s -> framed R cid0 s s.
Proof.
  intro U. split; [assumption|]. split; [reflexivity|].
  split; [|lia]. intros cid u Ha. exists u. split; [assumption | apply R_refl].
Qed.

Lemma update_keeps_framed cid0 s0 now q upd :
  q_clerkId q = cid0 -> (forall old, R old (set_updatedAt now (upd old))) ->
  update_keeps (framed R cid0 s0) now q upd.
Proof.
  intros Hq Hs s old (U & O & P & L) F D.
  pose proof (find_some _ _ F) as [Hin Hm].
  pose proof (matches_clerkId _ _ Hm) as Hc. rewrite Hq in Hc.
  assert (Hf : forall d, matches q d = true -> clerkId d = cid0).
  { intros d Hd. apply matches_clerkId in Hd. congruence. }
  assert (Hn : clerkId (set_updatedAt now (upd old)) = cid0).
  { rewrite (R_clerkId _ _ (Hs old)). exact Hc. }
  split; [|split; [|split]].
  - apply (update_keeps_unique now q upd); auto.
    intro x. exact (R_clerkId _ _ (Hs x)).
  - intros cid Hne. rewrite <- (O cid Hne).
    now apply account_replace_first_other with (cid := cid0).
  - intros cid u Ha. destruct (P cid u Ha) as (u1 & A1 & S1).
    destruct (string_dec cid cid0) as [->|Hne].
    + assert (old = u1) by (apply (account_unique cid0 u1 old s); auto).
      subst u1. exists (set_updatedAt now (upd old)). split.
      * now apply account_replace_first with (old := old).
      * now apply R_trans with (b := old).
    + exists u1. split; [|assumption]. rewrite <- A1.
      now apply account_replace_first_other with (cid := cid0).
  - now rewrite length_replace_first.
Qed.

Lemma insert_keeps_framed cid0 s0 now ins :
  (forall d, clerkId (ins d) = clerkId d) ->
  insert_keeps (framed R cid0 s0) now (by_clerkId cid0) ins.
Proof.
  intros Hc s (U & O & P & L) F D.
  set (d := ins (schemaDefaults (List.length s) now (q_clerkId (by_clerkId cid0)))).
  assert (Hd : clerkId d = cid0) by (unfold d; now rewrite Hc).
  split; [|split; [|split]].
  - now apply (insert_keeps_unique now cid0 ins).
  - intros cid Hne. rewrite <- (O cid Hne).
    now apply account_app_other with (cid := cid0).
  - intros cid u Ha. destruct (P cid u Ha) as (u1 & A1 & S1).
    exists u1. split; [|assumption]. unfold account in *.
    now apply find_app_some.
  - rewrite length_app. simpl. lia.
Qed.

End Framed.

Lemma createUser_set_untouched o user u :
  (forall f, may_write o f = false ->
     f <> FEmail /\ f <> FNames /\ f <> FHandle) ->
  untouched o u (createUser_set user u).
Proof.
  intro W.
  destruct (createUser_set_rest user u)
    as (R1 & R2 & R3 & R4 & R5 & R6 & R7 & R8 & R9 & R10).
  repeat (split; [assumption|]).
  intros f Hf. destruct (W f Hf) as (N1 & N2 & N3).
  destruct f; simpl; auto; congruence.
Qed.

Ltac untouched_by_update :=
  apply untouched_updatedAt;
  first
    [ apply createUser_set_untouched;
      let f := fresh in intro f; destruct f; simpl; intro;
      first [discriminate | repeat split; discriminate]
    | repeat (split; [reflexivity|]);
      let f := fresh in intro f; destruct f; simpl; intro;
      first [discriminate | repeat split] ].

Lemma apply_op_framed o s0 s :
  framed (untouched o) (op_target o) s0 s ->
  framed (untouched o) (op_target o) s0 (apply_op o s).
Proof.
  pose proof (untouched_trans o) as T.
  assert (C : forall u u', untouched o u u' -> clerkId u' = clerkId u)
    by (intros u u' (_ & H & _); exact H).
  destruct o; cbn [apply_op op_target]; revert s;
    match goal with
    | |- forall s, ?I s -> _ (snd (?m s)) => change (preserves I m)
    end; unfold_op; preserve;
    first [ apply update_keeps_framed;
            [exact T | exact C | reflexivity | intro; untouched_by_update]
          | apply insert_keeps_framed; intro;
            rewrite ?(proj1 (createUser_setOnInsert_fields _ _)),
                    ?(proj1 (createUser_set_fields _ _)); reflexivity ].
Qed.

(** X20.  What an operation may touch.  Every operation leaves the
    documents of all accounts but the one it addresses as they were and
    removes no document; in the account it addresses it never changes
    [_id], [clerkId], [createdAt] or [subscriptionTier], and it changes only
    the fields its own update names ([may_write]): credits and their
    history change by [addCredits] and [consumeBacktestCredits] alone, the
    wallet by the two wallet actions alone, and so on. *)
Theorem apply_op_frame (o : Op) (s : Store) :
  unique_clerkIds s ->
  (forall cid, cid <> op_target o -> account cid (apply_op o s) = account cid s)
  /\ (forall cid u, account cid s = Some u ->
        exists u', account cid (apply_op o s) = Some u'
                   /\ _id u' = _id u /\ clerkId u' = clerkId u
                   /\ createdAt u' = createdAt u
                   /\ subscriptionTier u' = subscriptionTier u
                   /\ forall f, may_write o f = false -> field_eq f u u')
  /\ (List.length s <= List.length (apply_op o s))%nat.
Proof.
  intro U.
  destruct (apply_op_framed o s s
              (framed_refl (untouched o) (untouched_refl o) _ s U))
    as (_ & O & P & L).
  split; [exact O|]. split; [|exact L].
  intros cid u Ha. destruct (P cid u Ha) as (u' & A & S1 & S2 & S3 & S4 & S5).
  exists u'. repeat (split; [assumption|]). exact S5.
Qed.

(** ** The client context *)

Lemma or_else_nonempty c rest d :
  nullish rest d <> "" -> nullish (or_else c rest) d <> "".
Proof.
  intro H. unfold or_else. destruct c as [x|]; [|exact H].
  destruct (Str.truthy x) eqn:T; [|exact H].
  cbn [nullish]. now apply truthy_nonempty.
Qed.

(** X21.  The display name the context derives is never empty: it is
    "First Last" (trimmed) when that is not empty, else the username when
    there is a non-empty one, and ends with the literal "User". *)
Theorem context_name (clerkUser : option ClerkUser) (mongo : option User)
    (l : bool) :
  let v := contextValue clerkUser mongo l in
  name v <> ""
  /\ (fullFromNames (ctx_firstName v) (ctx_lastName v) <> "" ->
      name v = fullFromNames (ctx_firstName v) (ctx_lastName v))
  /\ (fullFromNames (ctx_firstName v) (ctx_lastName v) = "" ->
      forall n, ctx_username v = Some n -> n <> "" -> name v = n)
  /\ Str.trim (fullFromNames (ctx_firstName v) (ctx_lastName v))
     = fullFromNames (ctx_firstName v) (ctx_lastName v).
Proof.
  cbv zeta. unfold contextValue.
  cbn [name ctx_firstName ctx_lastName ctx_username].
  set (fn := match mongo with Some m => firstName m | None => _ end).
  set (ln := match mongo with Some m => lastName m | None => _ end).
  set (un := match mongo with Some m => username m | None => None end).
  split; [|split; [|split]].
  - repeat apply or_else_nonempty. discriminate.
  - intro H. apply truthy_nonempty in H. cbn [or_else]. now rewrite H.
  - intros -> n -> Hn. apply truthy_nonempty in Hn. cbn [or_else Str.truthy].
    now rewrite Hn.
  - unfold fullFromNames. apply trim_idem.
Qed.

Lemma initialLoad_signed_in cu s p :
  initialLoad true (Some cu) (s, p)
  = (Ok tt,
     (s, if mounted p then mkProvider (account (cu_id cu) s) true true
         else mkProvider (mongoUser p) false false)).
Proof.
  unfold initialLoad, bind, try_catch, setIsContextLoaded, when_mounted,
    on_server, getUser, findOne, setMongoUser.
  cbn [negb fst snd mounted mongoUser loaded]. fold (account (cu_id cu) s).
  destruct p as [m [] ld]; reflexivity.
Qed.

(** X22.  After the initial load of a mounted provider for a signed-in
    user the context holds the account's document as the collection has
    it, and the collection is not written.  For an existing account the
    context shows the account's tier, coins and username, and its credits
    as JSON carries them: a finite number as it is (negative zero as
    zero), NaN and the infinities as zero; for finite credits the context's
    [hasEnoughCredits] gives the answer of the server action
    [hasEnoughCredits].  For a missing account
    the server action throws while the context shows zero credits, the free
    tier and no coins. *)
Theorem context_after_load (cu : ClerkUser) (required : option float)
    (s : Store) (p : Provider) :
  mounted p = true ->
  let sp := snd (initialLoad true (Some cu) (s, p)) in
  let v := contextValue (Some cu) (mongoUser (snd sp)) (loaded (snd sp)) in
  fst sp = s
  /\ mongoUser (snd sp) = account (cu_id cu) s
  /\ isContextLoaded v = true
  /\ ctx_clerkId v = cu_id cu
  /\ (forall u, account (cu_id cu) s = Some u ->
        ctx_credits v = nullish (Num.json (credits u)) 0%float
        /\ tier v = subscriptionTier u
        /\ ctx_topCoins v = topCoins u /\ ctx_username v = username u
        /\ (Num.finite (credits u) = true ->
            ctx_credits v
            = (if (credits u =? 0)%float then 0%float else credits u)
            /\ hasEnoughCredits (cu_id cu) required s
               = (Ok (ctx_hasEnoughCredits v required), s)))
  /\ (account (cu_id cu) s = None ->
        hasEnoughCredits (cu_id cu) required s
        = (Throw (Err "User not found"), s)
        /\ ctx_credits v = 0%float /\ tier v = free /\ isBasic v = false
        /\ ctx_topCoins v = []
        /\ ctx_hasEnoughCredits v required
           = (nullish required 1 <=? 0)%float).
Proof.
  intros Hm sp v. subst v sp. rewrite initialLoad_signed_in, Hm.
  cbn [fst snd mongoUser loaded].
  split; [reflexivity|]. split; [reflexivity|].
  split; [reflexivity|]. split; [reflexivity|].
  unfold hasEnoughCredits, bind, findOne. fold (account (cu_id cu) s).
  split.
  - intros u Ha. rewrite Ha.
    split; [reflexivity|]. split; [reflexivity|].
    split; [reflexivity|]. split; [reflexivity|].
    intro F. unfold ctx_hasEnoughCredits, contextValue.
    cbn [ctx_credits or_throw ret]. unfold Num.json. rewrite F.
    cbn [nullish]. split; [reflexivity|].
    destruct (credits u =? 0)%float eqn:Z; [|reflexivity].
    now rewrite (leb_zero _ _ Z).
  - intros Ha. rewrite Ha. repeat split.
Qed.

Lemma setUsername_throw now cid raw s e s' :
  setUsername now cid raw s = (Throw e, s') -> s' = s.
Proof.
  rewrite setUsername_spec. cbv zeta.
  destruct (negb _); [intro H; now inversion H|].
  destruct (RESERVED_has _); [intro H; now inversion H|].
  destruct (account cid s); [|intro H; now inversion H].
  destruct (dup_on_update _ _ _); intro H; now inversion H.
Qed.

(** X23.  [setUsername] of the context: it throws "Not authenticated"
    without a signed-in user; when it throws, neither the collection nor
    the provider's state has changed; when it returns, the server action
    has succeeded and a mounted provider holds the refreshed document, so
    that the context shows the new username. *)
Theorem ctx_setUsername_spec (now : Z) (clerkUser : option ClerkUser)
    (desired : string) (s : Store) (p : Provider) :
  (clerkUser = None ->
   ctx_setUsername now clerkUser desired (s, p)
   = (Throw (Err "Not authenticated"), (s, p)))
  /\ (forall e sp,
        ctx_setUsername now clerkUser desired (s, p) = (Throw e, sp) ->
        sp = (s, p))
  /\ (forall cu s' p',
        clerkUser = Some cu ->
        ctx_setUsername now clerkUser desired (s, p) = (Ok tt, (s', p')) ->
        exists u,
          setUsername now (cu_id cu) desired s = (Ok u, s')
          /\ account (cu_id cu) s' = Some u
          /\ p' = (if mounted p then mkProvider (Some u) true (loaded p) else p)
          /\ (mounted p = true ->
              forall l,
                ctx_username (contextValue clerkUser (mongoUser p') l)
                = Some (Str.trim desired))).
Proof.
  split; [|split].
  - intros ->. reflexivity.
  - intros e sp. destruct clerkUser as [cu|]; cbn [ctx_setUsername].
    + unfold refreshUser, getUser, findOne, when_mounted, setMongoUser,
        bind, on_server. cbn [fst snd].
      destruct (setUsername now (cu_id cu) desired s) as [[u|e1] s1] eqn:E.
      * cbn. destruct (mounted p); cbn; discriminate.
      * apply setUsername_throw in E. subst s1. intro H. now inversion H.
    + intro H. now inversion H.
  - intros cu s' p' ->. cbn [ctx_setUsername].
    unfold refreshUser, getUser, findOne, when_mounted, setMongoUser,
      bind, on_server. cbn [fst snd].
    destruct (setUsername now (cu_id cu) desired s) as [[u|e1] s1] eqn:E;
      [|discriminate].
    destruct (setUsername_ok now (cu_id cu) desired u s s1 E)
      as (_ & _ & _ & A & N & _).
    cbn [fst snd]. fold (account (cu_id cu) s1). rewrite A.
    destruct p as [m mt ld]. cbn [mounted loaded mongoUser].
    destruct mt; intro H; inversion H; subst s' p'; exists u;
      (split; [reflexivity|]); (split; [exact A|]);
      (split; [reflexivity|]); [|discriminate].
    intros _ l. exact N.
Qed.

(** ** More on [createUser] *)

(** X24.  [createUser] does not apply the username rules of
    [setUsername]: a username that is not blank after trimming is stored
    trimmed, whatever its characters and whether reserved or not; a blank
    one leaves the username of an existing account as it was. *)
Theorem createUser_username_unchecked (now : Z) (user : CreateUserInput)
    (n : string) (u : User) (s s' : Store) :
  createUser now user s = (Ok u, s') ->
  in_username user = Some n ->
  (Str.trim n <> "" ->
   account (in_clerkId user) s' = Some u
   /\ username u = Some (Str.trim n)
   /\ usernameLower u = Some (Str.toLowerCase (Str.trim n)))
  /\ (Str.trim n = "" ->
      forall old, account (in_clerkId user) s = Some old ->
        username u = username old /\ usernameLower u = usernameLower old).
Proof.
  intros E Hn.
  destruct (createUser_ok _ _ _ _ _ E) as (A & Idem & _).
  pose proof (proj2 (proj2 (proj2 (createUser_set_profile user u)))) as P.
  rewrite Idem, Hn in P. split.
  - intro T. assert (Tn : Str.truthy n = true).
    { destruct n; [now vm_compute in T | reflexivity]. }
    apply truthy_nonempty in T. rewrite Tn, T in P. cbn [andb] in P.
    inversion P. now repeat split.
  - intros T old Ha.
    rewrite (createUser_castable _ _ _ (createUser_ok_castable _ _ _ _ _ E)),
      Ha in E.
    unfold write_update in E. destruct (dup_on_update _ _ _); [discriminate|].
    inversion E; subst u.
    pose proof (proj2 (proj2 (proj2 (createUser_set_profile user old)))) as Q.
    rewrite Hn, T in Q. cbn [Str.truthy] in Q. rewrite andb_false_r in Q.
    inversion Q. now split.
Qed.

(** X25.  The first revision of [createUser] against the current one:
    for a new account and no username the two calls are the same; for an
    existing account the first revision, when its [credits] cast, changes
    nothing but [updatedAt]. *)
Theorem createUser_rev1_spec (now : Z) (user : CreateUserInput) (s : Store) :
  (account (in_clerkId user) s = None ->
   in_username user = None ->
   createUser_rev1 now user s = createUser now user s)
  /\ (forall old, account (in_clerkId user) s = Some old ->
        createUser_rev1 now user s
        = if uncastable (in_credits user)
          then (Throw (CastError "credits"), s)
          else (Ok (set_updatedAt now old),
                replace_first (matches (by_clerkId (in_clerkId user)))
                  (set_updatedAt now old) s)).
Proof.
  split.
  - intros Ha Hn. unfold createUser_rev1, createUser, findOneAndUpsert.
    destruct (uncastable (in_credits user)); [reflexivity|].
    unfold account in Ha. rewrite Ha. unfold write_insert.
    replace (createUser_rev1_setOnInsert user
               (schemaDefaults (List.length s) now
                  (q_clerkId (by_clerkId (in_clerkId user)))))
      with (createUser_setOnInsert user
              (createUser_set user
                 (schemaDefaults (List.length s) now
                    (q_clerkId (by_clerkId (in_clerkId user)))))); [reflexivity|].
    unfold createUser_rev1_setOnInsert, createUser_setOnInsert, createUser_set.
    rewrite Hn. now destruct (in_credits user).
  - intros old Ha. unfold createUser_rev1, findOneAndUpsert.
    destruct (uncastable (in_credits user)); [reflexivity|].
    unfold account in Ha. rewrite Ha. unfold write_update.
    rewrite dup_on_update_same_keys; [reflexivity|].
    intro i; destruct i; reflexivity.
Qed.

(** ** Worked instances *)

Lemma alice_credits : Num.to_Z (credits Sample.alice_doc) = Some 10.
Proof. vm_compute. reflexivity. Qed.

(** X1 on the sample collection: Alice buys 100 credits. *)
Lemma addCredits_spec_witness :
  exists u' s',
    addCredits 1004 "user_alice" 100 Sample.store_named = (Ok u', s')
    /\ account "user_alice" s' = Some u'
    /\ credits u' = (credits Sample.alice_doc + 100)%float
    /\ Num.to_Z (credits u') = Some (10 + 100)
    /\ creditHistory u' = creditHistory Sample.alice_doc
    /\ List.length s' = List.length Sample.store_named.
Proof.
  destruct (proj2 (proj2 (proj2 (addCredits_spec 1004 "user_alice" 100
                                   Sample.store_named))) Sample.alice_doc)
    as (u' & s' & E & A & C & X & H & L & _);
    [vm_compute; reflexivity | exact alice_account |].
  exists u', s'. split; [exact E|]. split; [exact A|]. split; [exact C|].
  split; [|split; assumption].
  apply X; [exact alice_credits | vm_compute; reflexivity | | |];
    unfold Num.safe; lia.
Defined.

Lemma five_credits : Num.to_Z 5 = Some 5.
Proof. vm_compute. reflexivity. Qed.

(** X2 on the sample collection. *)
Lemma addCredits_then_consume_witness :
  succeeded
    (fst (consumeBacktestCredits 2 "user_alice" 5 "SOL" "rsi"
            (snd (addCredits 1 "user_alice" 5 Sample.store_named)))) = true
  /\ exists b',
       balance "user_alice"
         (snd (consumeBacktestCredits 2 "user_alice" 5 "SOL" "rsi"
                 (snd (addCredits 1 "user_alice" 5 Sample.store_named))))
       = Some b'
       /\ Num.to_Z b' = Some 10.
Proof.
  apply (addCredits_then_consume 1 2 "user_alice" "SOL" "rsi" 5 5 10
           Sample.alice_doc Sample.store_named (proj1 store_named_wf)
           alice_account five_credits alice_credits); lia.
Defined.

(** X3 on the sample collection. *)
Lemma hasEnoughCredits_agrees_witness :
  snd (hasEnoughCredits "user_alice" (Some 5%float) Sample.store_named)
  = Sample.store_named
  /\ (account "user_alice" Sample.store_named = None ->
      fst (hasEnoughCredits "user_alice" (Some 5%float) Sample.store_named)
      = Throw (Err "User not found"))
  /\ (fst (hasEnoughCredits "user_alice" (Some 5%float) Sample.store_named)
      = Ok true
      <-> succeeded
            (fst (consumeBacktestCredits 9 "user_alice" 5 "SOL" "rsi"
                    Sample.store_named)) = true)
  /\ hasEnoughCredits "user_alice" None Sample.store_named
     = hasEnoughCredits "user_alice" (Some 1%float) Sample.store_named.
Proof.
  apply (hasEnoughCredits_agrees 9 "user_alice" "SOL" "rsi" 5
           Sample.store_named (proj1 store_named_wf)).
  vm_compute. reflexivity.
Defined.

(** X4 on the sample collection. *)
Lemma topCoins_at_most_3_witness :
  exists coins,
    getUserTopCoins "user_alice" Sample.store_named
    = (Ok coins, Sample.store_named)
    /\ (List.length coins <= 3)%nat
    /\ (account "user_alice" Sample.store_named = None -> coins = []).
Proof.
  exact (topCoins_at_most_3 Sample.store_named "user_alice" store_named_plain).
Defined.

(** X5 on the sample collection: four coins, then two. *)
Lemma updateUserTopCoins_spec_witness :
  updateUserTopCoins 5000 "user_alice" ["BTC"; "ETH"; "SOL"; "DOGE"]
    Sample.store_named
  = (Throw (Err "Only 3 coins can be selected"), Sample.store_named)
  /\ exists s',
       updateUserTopCoins 5000 "user_alice" ["BTC"; "ETH"] Sample.store_named
       = (Ok ["BTC"; "ETH"], s')
       /\ getUserTopCoins "user_alice" s' = (Ok ["BTC"; "ETH"], s')
       /\ account "user_alice" s'
          = Some (set_updatedAt 5000
                    (set_topCoins ["BTC"; "ETH"] Sample.alice_doc))
       /\ forall cid', cid' <> "user_alice" ->
            account cid' s' = account cid' Sample.store_named.
Proof.
  split.
  - apply (proj1 (updateUserTopCoins_spec 5000 "user_alice"
                    ["BTC"; "ETH"; "SOL"; "DOGE"] Sample.store_named)).
    simpl. lia.
  - apply (proj2 (proj2 (updateUserTopCoins_spec 5000 "user_alice"
                           ["BTC"; "ETH"] Sample.store_named))
             Sample.alice_doc); [simpl; lia | exact alice_account].
Defined.

Lemma alice_wallet :
  fst (getSolanaWallet "user_alice" Sample.store_named) = Ok Sample.wallet_1.
Proof. vm_compute. reflexivity. Qed.

(** X6 on the sample collection: the wallet Alice connected. *)
Lemma wallet_passes_validator_witness :
  wallet_validator Sample.wallet_1 = true.
Proof.
  exact (wallet_passes_validator Sample.store_named "user_alice"
           Sample.wallet_1 store_named_plain alice_wallet).
Defined.

Lemma alice_alone : reachable Sample.store_a.
Proof. unfold reachable, Sample.store_a. reach. Qed.

Lemma alice_connects :
  setSolanaWallet 1001 "user_alice" (" " ++ Sample.wallet_1)%string Sample.store_a
  = (Ok (set_updatedAt 1001
           (set_solanaWallet (Some Sample.wallet_1)
              (nth 0 Sample.store_a (schemaDefaults 0 0 "")))),
     Sample.store_aw).
Proof. vm_compute. reflexivity. Qed.

(** X7: Alice connects her wallet, typed with a leading blank. *)
Lemma wallet_round_trip_witness :
  getSolanaWallet "user_alice" Sample.store_aw
  = (Ok (Str.trim (" " ++ Sample.wallet_1)%string), Sample.store_aw)
  /\ isValidSolAddress (Str.trim (" " ++ Sample.wallet_1)%string) = true
  /\ (forall cid', cid' <> "user_alice" ->
        account cid' Sample.store_aw = account cid' Sample.store_a)
  /\ forall later,
       succeeded (fst (setSolanaWallet later "user_alice"
                         (" " ++ Sample.wallet_1)%string Sample.store_aw))
       = true.
Proof.
  exact (wallet_round_trip 1001 "user_alice" (" " ++ Sample.wallet_1)%string
           _ Sample.store_a Sample.store_aw alice_connects).
Defined.

Lemma alice_disconnects :
  clearSolanaWallet 1005 "user_alice" Sample.store_aw
  = (Ok (set_updatedAt 1005
           (set_solanaWallet (Some "")
              (nth 0 Sample.store_aw (schemaDefaults 0 0 "")))),
     snd (clearSolanaWallet 1005 "user_alice" Sample.store_aw)).
Proof. vm_compute. reflexivity. Qed.

(** X8: Alice, alone in the collection, disconnects her wallet. *)
Lemma clear_then_get_witness :
  getSolanaWallet "user_alice"
    (snd (clearSolanaWallet 1005 "user_alice" Sample.store_aw))
  = (Ok "", snd (clearSolanaWallet 1005 "user_alice" Sample.store_aw)).
Proof.
  exact (proj1 (clear_then_get 1005 "user_alice" _ Sample.store_aw _
                  alice_disconnects)).
Defined.

(** X9 on the sample address. *)
Lemma valid_address_shape_witness :
  (String.length Sample.wallet_1 = 43%nat \/ String.length Sample.wallet_1 = 44%nat)
  /\ Str.trim Sample.wallet_1 = Sample.wallet_1
  /\ occurs "0" Sample.wallet_1 = false /\ occurs "O" Sample.wallet_1 = false
  /\ occurs "I" Sample.wallet_1 = false /\ occurs "l" Sample.wallet_1 = false
  /\ USERNAME_RE Sample.wallet_1 = false.
Proof.
  apply (valid_address_shape Sample.wallet_1). vm_compute. reflexivity.
Defined.

(** X10 on the sample collection: the holder of the sample wallet. *)
Lemma unique_fields_witness :
  reachable Sample.store_named
  /\ forall b, In b Sample.store_named ->
       solanaWallet b = Some Sample.wallet_1 -> Sample.alice_doc = b.
Proof.
  split; [exact store_named_plain|]. intros b Hb Hw.
  apply (unique_fields Sample.store_named Sample.alice_doc b
           store_named_plain alice_in_store Hb).
  right; right; right; right. exists Sample.wallet_1. split; [reflexivity | exact Hw].
Defined.

(** X11 on Alice's document. *)
Lemma stored_strings_normalized_witness :
  (forall e, email Sample.alice_doc = Some e ->
     Str.toLowerCase e = e /\ Str.trim e = e)
  /\ (forall n, username Sample.alice_doc = Some n ->
        Str.trim n = n /\ n <> ""
        /\ usernameLower Sample.alice_doc = Some (Str.toLowerCase n)).
Proof.
  exact (stored_strings_normalized Sample.store_named Sample.alice_doc
           store_named_plain alice_in_store).
Defined.

Lemma store_spent_reachable : reachable SampleClient.store_spent.
Proof.
  unfold SampleClient.store_spent. apply reach_step; [|exact I].
  exact store_named_plain.
Qed.

Lemma alice_spent :
  account "user_alice" SampleClient.store_spent
  = Some (set_updatedAt 2002
            (debit_update (mkEntry "SOL" "rsi" 4 2002) Sample.alice_doc)).
Proof. vm_compute. reflexivity. Qed.

(** X12 after one backtest. *)
Lemma history_entries_witness :
  reachable SampleClient.store_spent
  /\ forall e,
       In e (creditHistory
               (set_updatedAt 2002
                  (debit_update (mkEntry "SOL" "rsi" 4 2002) Sample.alice_doc))) ->
       (0 <? creditsUsed e)%float = true.
Proof.
  split; [exact store_spent_reachable|].
  exact (history_entries SampleClient.store_spent "user_alice" _
           store_spent_reachable alice_spent).
Defined.

(** X13: the primary entry is the second of two. *)
Lemma getPrimaryEmailFromEvent_spec_witness :
  getPrimaryEmailFromEvent (ev_data SampleClient.dave_created)
  = Some " Dave@Example.com".
Proof.
  apply (proj1 (proj2 (proj2 (getPrimaryEmailFromEvent_spec
                                (ev_data SampleClient.dave_created))))
           "idn_8" (mkEmailAddress "idn_8" " Dave@Example.com"));
    [reflexivity | discriminate | reflexivity | discriminate].
Defined.

(** X14: Alice's identity record is deleted; her name stays taken. *)
Lemma user_deleted_spec_witness :
  fst (handleEvent 6000 SampleClient.alice_deleted Sample.store_named)
  = Ok (mkResponse 200 (Text ""))
  /\ account "user_alice"
       (snd (handleEvent 6000 SampleClient.alice_deleted Sample.store_named))
     = Some (set_updatedAt 6000 (set_deletedAt (Some 6000) Sample.alice_doc))
  /\ isUsernameAvailable "validuser123"
       (snd (handleEvent 6000 SampleClient.alice_deleted Sample.store_named))
     = (fst (isUsernameAvailable "validuser123" Sample.store_named),
        snd (handleEvent 6000 SampleClient.alice_deleted Sample.store_named)).
Proof.
  destruct (user_deleted_spec 6000 SampleClient.alice_deleted
              Sample.store_named eq_refl)
    as (R & _ & _ & _ & D & _ & A).
  split; [exact R|]. split; [|exact (A "validuser123")].
  apply D; [discriminate | exact alice_account].
Defined.

(** X15: a request whose payload does not verify, and a secret that
    does not decode. *)
Lemma POST_responses_witness :
  (exists resp s',
      POST string SampleClient.Webhook SampleClient.verify (Some "whsec_test")
        6000 (SampleClient.signed "forged") Sample.store_named = (Ok resp, s')
      /\ (status resp <> 200%nat -> s' = Sample.store_named)
      /\ resp = mkResponse 400 (Text "Invalid webhook signature"))
  /\ (exists resp s',
         POST string SampleClient.Webhook SampleClient.verify (Some "secret")
           6000 (SampleClient.signed "deleted") Sample.store_named
         = (Ok resp, s')
         /\ resp = mkResponse 500 (Text "Internal server error")).
Proof.
  split.
  - destruct (proj2 (POST_responses string SampleClient.Webhook
                       SampleClient.verify (Some "whsec_test") 6000
                       (SampleClient.signed "forged") Sample.store_named)
                "whsec_test" eq_refl)
      as (resp & s' & E & St & U & _ & V).
    exists resp, s'. split; [exact E|]. split; [exact U|].
    now apply (proj2 (V eq_refl eq_refl eq_refl) "whsec_test").
  - destruct (proj2 (POST_responses string SampleClient.Webhook
                       SampleClient.verify (Some "secret") 6000
                       (SampleClient.signed "deleted") Sample.store_named)
                "secret" eq_refl)
      as (resp & s' & E & St & U & _ & V).
    exists resp, s'. split; [exact E|].
    now apply (proj1 (V eq_refl eq_refl eq_refl)).
Defined.

Lemma dave_signs_up :
  exists u,
    handleEvent 7000 SampleClient.dave_created []
    = (Ok (mkResponse 200 (JsonUser "User created" u)), [u]).
Proof. eexists. vm_compute. reflexivity. Qed.

(** X16: Dave signs up. *)
Lemma handleEvent_synced_witness :
  exists u,
    account "user_dave" (snd (handleEvent 7000 SampleClient.dave_created []))
    = Some u
    /\ email u = Some "dave@example.com" /\ firstName u = "Dave"
    /\ lastName u = "" /\ updatedAt u = 7000.
Proof.
  destruct dave_signs_up as (u0 & E).
  destruct (handleEvent_synced 7000 SampleClient.dave_created _ [] [u0]
              (or_introl eq_refl) E eq_refl)
    as (cid & em & u & Hid & _ & Hem & _ & A & Em & F & L & Up & _).
  exists u. rewrite E. cbn [snd].
  assert (C : cid = "user_dave") by (cbn in Hid; congruence).
  assert (M : em = " Dave@Example.com") by (vm_compute in Hem; congruence).
  subst cid em.
  split; [exact A|]. split; [exact Em|]. split; [exact F|].
  split; [exact L | exact Up].
Defined.

Lemma customer_id_nonempty (n : nat) : SampleEvents.customer_id n <> "".
Proof. destruct n as [|[|n]]; discriminate. Qed.

Lemma provider_ids (c : Customer) :
  In c (customers (stripe SampleEvents.world_named)) -> cus_id c <> "".
Proof. intros [<-|[]]. discriminate. Qed.

(** X17: Bob subscribes twice. *)
Lemma subscribe_reuses_customer_witness :
  let w1 := snd (subscribe SampleEvents.customer_id SampleEvents.checkout_url
                   SampleEvents.answers
                   8000 "user_bob" "bob@example.com" "price_basic"
                   SampleEvents.world_named) in
  let w2 := snd (subscribe SampleEvents.customer_id SampleEvents.checkout_url
                   SampleEvents.answers
                   8001 "user_bob" "bob@example.com" "price_unknown" w1) in
  customers (stripe w2) = customers (stripe w1)
  /\ billing_customer SampleEvents.customer_id "bob@example.com" (stripe w1)
     = billing_customer SampleEvents.customer_id "bob@example.com"
         (stripe SampleEvents.world_named)
  /\ (List.length (customers (stripe w1))
      <= S (List.length (customers (stripe SampleEvents.world_named))))%nat.
Proof.
  destruct (subscribe_reuses_customer SampleEvents.customer_id
              SampleEvents.checkout_url SampleEvents.answers
              8000 8001 "user_bob" "user_bob"
              "bob@example.com" "price_basic" "price_unknown"
              SampleEvents.world_named)
    as (A & _ & L);
    try discriminate; [exact provider_ids | exact customer_id_nonempty |].
  destruct (A eq_refl) as [A1 A2].
  split; [exact A1|]. split; [exact A2 | exact L].
Defined.

Lemma alice_declined :
  exists w',
    subscribe SampleEvents.customer_id SampleEvents.checkout_url
      SampleEvents.declines 8000
      "user_alice" "alice@example.com" "price_basic" SampleEvents.world_named
    = (Throw (Err "Failed to create subscription: Your account cannot currently make live charges."),
       w').
Proof. eexists. vm_compute. reflexivity. Qed.

(** X18: the provider rejects Alice's session, after her account was
    tied to the customer. *)
Lemma subscribe_failure_witness :
  exists w',
    subscribe SampleEvents.customer_id SampleEvents.checkout_url
      SampleEvents.declines 8000
      "user_alice" "alice@example.com" "price_basic" SampleEvents.world_named
    = (Throw (Err "Failed to create subscription: Your account cannot currently make live charges."),
       w')
    /\ sessions (stripe w') = sessions (stripe SampleEvents.world_named)
    /\ option_map customerId (account "user_alice" (db w')) = Some "cus_alice".
Proof.
  destruct alice_declined as (w' & E). exists w'. split; [exact E|].
  destruct (subscribe_failure SampleEvents.customer_id SampleEvents.checkout_url
              SampleEvents.declines
              8000 "user_alice" "alice@example.com" "price_basic"
              SampleEvents.world_named w' _ E)
    as [([H|[H|H]] & _)|(_ & _ & _ & _ & S & D)];
    [discriminate | discriminate | discriminate |].
  split; [exact S|].
  replace w' with (snd (subscribe SampleEvents.customer_id
                          SampleEvents.checkout_url SampleEvents.declines 8000
                          "user_alice" "alice@example.com" "price_basic"
                          SampleEvents.world_named))
    by now rewrite E.
  vm_compute. reflexivity.
Defined.

Lemma bob_takes_name :
  exists u s',
    setUsername 9000 "user_bob" " Bobby_1 " Sample.store_named = (Ok u, s').
Proof. eexists; eexists. vm_compute. reflexivity. Qed.

(** X19: Bob takes a name. *)
Lemma setUsername_then_taken_witness :
  exists u s',
    setUsername 9000 "user_bob" " Bobby_1 " Sample.store_named = (Ok u, s')
    /\ account "user_bob" s' = Some u
    /\ username u = Some "Bobby_1"
    /\ isUsernameAvailable "BOBBY_1" s'
       = (Ok (mkAvail false (Some msg_taken)), s').
Proof.
  destruct bob_takes_name as (u & s' & E). exists u, s'.
  destruct (setUsername_then_taken 9000 "user_bob" " Bobby_1 " u
              Sample.store_named s' E) as (A & N & _ & _ & T).
  split; [exact E|]. split; [exact A|]. split; [exact N|].
  apply T. vm_compute. reflexivity.
Defined.

(** X20: Alice connects a wallet. *)
Lemma apply_op_frame_witness :
  (forall cid, cid <> "user_alice" ->
     account cid (apply_op (OpSetSolanaWallet 1001 "user_alice" Sample.wallet_1)
                    Sample.store_named)
     = account cid Sample.store_named)
  /\ exists u',
       account "user_alice"
         (apply_op (OpSetSolanaWallet 1001 "user_alice" Sample.wallet_1)
            Sample.store_named) = Some u'
       /\ _id u' = _id Sample.alice_doc
       /\ createdAt u' = createdAt Sample.alice_doc
       /\ field_eq FCredits Sample.alice_doc u'
       /\ field_eq FHandle Sample.alice_doc u'.
Proof.
  destruct (apply_op_frame (OpSetSolanaWallet 1001 "user_alice" Sample.wallet_1)
              Sample.store_named (proj1 store_named_wf)) as (O & P & _).
  split; [exact O|].
  destruct (P "user_alice" Sample.alice_doc alice_account)
    as (u' & A & I1 & _ & I3 & _ & F).
  exists u'. split; [exact A|]. split; [exact I1|]. split; [exact I3|].
  split; apply F; reflexivity.
Defined.

(** X21: the stored names win over the identity provider's. *)
Lemma context_name_witness :
  name (contextValue (Some SampleClient.alice_clerk) (Some Sample.bob_doc) true)
  = fullFromNames "Bob" "".
Proof.
  apply (proj1 (proj2 (context_name (Some SampleClient.alice_clerk)
                         (Some Sample.bob_doc) true))).
  vm_compute. discriminate.
Defined.

Lemma alice_finite : Num.finite (credits Sample.alice_doc) = true.
Proof. vm_compute. reflexivity. Qed.

(** X22: the context loaded for Alice. *)
Lemma context_after_load_witness :
  hasEnoughCredits "user_alice" (Some 11%float) Sample.store_named
  = (Ok (ctx_hasEnoughCredits
           (contextValue (Some SampleClient.alice_clerk)
              (mongoUser
                 (snd (snd (initialLoad true (Some SampleClient.alice_clerk)
                              (Sample.store_named, SampleClient.fresh)))))
              (loaded
                 (snd (snd (initialLoad true (Some SampleClient.alice_clerk)
                              (Sample.store_named, SampleClient.fresh))))))
           (Some 11%float)),
     Sample.store_named).
Proof.
  destruct (context_after_load SampleClient.alice_clerk (Some 11%float)
              Sample.store_named SampleClient.fresh eq_refl)
    as (_ & _ & _ & _ & H & _).
  destruct (H Sample.alice_doc alice_account) as (_ & _ & _ & _ & F).
  exact (proj2 (F alice_finite)).
Defined.

Lemma alice_renames :
  exists s' p',
    ctx_setUsername 9100 (Some SampleClient.alice_clerk) " Alice_2 "
      (Sample.store_named, SampleClient.fresh) = (Ok tt, (s', p')).
Proof. eexists; eexists. vm_compute. reflexivity. Qed.

(** X23: Alice renames herself from the browser. *)
Lemma ctx_setUsername_spec_witness :
  exists s' p',
    ctx_setUsername 9100 (Some SampleClient.alice_clerk) " Alice_2 "
      (Sample.store_named, SampleClient.fresh) = (Ok tt, (s', p'))
    /\ ctx_username
         (contextValue (Some SampleClient.alice_clerk) (mongoUser p') true)
       = Some "Alice_2".
Proof.
  destruct alice_renames as (s' & p' & E). exists s', p'. split; [exact E|].
  destruct (proj2 (proj2 (ctx_setUsername_spec 9100
                            (Some SampleClient.alice_clerk) " Alice_2 "
                            Sample.store_named SampleClient.fresh))
              SampleClient.alice_clerk s' p' eq_refl E)
    as (u & _ & _ & _ & N).
  exact (N eq_refl true).
Defined.

Lemma dave_created_by_action :
  exists u, createUser 7000 SampleClient.dave [] = (Ok u, [u]).
Proof. eexists. vm_compute. reflexivity. Qed.

(** X24: a reserved name comes in through [createUser]. *)
Lemma createUser_username_unchecked_witness :
  exists u,
    createUser 7000 SampleClient.dave [] = (Ok u, [u])
    /\ username u = Some "admin"
    /\ RESERVED_has "admin" = true.
Proof.
  destruct dave_created_by_action as (u & E). exists u. split; [exact E|].
  destruct (proj1 (createUser_username_unchecked 7000 SampleClient.dave
                     " admin " u [] [u] E eq_refl)) as (_ & N & _).
  - vm_compute. discriminate.
  - split; [exact N | reflexivity].
Defined.

(** X25 on the empty and on the sample collection. *)
Lemma createUser_rev1_spec_witness :
  createUser_rev1 7000 Sample.bob [] = createUser 7000 Sample.bob []
  /\ createUser_rev1 7000 Sample.bob Sample.store_named
     = (Ok (set_updatedAt 7000 Sample.bob_doc),
        replace_first (matches (by_clerkId "user_bob"))
          (set_updatedAt 7000 Sample.bob_doc) Sample.store_named).
Proof.
  split.
  - apply (proj1 (createUser_rev1_spec 7000 Sample.bob [])); reflexivity.
  - exact (proj2 (createUser_rev1_spec 7000 Sample.bob Sample.store_named)
             Sample.bob_doc bob_account).
Defined.
